(** * MIDI relay engine: a shallow embedding of [midi.js]

    The development follows the layout of the source file: the JavaScript
    primitives the engine relies on, the activity log, the codec
    ([sendMIDI] / [receiveMIDI] / [BuildMSC]), the trigger engine, the
    dispatch actions and the validators.  Theorems come last. *)

From Stdlib Require Import ZArith List String Ascii Bool Lia.
From Stdlib Require Import Numbers.DecimalString Numbers.DecimalPos.
Import ListNotations.
Local Open Scope string_scope.
Local Open Scope Z_scope.

(* ================================================================== *)
(** ** JavaScript values and the operators used by the engine          *)
(* ================================================================== *)

Module JS.

(** Values that reach the engine from JSON request bodies and from the
    configuration store.  Numbers are the integer-valued ones (MIDI data
    are integers); [JNaN] is the result of a failed numeric conversion.
    [JProto name] is the member [name] that a property read on an object
    literal finds on [Object.prototype] when the literal has no own
    property of that name. *)
Inductive jsval : Type :=
| JUndefined
| JNull
| JBool (b : bool)
| JNum (z : Z)
| JNaN
| JStr (s : string)
| JProto (name : string).

(** Completion of a synchronous computation: a value, or a thrown error. *)
Inductive result (A : Type) : Type :=
| Ok (a : A)
| Throw (e : string).
Arguments Ok {A} a.
Arguments Throw {A} e.

Definition rbind {A B} (r : result A) (k : A -> result B) : result B :=
  match r with
  | Ok a => k a
  | Throw e => Throw e
  end.

Notation "'do' x <- r ; k" := (rbind r (fun x => k))
  (at level 10, x name, r at level 100, k at level 200).

(** *** Truthiness, [||], [??], [===] *)

Definition truthy (v : jsval) : bool :=
  match v with
  | JUndefined | JNull | JNaN => false
  | JBool b => b
  | JNum z => negb (z =? 0)
  | JStr s => negb (s =? "")%string
  | JProto _ => true
  end.

Definition js_or (a b : jsval) : jsval := if truthy a then a else b.

Definition nullish (v : jsval) : bool :=
  match v with
  | JUndefined | JNull => true
  | _ => false
  end.

Definition js_coalesce (a b : jsval) : jsval := if nullish a then b else a.

Definition strict_eq (a b : jsval) : bool :=
  match a, b with
  | JUndefined, JUndefined => true
  | JNull, JNull => true
  | JBool x, JBool y => Bool.eqb x y
  | JNum x, JNum y => x =? y
  | JStr x, JStr y => (x =? y)%string
  | JProto x, JProto y => (x =? y)%string
  | _, _ => false
  end.

(** [a === 'lit'] against a string literal. *)
Definition is_str (v : jsval) (lit : string) : bool := strict_eq v (JStr lit).

(** [Array.prototype.includes] on an array of string literals. *)
Definition includes (l : list string) (v : jsval) : bool :=
  existsb (is_str v) l.

(** The same, and [Set.prototype.has], for an argument known to be a
    string. *)
Definition has (l : list string) (s : string) : bool :=
  existsb (String.eqb s) l.

(** *** Strings *)

Definition code (c : ascii) : Z := Z.of_N (N_of_ascii c).

(** The decimal numeral of an integer. *)
Definition decimal (z : Z) : string :=
  NilZero.string_of_int (Z.to_int z).

Fixpoint strip_zeros (s : string) : string :=
  match s with
  | EmptyString => EmptyString
  | String c r =>
      let r' := strip_zeros r in
      if (r' =? "")%string && (code c =? 48) then EmptyString else String c r'
  end.

(** [Number::toString] from 1e21 on: one digit, the remaining significant
    digits after a point, and the exponent, as in [1e+21] and [1.5e+21].
    The digits are those of the integer itself; JavaScript prints the
    shortest digits that identify the double, which have the same
    length and exponent and are the same digits whenever the integer has
    at most 15 significant ones. *)
Definition exponent_string (z : Z) : string :=
  (if z <? 0 then "-" else "") ++
  match decimal (Z.abs z) with
  | EmptyString => EmptyString
  | String d rest =>
      let fraction := strip_zeros rest in
      String d ((if (fraction =? "")%string then "" else "." ++ fraction)
                ++ "e+" ++ decimal (Z.of_nat (String.length rest)))
  end.

(** [String(n)] for an integer-valued number: the decimal numeral below
    1e21 in absolute value, the exponent form from there on. *)
Definition number_to_string (z : Z) : string :=
  if Z.abs z <? 1000000000000000000000 then decimal z else exponent_string z.

Definition toString (v : jsval) : string :=
  match v with
  | JUndefined => "undefined"
  | JNull => "null"
  | JBool true => "true"
  | JBool false => "false"
  | JNum z => number_to_string z
  | JNaN => "NaN"
  | JStr s => s
  | JProto name => "function " ++ name ++ "() { [native code] }"
  end.

Definition lower_char (c : ascii) : ascii :=
  if (65 <=? code c) && (code c <=? 90)
  then ascii_of_N (N_of_ascii c + 32)
  else c.

Fixpoint lower (s : string) : string :=
  match s with
  | EmptyString => EmptyString
  | String c r => String (lower_char c) (lower r)
  end.

Definition upper_char (c : ascii) : ascii :=
  if (97 <=? code c) && (code c <=? 122)
  then ascii_of_N (N_of_ascii c - 32)
  else c.

Fixpoint upper (s : string) : string :=
  match s with
  | EmptyString => EmptyString
  | String c r => String (upper_char c) (upper r)
  end.

(** [v.toLowerCase()]: a method of strings only; on any other value the
    property read or the call raises a [TypeError]. *)
Definition toLowerCase (v : jsval) : result string :=
  match v with
  | JStr s => Ok (lower s)
  | _ => Throw "TypeError"
  end.

(** White space recognised by [trim] and skipped by [parseInt] (the
    ASCII part of it). *)
Definition is_ws (c : ascii) : bool :=
  let n := code c in
  (n =? 9) || (n =? 10) || (n =? 11) || (n =? 12) || (n =? 13) || (n =? 32).

Fixpoint trim_start (s : string) : string :=
  match s with
  | EmptyString => EmptyString
  | String c r => if is_ws c then trim_start r else s
  end.

Fixpoint trim_end (s : string) : string :=
  match s with
  | EmptyString => EmptyString
  | String c r =>
      let r' := trim_end r in
      if (r' =? "")%string && is_ws c then EmptyString else String c r'
  end.

Definition trim (s : string) : string := trim_end (trim_start s).

Definition startsWith (pre s : string) : bool := String.prefix pre s.

(** [s.substring(1)] *)
Definition substring1 (s : string) : string :=
  match s with
  | EmptyString => EmptyString
  | String _ r => r
  end.

(** [s.split(',')] *)
Fixpoint split_comma_aux (cur : string) (s : string) : list string :=
  match s with
  | EmptyString => [cur]
  | String c r =>
      if (code c =? 44)
      then cur :: split_comma_aux EmptyString r
      else split_comma_aux (cur ++ String c EmptyString) r
  end.

Definition split_comma (s : string) : list string :=
  split_comma_aux EmptyString s.

(** *** Numeric conversions *)

Definition digit_val (c : ascii) : option Z :=
  let n := code c in
  if (48 <=? n) && (n <=? 57) then Some (n - 48)
  else if (97 <=? n) && (n <=? 122) then Some (n - 87)
  else if (65 <=? n) && (n <=? 90) then Some (n - 55)
  else None.

(** Longest prefix of digits in the given radix: its value ([None] when
    the prefix is empty) and the rest of the string. *)
Fixpoint read_digits (radix : Z) (acc : option Z) (s : string)
  : option Z * string :=
  match s with
  | EmptyString => (acc, EmptyString)
  | String c r =>
      match digit_val c with
      | Some d =>
          if d <? radix
          then read_digits radix
                 (Some (match acc with Some a => a * radix + d | None => d end)) r
          else (acc, s)
      | None => (acc, s)
      end
  end.

Definition has_hex_prefix (s : string) : bool :=
  startsWith "0x" s || startsWith "0X" s.

(** [parseInt(s)] and [parseInt(s, 10)] on a string; [None] is [NaN].
    Without a radix a [0x] prefix selects radix 16. *)
Definition parseInt_string (radix10 : bool) (s : string) : option Z :=
  let s1 := trim_start s in
  let '(neg, s2) :=
    match s1 with
    | String "-" r => (true, r)
    | String "+" r => (false, r)
    | _ => (false, s1)
    end in
  let '(radix, s3) :=
    if negb radix10 && has_hex_prefix s2
    then (16, substring1 (substring1 s2))
    else (10, s2) in
  match fst (read_digits radix None s3) with
  | Some n => Some (if neg then - n else n)
  | None => None
  end.

(** [parseInt] converts its argument to a string first and reads that
    string: a number below 1e21 in absolute value reads back as itself
    (lemma [parseInt_number] below), a larger one as the digit before
    the point of its exponent form. *)
Definition parseInt (radix10 : bool) (v : jsval) : option Z :=
  parseInt_string radix10 (toString v).

Definition of_number (n : option Z) : jsval :=
  match n with
  | Some z => JNum z
  | None => JNaN
  end.

(** [StringToNumber] on integer literals (decimal with optional sign,
    or hexadecimal); the empty string is 0. *)
Definition string_to_number (s : string) : option Z :=
  let t := trim s in
  if (t =? "")%string then Some 0
  else if has_hex_prefix t then
    match read_digits 16 None (substring1 (substring1 t)) with
    | (Some n, EmptyString) => Some n
    | _ => None
    end
  else
    let '(neg, u) :=
      match t with
      | String "-" r => (true, r)
      | String "+" r => (false, r)
      | _ => (false, t)
      end in
    match read_digits 10 None u with
    | (Some n, EmptyString) => Some (if neg then - n else n)
    | _ => None
    end.

Definition to_number (v : jsval) : option Z :=
  match v with
  | JUndefined => None
  | JNull => Some 0
  | JBool b => Some (if b then 1 else 0)
  | JNum z => Some z
  | JNaN => None
  | JStr s => string_to_number s
  | JProto _ => None
  end.

(** Binary [+]: string concatenation as soon as one operand is a string
    (or an object, whose primitive is a string), numeric addition
    otherwise. *)
Definition js_add (a b : jsval) : jsval :=
  match a, b with
  | JStr _, _ | _, JStr _ | JProto _, _ | _, JProto _ =>
      JStr (toString a ++ toString b)
  | _, _ =>
      match to_number a, to_number b with
      | Some x, Some y => JNum (x + y)
      | _, _ => JNaN
      end
  end.

(** 32-bit integer operators. *)
Definition toInt32 (z : Z) : Z := (z + 2 ^ 31) mod 2 ^ 32 - 2 ^ 31.

Definition to_int32 (v : jsval) : Z :=
  match to_number v with
  | Some z => toInt32 z
  | None => 0
  end.

Definition js_and (a b : jsval) : Z := Z.land (to_int32 a) (to_int32 b).
Definition js_bor (a b : jsval) : Z := Z.lor (to_int32 a) (to_int32 b).
Definition js_shl (a : jsval) (n : Z) : Z :=
  toInt32 (Z.shiftl (to_int32 a) (n mod 32)).
Definition js_shr (a : jsval) (n : Z) : Z :=
  Z.shiftr (to_int32 a) (n mod 32).

(** [arr[i]] on an array of numbers: [undefined] out of range. *)
Definition index (arr : list Z) (i : nat) : jsval :=
  match nth_error arr i with
  | Some z => JNum z
  | None => JUndefined
  end.

(** [a > b] on two values that are numbers or [undefined]. *)
Definition js_gt (a b : jsval) : bool :=
  match to_number a, to_number b with
  | Some x, Some y => x >? y
  | _, _ => false
  end.

(** *** Property lookup on an object literal used as a table *)

Definition object_prototype_members : list string :=
  [ "constructor"; "toString"; "toLocaleString"; "valueOf";
    "hasOwnProperty"; "isPrototypeOf"; "propertyIsEnumerable";
    "__proto__"; "__defineGetter__"; "__defineSetter__";
    "__lookupGetter__"; "__lookupSetter__" ].

Fixpoint own_property (table : list (string * Z)) (key : string) : option Z :=
  match table with
  | [] => None
  | (k, v) :: rest => if (k =? key)%string then Some v else own_property rest key
  end.

(** [table[key]]: the key is converted to a string; own properties come
    first, then the prototype chain. *)
Definition get_property (table : list (string * Z)) (key : jsval) : jsval :=
  let k := toString key in
  match own_property table k with
  | Some v => JNum v
  | None =>
      if existsb (String.eqb k) object_prototype_members
      then JProto k
      else JUndefined
  end.

End JS.
Import JS.

(* ================================================================== *)
(** ** Data model                                                      *)
(* ================================================================== *)

(** The request object handed to [sendMIDI] (a parsed JSON body, or the
    object built by a MIDI trigger).  Absent properties are [JUndefined]. *)
Module MidiObj.
Record t : Type := mk {
  midiport : jsval;
  midicommand : jsval;
  channel : jsval;
  note : jsval;
  velocity : jsval;
  controller : jsval;
  value : jsval;
  message : jsval;
  deviceid : jsval;
  commandformat : jsval;
  command : jsval;
  cue : jsval;
  cuelist : jsval;
  cuepath : jsval
}.
End MidiObj.

(** The [midiData] object built by [receiveMIDI] (or by [parseMSC]). *)
Module MidiData.
Record t : Type := mk {
  channel : jsval;
  raw : list Z;
  note : jsval;
  velocity : jsval;
  controller : jsval;
  value : jsval;
  message : option (list Z);
  deviceid : jsval;
  commandformat : jsval;
  command : jsval
}.

Definition set_note_velocity (d : t) (n v : jsval) : t :=
  mk (channel d) (raw d) n v (controller d) (value d) (message d)
     (deviceid d) (commandformat d) (command d).

Definition set_controller_value (d : t) (c v : jsval) : t :=
  mk (channel d) (raw d) (note d) (velocity d) c v (message d)
     (deviceid d) (commandformat d) (command d).

Definition set_value (d : t) (v : jsval) : t :=
  mk (channel d) (raw d) (note d) (velocity d) (controller d) v (message d)
     (deviceid d) (commandformat d) (command d).

Definition set_message (d : t) (m : list Z) : t :=
  mk (channel d) (raw d) (note d) (velocity d) (controller d) (value d)
     (Some m) (deviceid d) (commandformat d) (command d).
End MidiData.

(** A trigger as stored in the configuration. *)
Module Trigger.
Record t : Type := mk {
  id : jsval;
  midicommand : jsval;
  midiport : jsval;
  channel : jsval;
  note : jsval;
  velocity : jsval;
  controller : jsval;
  value : jsval;
  actiontype : jsval;
  url : jsval;
  method : jsval;
  jsondata : jsval;
  outputport : jsval;
  outputcommand : jsval;
  outputchannel : jsval;
  outputnote : jsval;
  outputvelocity : jsval;
  outputcontroller : jsval;
  outputvalue : jsval
}.
End Trigger.

(** The [data] argument of [addToLog]. *)
Inductive logdata : Type :=
| DataMidiObj (o : MidiObj.t)
| DataMidiData (d : MidiData.t)
| DataFields (fields : list (string * jsval)).

Record LogEntry : Type := mkLogEntry {
  timestamp : Z;
  direction : string;
  port : jsval;
  command : jsval;
  data : logdata
}.

(** Outcome of [fetch] followed by [response.text()]. *)
Inductive fetch_outcome : Type :=
| Response (ok : bool) (status : Z) (body : string)
| Rejected (name : string) (message : string) (cause_code : option string).

(** What [sendMIDI] passes to its callback. *)
Inductive send_result : Type :=
| InvalidMidiCommand
| MidiSentSuccessfully (midiObj : MidiObj.t) (message : list jsval)
| SendError (error : string).

(** Calls that leave the engine.  [OutputSend] is the call of [send] on
    an output port; whether the port accepts the message is the port's
    answer ([output_send] below). *)
Inductive effect : Type :=
| ConsoleLog (args : list jsval)
| ConsoleWarn (args : list jsval)
| ConsoleError (args : list jsval)
| SendLog (entry : LogEntry)
| SendMIDIBack (port : string) (type : string) (midiData : MidiData.t)
| OutputSend (port : jsval) (message : list jsval)
| Fetch (url : jsval) (method : string) (body : option jsval)
| UnhandledRejection (e : string).

(** The collaborators of the engine. *)
Record env : Type := mkEnv {
  JZZ : option string;                   (* [Some e]: JZZ() rejects with e *)
  openMidiOut : jsval -> option string;  (* [Some e]: the port cannot be opened *)
  output_send : jsval -> list jsval -> option string;
                                         (* [Some e]: the port refuses the
                                            message and [send] throws e *)
  httpTimeout : jsval;                   (* config.get('httpTimeout') *)
  JSON_parse : jsval -> option string;   (* [Some e]: SyntaxError e *)
  fetch : jsval -> string -> option jsval -> fetch_outcome
}.

(** The mutable globals of the engine, the clock, and the calls made. *)
Record world : Type := mkWorld {
  MIDIRelaysLog : list LogEntry;
  MIDI_TRIGGERS : list Trigger.t;
  jzzEngine : bool;     (* has the JZZ engine been started *)
  openOutputs : list jsval;
  sendLog : bool;       (* is global.sendLog installed *)
  sendMIDIBack : bool;  (* is global.sendMIDIBack installed *)
  now : Z;              (* new Date() *)
  trace : list effect
}.

Definition set_log (w : world) (l : list LogEntry) : world :=
  mkWorld l (MIDI_TRIGGERS w) (jzzEngine w) (openOutputs w) (sendLog w)
          (sendMIDIBack w) (now w) (trace w).

Definition set_jzzEngine (w : world) (b : bool) : world :=
  mkWorld (MIDIRelaysLog w) (MIDI_TRIGGERS w) b (openOutputs w) (sendLog w)
          (sendMIDIBack w) (now w) (trace w).

Definition set_openOutputs (w : world) (o : list jsval) : world :=
  mkWorld (MIDIRelaysLog w) (MIDI_TRIGGERS w) (jzzEngine w) o (sendLog w)
          (sendMIDIBack w) (now w) (trace w).

Definition set_now (w : world) (t : Z) : world :=
  mkWorld (MIDIRelaysLog w) (MIDI_TRIGGERS w) (jzzEngine w) (openOutputs w)
          (sendLog w) (sendMIDIBack w) t (trace w).

Definition add_effect (w : world) (e : effect) : world :=
  mkWorld (MIDIRelaysLog w) (MIDI_TRIGGERS w) (jzzEngine w) (openOutputs w)
          (sendLog w) (sendMIDIBack w) (now w) (trace w ++ [e])%list.

(** *** State and exceptions *)

Definition M (A : Type) : Type := world -> result A * world.

Definition ret {A} (a : A) : M A := fun w => (Ok a, w).

Definition throw {A} (e : string) : M A := fun w => (Throw e, w).

Definition bind {A B} (m : M A) (k : A -> M B) : M B :=
  fun w =>
    match m w with
    | (Ok a, w') => k a w'
    | (Throw e, w') => (Throw e, w')
    end.

Definition try_catch {A} (m : M A) (handler : string -> M A) : M A :=
  fun w =>
    match m w with
    | (Ok a, w') => (Ok a, w')
    | (Throw e, w') => handler e w'
    end.

Definition lift {A} (r : result A) : M A := fun w => (r, w).

Definition emit (e : effect) : M unit := fun w => (Ok tt, add_effect w e).

Definition get {A} (f : world -> A) : M A := fun w => (Ok (f w), w).

Definition modify (f : world -> world) : M unit := fun w => (Ok tt, f w).

(** Calling an [async] function without awaiting it: an error inside
    rejects the returned promise and never reaches the caller. *)
Definition async_call (m : M unit) : M unit :=
  fun w =>
    match m w with
    | (Ok _, w') => (Ok tt, w')
    | (Throw e, w') => (Ok tt, add_effect w' (UnhandledRejection e))
    end.

Notation "x <- m ;; k" := (bind m (fun x => k))
  (at level 61, m at next level, right associativity).
Notation "m ;; k" := (bind m (fun _ => k))
  (at level 61, right associativity).

(* ================================================================== *)
(** ** Logging                                                         *)
(* ================================================================== *)

(** [push] followed by the guarded [shift]. *)
Definition push_shift (log : list LogEntry) (logEntry : LogEntry)
  : list LogEntry :=
  let pushed := (log ++ [logEntry])%list in
  if Z.of_nat (List.length pushed) >? 500 then tl pushed else pushed.

Definition addToLog (direction : string) (port command : jsval)
  (data : logdata) : M unit :=
  fun w =>
    let logEntry := mkLogEntry (now w) direction port command data in
    let w1 := set_log w (push_shift (MIDIRelaysLog w) logEntry) in
    if sendLog w1
    then (Ok tt, add_effect w1 (SendLog logEntry))
    else (Ok tt, w1).

(* ================================================================== *)
(** ** MSC (MIDI Show Control)                                         *)
(* ================================================================== *)

Definition parseStringDeviceId (deviceId : jsval) : result Z :=
  if is_str deviceId "all" then Ok 0x7f
  else
    match deviceId with
    | JStr s =>
        if startsWith "g" s then
          match parseInt false (JStr (substring1 s)) with
          | Some group =>
              if (group >=? 1) && (group <=? 15)
              then Ok (0x70 + (group - 1))
              else Ok 0x7f
          | None => Ok 0x7f
          end
        else Ok 0x7f
    | _ => Throw "TypeError"   (* no [startsWith] on a non-string *)
    end.

Definition parseIntegerDeviceId (deviceId : Z) : Z :=
  if (deviceId >=? 0) && (deviceId <=? 111) then deviceId else 0x7f.

(** The expression guarded by the [try] of [BuildMSC]. *)
Definition deviceId_hex (deviceId : jsval) : result Z :=
  match parseInt false deviceId with
  | None => parseStringDeviceId deviceId
  | Some n => Ok (parseIntegerDeviceId n)
  end.

Fixpoint char_codes (s : string) : list jsval :=
  match s with
  | EmptyString => []
  | String c r => JNum (code c) :: char_codes r
  end.

Definition stringToMSCData (str : jsval) : result (list jsval) :=
  match str with
  | JStr s => Ok (char_codes s)
  | _ => Throw "TypeError"     (* no [split] on a non-string *)
  end.

Definition formatMap : list (string * Z) :=
  [ ("lighting.general", 0x01);
    ("sound.general", 0x10);
    ("machinery.general", 0x20);
    ("video.general", 0x30);
    ("projection.general", 0x40);
    ("processcontrol.general", 0x50);
    ("pyro.general", 0x60) ].

Definition commandMap : list (string * Z) :=
  [ ("go", 0x01);
    ("stop", 0x02);
    ("resume", 0x03);
    ("timedgo", 0x04);
    ("load", 0x05);
    ("set", 0x06);
    ("fire", 0x07);
    ("alloff", 0x08);
    ("restore", 0x09);
    ("reset", 0x0a);
    ("gooff", 0x0b);
    ("gojam", 0x10) ].

Definition BuildMSC (deviceId commandFormat command cue cueList cuePath : jsval)
  : M (list jsval) :=
  match deviceId_hex deviceId with
  | Throw err =>
      emit (ConsoleWarn [JStr "Error parsing MSC deviceId:"; JStr err]) ;;
      ret []
  | Ok deviceId_hex =>
      let commandFormat_hex := js_or (get_property formatMap commandFormat) (JNum 0x7f) in
      let command_hex := js_or (get_property commandMap command) (JNum 0x01) in
      let msg := [JNum 0xf0; JNum 0x7f; JNum deviceId_hex; JNum 0x02;
                  commandFormat_hex; command_hex] in
      msg <- (if truthy cue
              then lift (do cueBytes <- stringToMSCData cue; Ok (msg ++ cueBytes)%list)
              else ret msg) ;;
      msg <- (if truthy cueList
              then lift (do listBytes <- stringToMSCData cueList;
                         Ok (msg ++ [JNum 0x00] ++ listBytes)%list)
              else ret msg) ;;
      msg <- (if truthy cuePath
              then lift (do pathBytes <- stringToMSCData cuePath;
                         Ok (msg ++ [JNum 0x00] ++ pathBytes)%list)
              else ret msg) ;;
      ret (msg ++ [JNum 0xf7])%list
  end.

Definition parseMSC (message : list Z) : MidiData.t :=
  MidiData.mk JUndefined message JUndefined JUndefined JUndefined JUndefined
    None (index message 2) (index message 4) (index message 5).

(* ================================================================== *)
(** ** MIDI sending                                                    *)
(* ================================================================== *)

(** The [switch] of [sendMIDI]: the bytes to send, or [None] when the
    command is not recognised (the [default] branch, which reports
    ['invalid-midi-command'] and returns). *)
Definition sendMIDI_message (midiObj : MidiObj.t) : M (option (list jsval)) :=
  cmd <- lift (toLowerCase (MidiObj.midicommand midiObj)) ;;
  if (cmd =? "noteon")%string then
    ret (Some [js_add (JNum 0x90) (MidiObj.channel midiObj);
               MidiObj.note midiObj;
               js_or (MidiObj.velocity midiObj) (JNum 127)])
  else if (cmd =? "noteoff")%string then
    ret (Some [js_add (JNum 0x80) (MidiObj.channel midiObj);
               MidiObj.note midiObj;
               js_or (MidiObj.velocity midiObj) (JNum 0)])
  else if (cmd =? "cc")%string then
    ret (Some [js_add (JNum 0xb0) (MidiObj.channel midiObj);
               MidiObj.controller midiObj;
               MidiObj.value midiObj])
  else if (cmd =? "pc")%string then
    ret (Some [js_add (JNum 0xc0) (MidiObj.channel midiObj);
               MidiObj.value midiObj])
  else if (cmd =? "pressure")%string then
    ret (Some [js_add (JNum 0xd0) (MidiObj.channel midiObj);
               MidiObj.value midiObj])
  else if (cmd =? "pitchbend")%string then
    let lsb := js_and (MidiObj.value midiObj) (JNum 0x7f) in
    let msb := Z.land (js_shr (MidiObj.value midiObj) 7) 0x7f in
    ret (Some [js_add (JNum 0xe0) (MidiObj.channel midiObj); JNum lsb; JNum msb])
  else if (cmd =? "sysex")%string then
    match MidiObj.message midiObj with
    | JStr s =>
        ret (Some (map (fun v => of_number (parseInt false (JStr (trim v))))
                       (split_comma s)))
    | _ => throw "TypeError"   (* no [split] on a non-string *)
    end
  else if (cmd =? "msc")%string then
    message <- BuildMSC (MidiObj.deviceid midiObj) (MidiObj.commandformat midiObj)
                 (MidiObj.command midiObj) (MidiObj.cue midiObj)
                 (MidiObj.cuelist midiObj) (MidiObj.cuepath midiObj) ;;
    ret (Some message)
  else ret None.

Section Engine.

Variable E : env.

(** [initEngine()]: the engine is started on the first call and kept;
    a failed start is reported on the console and raised again. *)
Definition initEngine : M unit :=
  running <- get jzzEngine ;;
  if running then ret tt
  else
    try_catch
      (match JZZ E with Some e => throw e | None => ret tt end ;;
       modify (fun w => set_jzzEngine w true) ;;
       emit (ConsoleLog [JStr "JZZ MIDI engine initialized"]))
      (fun error =>
         emit (ConsoleError [JStr "Failed to initialize JZZ MIDI engine:";
                             JStr error]) ;;
         throw error).

(** [openOutputs.get(port)], opening and caching the port when absent. *)
Definition get_output (midiport : jsval) : M unit :=
  fun w =>
    if existsb (strict_eq midiport) (openOutputs w) then (Ok tt, w)
    else
      match openMidiOut E midiport with
      | Some e => (Throw e, w)
      | None => (Ok tt, set_openOutputs w (openOutputs w ++ [midiport])%list)
      end.

Definition sendMIDI (midiObj : MidiObj.t) (callback : send_result -> M unit)
  : M unit :=
  try_catch
    (initEngine ;;
     get_output (MidiObj.midiport midiObj) ;;
     message <- sendMIDI_message midiObj ;;
     match message with
     | None => callback InvalidMidiCommand
     | Some message =>
         emit (OutputSend (MidiObj.midiport midiObj) message) ;;
         match output_send E (MidiObj.midiport midiObj) message with
         | Some e => throw e
         | None => ret tt
         end ;;
         addToLog "TX" (MidiObj.midiport midiObj) (MidiObj.midicommand midiObj)
                  (DataMidiObj midiObj) ;;
         callback (MidiSentSuccessfully midiObj message)
     end)
    (fun error =>
       emit (ConsoleError [JStr "Error sending MIDI:"; JStr error]) ;;
       callback (SendError error)).

End Engine.

(* ================================================================== *)
(** ** MIDI receiving                                                  *)
(* ================================================================== *)

(** The classification performed by [receiveMIDI]: the final values of
    [midiType] and [midiData]; [None] for the early return on an empty
    message. *)
Definition receiveMIDI_classify (message : list Z)
  : option (string * MidiData.t) :=
  match message with
  | [] => None
  | _ :: _ =>
      let statusByte := index message 0 in
      let channel := js_and statusByte (JNum 0x0f) in
      let command := js_and statusByte (JNum 0xf0) in
      let midiData :=
        MidiData.mk (JNum channel) message JUndefined JUndefined JUndefined
          JUndefined None JUndefined JUndefined JUndefined in
      Some
        (if command =? 0x90 then
           (if js_gt (index message 2) (JNum 0) then "noteon" else "noteoff",
            MidiData.set_note_velocity midiData (index message 1) (index message 2))
         else if command =? 0x80 then
           ("noteoff",
            MidiData.set_note_velocity midiData (index message 1) (index message 2))
         else if command =? 0xb0 then
           ("cc",
            MidiData.set_controller_value midiData (index message 1) (index message 2))
         else if command =? 0xc0 then
           ("pc", MidiData.set_value midiData (index message 1))
         else if command =? 0xd0 then
           ("pressure", MidiData.set_value midiData (index message 1))
         else if command =? 0xe0 then
           ("pitchbend",
            MidiData.set_value midiData
              (JNum (Z.lor (to_int32 (index message 1))
                           (js_shl (index message 2) 7))))
         else if command =? 0xf0 then
           if strict_eq statusByte (JNum 0xf0) then
             if (Z.of_nat (List.length message) >=? 5)
                && strict_eq (index message 1) (JNum 0x7f)
                && strict_eq (index message 3) (JNum 0x02)
             then ("msc", parseMSC message)
             else ("sysex", MidiData.set_message midiData message)
           else ("", midiData)
         else ("unknown", midiData))
  end.

(* ================================================================== *)
(** ** Triggers                                                        *)
(* ================================================================== *)

Definition matchesTrigger (trigger : Trigger.t) (portName midiType : string)
  (midiData : MidiData.t) : result bool :=
  do cmd <- toLowerCase (Trigger.midicommand trigger);
  (* Check MIDI command type *)
  if negb (cmd =? midiType)%string then Ok false
  (* Check port if specified *)
  else if truthy (Trigger.midiport trigger)
          && negb (is_str (Trigger.midiport trigger) "*")
          && negb (strict_eq (Trigger.midiport trigger) (JStr portName))
  then Ok false
  (* Check channel (if applicable) *)
  else if negb (strict_eq (Trigger.channel trigger) JUndefined)
          && negb (is_str (Trigger.channel trigger) "*")
          && negb (strict_eq (of_number (parseInt false (Trigger.channel trigger)))
                             (MidiData.channel midiData))
  then Ok false
  (* Check note (for note on/off) *)
  else if ((midiType =? "noteon")%string || (midiType =? "noteoff")%string)
          && negb (strict_eq (Trigger.note trigger) JUndefined)
          && (negb (is_str (Trigger.note trigger) "*")
              && negb (strict_eq (of_number (parseInt false (Trigger.note trigger)))
                                 (MidiData.note midiData)))
  then Ok false
  (* Check velocity (optional) *)
  else if negb (strict_eq (Trigger.velocity trigger) JUndefined)
          && negb (is_str (Trigger.velocity trigger) "*")
          && negb (strict_eq (of_number (parseInt false (Trigger.velocity trigger)))
                             (MidiData.velocity midiData))
  then Ok false
  (* Check controller (for CC) *)
  else if (midiType =? "cc")%string
          && negb (strict_eq (Trigger.controller trigger) JUndefined)
          && (negb (is_str (Trigger.controller trigger) "*")
              && negb (strict_eq (of_number (parseInt false (Trigger.controller trigger)))
                                 (MidiData.controller midiData)))
  then Ok false
  (* Check value (for CC, PC, etc.) *)
  else if negb (strict_eq (Trigger.value trigger) JUndefined)
          && negb (is_str (Trigger.value trigger) "*")
          && negb (strict_eq (of_number (parseInt false (Trigger.value trigger)))
                             (MidiData.value midiData))
  then Ok false
  else Ok true.

(** The [midiObj] literal of [runMIDITrigger_MIDI]. *)
Definition triggerMidiObj (trigger : Trigger.t) : MidiObj.t :=
  MidiObj.mk
    (Trigger.outputport trigger)
    (js_or (Trigger.outputcommand trigger) (Trigger.midicommand trigger))
    (js_coalesce (Trigger.outputchannel trigger) (Trigger.channel trigger))
    (js_coalesce (Trigger.outputnote trigger) (Trigger.note trigger))
    (js_coalesce (Trigger.outputvelocity trigger) (Trigger.velocity trigger))
    (js_coalesce (Trigger.outputcontroller trigger) (Trigger.controller trigger))
    (js_coalesce (Trigger.outputvalue trigger) (Trigger.value trigger))
    JUndefined JUndefined JUndefined JUndefined JUndefined JUndefined JUndefined.

Section Dispatch.

Variable E : env.

Definition allowedMethods : list string :=
  ["GET"; "POST"; "PUT"; "PATCH"; "DELETE"].

(** The [try { fetch ... } catch] block of [runMIDITrigger_HTTP].  The
    abort timer is part of the collaborator: an expired timer shows as a
    rejection named [AbortError]. *)
Definition fetch_and_log (midiTriggerObj : Trigger.t) (method : string)
  (timeoutMs : jsval) (body : option jsval) : M unit :=
  let tag := JStr ("HTTP " ++ method) in
  emit (Fetch (Trigger.url midiTriggerObj) method body) ;;
  match fetch E (Trigger.url midiTriggerObj) method body with
  | Response ok status responseBody =>
      if ok then
        emit (ConsoleLog [JStr responseBody]) ;;
        addToLog "TRIGGER" tag (Trigger.url midiTriggerObj)
                 (DataFields [("status", JNum status)])
      else
        emit (ConsoleLog [JNum status]) ;;
        emit (ConsoleLog [JStr responseBody]) ;;
        addToLog "APP-ERR" tag (Trigger.url midiTriggerObj)
                 (DataFields [("error", JStr "Status Error"); ("status", JNum status)])
  | Rejected name message cause_code =>
      let errorMsg :=
        if (name =? "AbortError")%string then
          "Timeout after " ++ toString timeoutMs ++ "ms - server not responding"
        else
          match cause_code with
          | Some c =>
              if (c =? "ECONNREFUSED")%string
              then "Connection refused - server not running on that port"
              else if (c =? "ENOTFOUND")%string
              then "Host not found - check hostname/IP"
              else message
          | None => message
          end in
      emit (ConsoleLog [JStr ("HTTP Trigger Error: " ++ errorMsg)]) ;;
      addToLog "APP-ERR" tag (Trigger.url midiTriggerObj)
               (DataFields [("error", JStr errorMsg); ("status", JStr "N/A")])
  end.

Definition runMIDITrigger_HTTP (midiTriggerObj : Trigger.t) : M unit :=
  let fallback := if truthy (Trigger.jsondata midiTriggerObj) then "POST" else "GET" in
  let explicitMethod :=
    upper (trim (toString (js_or (Trigger.method midiTriggerObj) (JStr "")))) in
  let method := if (explicitMethod =? "")%string then fallback else explicitMethod in
  let method := if negb (has allowedMethods method) then fallback else method in
  let timeoutMs := js_or (httpTimeout E) (JNum 5000) in
  if truthy (Trigger.jsondata midiTriggerObj) then
    match JSON_parse E (Trigger.jsondata midiTriggerObj) with
    | Some error =>
        emit (ConsoleLog [JStr error]) ;;
        addToLog "APP-ERR" (JStr ("HTTP " ++ method)) (Trigger.url midiTriggerObj)
                 (DataFields [("error", JStr ("Invalid JSON: " ++ error))])
    | None =>
        fetch_and_log midiTriggerObj method timeoutMs
                      (Some (Trigger.jsondata midiTriggerObj))
    end
  else if has ["POST"; "PUT"; "PATCH"] method then
    fetch_and_log midiTriggerObj method timeoutMs (Some (JStr "{}"))
  else
    fetch_and_log midiTriggerObj method timeoutMs None.

Definition runMIDITrigger_MIDI (trigger : Trigger.t) : M unit :=
  let midiObj := triggerMidiObj trigger in
  async_call
    (sendMIDI E midiObj
       (fun result =>
          match result with
          | MidiSentSuccessfully _ _ =>
              addToLog "TRIGGER" (JStr "MIDI") (Trigger.outputport trigger)
                       (DataMidiObj midiObj)
          | SendError error =>
              addToLog "APP-ERR" (JStr "MIDI Trigger") (Trigger.outputport trigger)
                       (DataFields [("error", js_or (JStr error) (JStr "error"))])
          | InvalidMidiCommand =>
              addToLog "APP-ERR" (JStr "MIDI Trigger") (Trigger.outputport trigger)
                       (DataFields [("error", JStr "invalid-midi-command")])
          end)).

Definition executeTrigger (trigger : Trigger.t) (midiData : MidiData.t) : M unit :=
  emit (ConsoleLog [JStr "Executing trigger:"; Trigger.id trigger]) ;;
  if is_str (Trigger.actiontype trigger) "http" then
    runMIDITrigger_HTTP trigger
  else if is_str (Trigger.actiontype trigger) "midi" then
    runMIDITrigger_MIDI trigger
  else
    emit (ConsoleWarn [JStr "Unknown trigger action type:"; Trigger.actiontype trigger]).

Fixpoint processMIDITriggers_loop (triggers : list Trigger.t)
  (portName midiType : string) (midiData : MidiData.t) : M unit :=
  match triggers with
  | [] => ret tt
  | trigger :: rest =>
      b <- lift (matchesTrigger trigger portName midiType midiData) ;;
      (if b then async_call (executeTrigger trigger midiData) else ret tt) ;;
      processMIDITriggers_loop rest portName midiType midiData
  end.

Definition processMIDITriggers (portName midiType : string)
  (midiData : MidiData.t) : M unit :=
  triggers <- get MIDI_TRIGGERS ;;
  processMIDITriggers_loop triggers portName midiType midiData.

Definition receiveMIDI (portName : string) (message : list Z) : M unit :=
  match receiveMIDI_classify message with
  | None => ret tt
  | Some (midiType, midiData) =>
      if negb (midiType =? "")%string && negb (midiType =? "unknown")%string then
        addToLog "RX" (JStr portName) (JStr midiType) (DataMidiData midiData) ;;
        back <- get sendMIDIBack ;;
        (if back then emit (SendMIDIBack portName midiType midiData) else ret tt) ;;
        processMIDITriggers portName midiType midiData
      else ret tt
  end.

End Dispatch.

(* ================================================================== *)
(** ** Validation                                                      *)
(* ================================================================== *)

Record limits : Type := mkLimits { min : Z; max : Z; name : string }.

Definition MIDI_LIMITS : list (string * limits) :=
  [ ("channel", mkLimits 0 15 "Channel");
    ("note", mkLimits 0 127 "Note");
    ("velocity", mkLimits 0 127 "Velocity");
    ("value", mkLimits 0 127 "Value");
    ("controller", mkLimits 0 127 "Controller");
    ("program", mkLimits 0 127 "Program");
    ("pitchbend", mkLimits 0 16383 "Pitch Bend") ].

Definition VALID_MIDI_COMMANDS : list string :=
  ["noteon"; "noteoff"; "cc"; "pc"; "pressure"; "pitchbend"; "sysex"; "msc"].

Fixpoint own_limits (table : list (string * limits)) (key : string)
  : option limits :=
  match table with
  | [] => None
  | (k, v) :: rest => if (k =? key)%string then Some v else own_limits rest key
  end.

Inductive value_result : Type :=
| ValueOk (value : jsval)
| ValueError (error : string).

Definition valid (r : value_result) : bool :=
  match r with
  | ValueOk _ => true
  | ValueError _ => false
  end.

(** [validateMIDIValue(paramName, value, allowWildcard = false)].  A
    [paramName] that names a member of [Object.prototype] finds that
    member instead of a limits record: its [min] and [max] are
    [undefined], so both comparisons are false. *)
Definition validateMIDIValue (paramName : string) (value : jsval)
  (allowWildcard : bool) : value_result :=
  if allowWildcard && is_str value "*" then ValueOk (JStr "*")
  else
    match own_limits MIDI_LIMITS paramName with
    | Some limits =>
        match parseInt true value with
        | None =>
            ValueError (name limits ++ " must be a number, got: " ++ toString value)
        | Some num =>
            if (num <? min limits) || (num >? max limits) then
              ValueError (name limits ++ " must be "
                          ++ number_to_string (min limits) ++ "-"
                          ++ number_to_string (max limits)
                          ++ ", got: " ++ number_to_string num)
            else ValueOk (JNum num)
        end
    | None =>
        if has object_prototype_members paramName then
          let fname :=
            if (paramName =? "constructor")%string then "Object"
            else if (paramName =? "__proto__")%string then "undefined"
            else paramName in
          match parseInt true value with
          | None => ValueError (fname ++ " must be a number, got: " ++ toString value)
          | Some num => ValueOk (JNum num)
          end
        else ValueError ("Unknown MIDI parameter: " ++ paramName)
    end.

Inductive validation : Type :=
| Valid
| Invalid (errors : list string).

Definition finish (errors : list string) : validation :=
  if Z.of_nat (List.length errors) >? 0 then Invalid errors else Valid.

(** [v === undefined || v === null || v === ''] *)
Definition blank (v : jsval) : bool :=
  strict_eq v JUndefined || strict_eq v JNull || is_str v "".

(** One required, range-checked field of [validateMIDIObject]. *)
Definition required_field (field paramName command : string) (v : jsval)
  : list string :=
  if blank v then [field ++ " is required for " ++ command]
  else
    match validateMIDIValue paramName v false with
    | ValueOk _ => []
    | ValueError error => [error]
    end.

Definition error_of (r : value_result) : list string :=
  match r with
  | ValueOk _ => []
  | ValueError error => [error]
  end.

Fixpoint join (sep : string) (l : list string) : string :=
  match l with
  | [] => ""
  | [x] => x
  | x :: rest => x ++ sep ++ join sep rest
  end.

Definition validateMIDIObject (midiObj : option MidiObj.t) : result validation :=
  match midiObj with
  | None => Ok (Invalid ["MIDI object is required"])
  | Some midiObj =>
      do e_command <-
        (if negb (truthy (MidiObj.midicommand midiObj)) then
           Ok ["midicommand is required"]
         else
           do lc <- toLowerCase (MidiObj.midicommand midiObj);
           if negb (has VALID_MIDI_COMMANDS lc) then
             Ok ["Invalid midicommand: " ++ toString (MidiObj.midicommand midiObj)
                 ++ ". Valid commands: " ++ join ", " VALID_MIDI_COMMANDS]
           else Ok []);
      let e_port :=
        if negb (truthy (MidiObj.midiport midiObj))
        then ["midiport is required"] else [] in
      do command <- toLowerCase (js_or (MidiObj.midicommand midiObj) (JStr ""));
      let e_channel :=
        if has ["noteon"; "noteoff"; "cc"; "pc"; "pressure"; "pitchbend"] command
        then required_field "channel" "channel" command (MidiObj.channel midiObj)
        else [] in
      let e_note :=
        if has ["noteon"; "noteoff"] command
        then required_field "note" "note" command (MidiObj.note midiObj)
        else [] in
      let e_velocity :=
        if has ["noteon"; "noteoff"] command
           && negb (strict_eq (MidiObj.velocity midiObj) JUndefined)
        then error_of (validateMIDIValue "velocity" (MidiObj.velocity midiObj) false)
        else [] in
      let e_controller :=
        if (command =? "cc")%string
        then required_field "controller" "controller" "cc" (MidiObj.controller midiObj)
        else [] in
      let e_value :=
        if has ["cc"; "pc"; "pressure"] command
        then required_field "value" "value" command (MidiObj.value midiObj)
        else [] in
      let e_pitchbend :=
        if (command =? "pitchbend")%string
        then required_field "value" "pitchbend" "pitchbend" (MidiObj.value midiObj)
        else [] in
      Ok (finish (e_command ++ e_port ++ e_channel ++ e_note ++ e_velocity
                  ++ e_controller ++ e_value ++ e_pitchbend)%list)
  end.

Definition validateTriggerObject (triggerObj : option Trigger.t)
  : result validation :=
  match triggerObj with
  | None => Ok (Invalid ["Trigger object is required"])
  | Some triggerObj =>
      do e_command <-
        (if negb (truthy (Trigger.midicommand triggerObj)) then
           Ok ["midicommand is required"]
         else
           do lc <- toLowerCase (Trigger.midicommand triggerObj);
           if negb (has VALID_MIDI_COMMANDS lc) then
             Ok ["Invalid midicommand: " ++ toString (Trigger.midicommand triggerObj)]
           else Ok []);
      do command <- toLowerCase (js_or (Trigger.midicommand triggerObj) (JStr ""));
      (* Validate channel (allow wildcards for triggers) *)
      let e_channel :=
        if has ["noteon"; "noteoff"; "cc"; "pc"; "pressure"; "pitchbend"] command
           && (negb (strict_eq (Trigger.channel triggerObj) JUndefined)
               && negb (is_str (Trigger.channel triggerObj) "*"))
        then error_of (validateMIDIValue "channel" (Trigger.channel triggerObj) false)
        else [] in
      (* Validate note *)
      let e_note :=
        if has ["noteon"; "noteoff"] command
           && negb (strict_eq (Trigger.note triggerObj) JUndefined)
           && negb (is_str (Trigger.note triggerObj) "*")
        then error_of (validateMIDIValue "note" (Trigger.note triggerObj) false)
        else [] in
      (* Validate action type *)
      let e_actiontype :=
        if negb (truthy (Trigger.actiontype triggerObj)) then
          ["actiontype is required"]
        else if negb (includes ["http"; "midi"] (Trigger.actiontype triggerObj)) then
          ["Invalid actiontype: " ++ toString (Trigger.actiontype triggerObj)
           ++ ". Valid types: http, midi"]
        else [] in
      (* HTTP action requires URL *)
      let e_url :=
        if is_str (Trigger.actiontype triggerObj) "http"
           && negb (truthy (Trigger.url triggerObj))
        then ["url is required for http action"] else [] in
      (* MIDI action requires output port *)
      let e_outputport :=
        if is_str (Trigger.actiontype triggerObj) "midi"
           && negb (truthy (Trigger.outputport triggerObj))
        then ["outputport is required for midi action"] else [] in
      Ok (finish (e_command ++ e_channel ++ e_note ++ e_actiontype ++ e_url
                  ++ e_outputport)%list)
  end.

(* ================================================================== *)
(** ** Objects used in the statements                                  *)
(* ================================================================== *)

(** [{midiport, midicommand: 'noteon', channel, note, velocity}] *)
Definition noteon_request (midiport channel note velocity : jsval) : MidiObj.t :=
  MidiObj.mk midiport (JStr "noteon") channel note velocity
    JUndefined JUndefined JUndefined JUndefined JUndefined JUndefined
    JUndefined JUndefined JUndefined.

(** [{midiport, midicommand: 'msc', deviceid, commandformat, command}] *)
Definition msc_request (midiport deviceid commandformat command : jsval)
  : MidiObj.t :=
  MidiObj.mk midiport (JStr "msc") JUndefined JUndefined JUndefined
    JUndefined JUndefined JUndefined deviceid commandformat command
    JUndefined JUndefined JUndefined.

(** [{id, midicommand: 'noteon', channel: '*', note: 60,
      actiontype: 'http', url}] *)
Definition note60_trigger (id url : jsval) : Trigger.t :=
  Trigger.mk id (JStr "noteon") JUndefined (JStr "*") (JNum 60)
    JUndefined JUndefined JUndefined (JStr "http") url
    JUndefined JUndefined JUndefined JUndefined JUndefined JUndefined
    JUndefined JUndefined JUndefined.

(** A trigger that carries match criteria and an action only. *)
Definition plain_trigger (midicommand channel note controller value
  actiontype url outputport : jsval) : Trigger.t :=
  Trigger.mk (JStr "trigger-1") midicommand JUndefined channel note
    JUndefined controller value actiontype url
    JUndefined JUndefined outputport JUndefined JUndefined JUndefined
    JUndefined JUndefined JUndefined.

(** The request that carries the match criteria of a trigger, for the
    comparison of the two validators. *)
Definition criteria_request (midiport : jsval) (t : Trigger.t) : MidiObj.t :=
  MidiObj.mk midiport (Trigger.midicommand t) (Trigger.channel t)
    (Trigger.note t) (Trigger.velocity t) (Trigger.controller t)
    (Trigger.value t)
    JUndefined JUndefined JUndefined JUndefined JUndefined JUndefined
    JUndefined.

Definition idle_world : world := mkWorld [] [] false [] false false 0 [].

Definition quiet_env : env :=
  mkEnv None (fun _ => None) (fun _ _ => None) JUndefined (fun _ => None)
        (fun _ _ _ => Response true 200 "").

(** A computation started when the clock reads [t]. *)
Definition at_time {A} (t : Z) (m : M A) : M A := fun w => m (set_now w t).

(** A sequence of [addToLog] calls, each with the reading of the clock
    at the time of the call. *)
Fixpoint addToLog_all (calls : list (Z * string * jsval * jsval * logdata))
  : M unit :=
  match calls with
  | [] => ret tt
  | (t, direction, port, command, data) :: rest =>
      at_time t (addToLog direction port command data) ;; addToLog_all rest
  end.

(** The entries these calls create. *)
Definition entries_of (calls : list (Z * string * jsval * jsval * logdata))
  : list LogEntry :=
  map (fun '(t, direction, port, command, data) =>
         mkLogEntry t direction port command data) calls.

(** A criterion that passes the range check [lo, hi] of the validator. *)
Definition within (lo hi : Z) (v : jsval) : Prop :=
  exists n, parseInt true v = Some n /\ lo <= n <= hi.

(** A criterion that the trigger validator accepts: absent, the
    wildcard, or within range. *)
Definition criterion_ok (lo hi : Z) (v : jsval) : Prop :=
  v = JUndefined \/ v = JStr "*" \/ within lo hi v.

Definition channel_commands : list string :=
  ["noteon"; "noteoff"; "cc"; "pc"; "pressure"; "pitchbend"].

Definition note_commands : list string := ["noteon"; "noteoff"].

(** [n] calls numbered 1 to [n]. *)
Definition numbered_calls (n : nat)
  : list (Z * string * jsval * jsval * logdata) :=
  map (fun i => (Z.of_nat i, "RX", JStr "Port", JStr "noteon",
                 DataFields [("n", JNum (Z.of_nat i))]))
      (seq 1 n).

(** The calls that dispatch a trigger action. *)
Definition is_dispatch (e : effect) : bool :=
  match e with
  | Fetch _ _ _ => true
  | OutputSend _ _ => true
  | _ => false
  end.

(** The [n] integers from [lo] upwards. *)
Fixpoint zrange (lo : Z) (n : nat) : list Z :=
  match n with
  | O => []
  | S n' => lo :: zrange (lo + 1) n'
  end.

(** The last [n] elements of a list. *)
Definition last_n {A} (n : nat) (l : list A) : list A :=
  skipn (List.length l - n) l.

(* ================================================================== *)
(** ** Trigger CRUD, trigger test and input enable/disable             *)
(* ================================================================== *)

(** The keys of the configuration store these functions read and write
    ([config.get] / [config.set]); [None] is a key never set. *)
Record config : Type := mkConfig {
  triggers : option (list Trigger.t);
  disabledInputs : option (list string)
}.

(** [config.get('triggers') || []] *)
Definition get_triggers (cfg : config) : list Trigger.t :=
  match triggers cfg with
  | Some l => l
  | None => []
  end.

(** [config.get('disabledInputs') || []] *)
Definition get_disabledInputs (cfg : config) : list string :=
  match disabledInputs cfg with
  | Some l => l
  | None => []
  end.

Definition set_triggers (cfg : config) (l : list Trigger.t) : config :=
  mkConfig (Some l) (disabledInputs cfg).

Definition set_disabledInputs (cfg : config) (l : list string) : config :=
  mkConfig (triggers cfg) (Some l).

Definition set_MIDI_TRIGGERS (w : world) (l : list Trigger.t) : world :=
  mkWorld (MIDIRelaysLog w) l (jzzEngine w) (openOutputs w) (sendLog w) (sendMIDIBack w)
          (now w) (trace w).

Definition set_id (t : Trigger.t) (id : jsval) : Trigger.t :=
  Trigger.mk id (Trigger.midicommand t) (Trigger.midiport t)
    (Trigger.channel t) (Trigger.note t) (Trigger.velocity t)
    (Trigger.controller t) (Trigger.value t) (Trigger.actiontype t)
    (Trigger.url t) (Trigger.method t) (Trigger.jsondata t)
    (Trigger.outputport t) (Trigger.outputcommand t)
    (Trigger.outputchannel t) (Trigger.outputnote t)
    (Trigger.outputvelocity t) (Trigger.outputcontroller t)
    (Trigger.outputvalue t).

(** [v.toString(16)] for [v] in 0..15. *)
Definition hex_digit (v : Z) : string :=
  match v with
  | 0 => "0" | 1 => "1" | 2 => "2" | 3 => "3"
  | 4 => "4" | 5 => "5" | 6 => "6" | 7 => "7"
  | 8 => "8" | 9 => "9" | 10 => "a" | 11 => "b"
  | 12 => "c" | 13 => "d" | 14 => "e" | _ => "f"
  end.

(** ['xxxxxxxx'.replace(/[xy]/g, ...)]: each of the eight [x] becomes the
    hexadecimal digit of [(Math.random() * 16) | 0]; [random16 k] is
    that value, in 0..15, at the k-th replacement. *)
Definition uuidv4 (random16 : nat -> Z) : string :=
  concat "" (map (fun k => hex_digit (random16 k)) (seq 0 8)).

Definition addTrigger (random16 : nat -> Z) (triggerObj : Trigger.t)
  (cfg : config) (w : world) : Trigger.t * config * world :=
  let triggerObj := set_id triggerObj (JStr ("trigger-" ++ uuidv4 random16)) in
  let triggers := (get_triggers cfg ++ [triggerObj])%list in
  (triggerObj, set_triggers cfg triggers, set_MIDI_TRIGGERS w triggers).

(** [triggers[index] = triggerObj] at the first index, if any, where the
    predicate of [findIndex] holds. *)
Fixpoint replace_first (p : Trigger.t -> bool) (triggerObj : Trigger.t)
  (l : list Trigger.t) : option (list Trigger.t) :=
  match l with
  | [] => None
  | t :: rest =>
      if p t then Some (triggerObj :: rest)
      else
        match replace_first p triggerObj rest with
        | Some rest' => Some (t :: rest')
        | None => None
        end
  end.

Definition updateTrigger (triggerObj : Trigger.t) (cfg : config) (w : world)
  : bool * config * world :=
  let triggers := get_triggers cfg in
  match replace_first
          (fun t => strict_eq (Trigger.id t) (Trigger.id triggerObj))
          triggerObj triggers with
  | Some triggers => (true, set_triggers cfg triggers, set_MIDI_TRIGGERS w triggers)
  | None => (false, cfg, w)
  end.

Definition deleteTrigger (triggerId : jsval) (cfg : config) (w : world)
  : bool * config * world :=
  let triggers := get_triggers cfg in
  let filtered :=
    filter (fun t => negb (strict_eq (Trigger.id t) triggerId)) triggers in
  if negb (List.length filtered =? List.length triggers)%nat
  then (true, set_triggers cfg filtered, set_MIDI_TRIGGERS w filtered)
  else (false, cfg, w).

(** The object returned by [testTrigger] ([statusText] left out).  The
    method handed to [fetch] is the declared value as [fetch] reads it,
    a string. *)
Inductive test_outcome : Type :=
| TestFailed (error : string)
| TestResponse (success : bool) (status : Z) (body : string).

Section TriggerTest.

Variable E : env.

Definition testTrigger (triggerId : jsval) (cfg : config) : M test_outcome :=
  let triggers := get_triggers cfg in
  match find (fun t => strict_eq (Trigger.id t) triggerId) triggers with
  | None => ret (TestFailed "Trigger not found")
  | Some trigger =>
      if is_str (Trigger.actiontype trigger) "http" then
        let timeoutMs := js_or (httpTimeout E) (JNum 5000) in
        let method :=
          toString
            (js_or (Trigger.method trigger)
               (JStr (if truthy (Trigger.jsondata trigger) then "POST" else "GET"))) in
        let body :=
          if truthy (Trigger.jsondata trigger)
          then Some (Trigger.jsondata trigger) else None in
        emit (Fetch (Trigger.url trigger) method body) ;;
        match fetch E (Trigger.url trigger) method body with
        | Response ok status body =>
            ret (TestResponse ok status (String.substring 0 500 body))
        | Rejected name message _ =>
            if (name =? "AbortError")%string
            then ret (TestFailed ("Timeout after " ++ toString timeoutMs ++ "ms"))
            else ret (TestFailed message)
        end
      else ret (TestFailed "Test not supported for this action type")
  end.

End TriggerTest.

(** The port call made by [toggleInputDisabled]. *)
Inductive port_call : Type :=
| CallClosePort (inputId : string)
| CallOpenPort (inputId : string).

(** [l.splice(index, 1)] at the index found by [indexOf]: the first
    occurrence is removed. *)
Fixpoint remove_first (inputId : string) (l : list string) : list string :=
  match l with
  | [] => []
  | x :: rest =>
      if (x =? inputId)%string then rest else x :: remove_first inputId rest
  end.

Definition toggleInputDisabled (inputId : string) (cfg : config)
  : config * port_call :=
  let disabledInputs := get_disabledInputs cfg in
  if negb (has disabledInputs inputId) then
    (set_disabledInputs cfg (disabledInputs ++ [inputId])%list,
     CallClosePort inputId)
  else
    (set_disabledInputs cfg (remove_first inputId disabledInputs),
     CallOpenPort inputId).

Definition isInputDisabled (inputId : string) (cfg : config) : bool :=
  has (get_disabledInputs cfg) inputId.

(* ================================================================== *)
(** ** More objects used in the statements                             *)
(* ================================================================== *)

(** A channel-voice request with numeric fields. *)
Definition voice_request (midiport : jsval) (midicommand : string)
  (channel note velocity controller value : jsval) : MidiObj.t :=
  MidiObj.mk midiport (JStr midicommand) channel note velocity controller value
    JUndefined JUndefined JUndefined JUndefined JUndefined JUndefined
    JUndefined.

(** The event data of a channel-voice message. *)
Definition voice_data (channel : Z) (raw : list Z)
  (note velocity controller value : jsval) : MidiData.t :=
  MidiData.mk (JNum channel) raw note velocity controller value None
    JUndefined JUndefined JUndefined.

(** The announcement printed by [executeTrigger]. *)
Definition announce (trigger : Trigger.t) : effect :=
  ConsoleLog [JStr "Executing trigger:"; Trigger.id trigger].


Definition is_fetch (e : effect) : bool :=
  match e with
  | Fetch _ _ _ => true
  | _ => false
  end.

Definition is_output_send (e : effect) : bool :=
  match e with
  | OutputSend _ _ => true
  | _ => false
  end.


(** The world once the engine runs: as it is when the engine was
    started before, with the start recorded and announced otherwise. *)
Definition started (w : world) : world :=
  if jzzEngine w then w
  else add_effect (set_jzzEngine w true)
         (ConsoleLog [JStr "JZZ MIDI engine initialized"]).

(** The world once [midiport] is among the open outputs. *)
Definition opened (w : world) (midiport : jsval) : world :=
  if existsb (strict_eq midiport) (openOutputs w) then w
  else set_openOutputs w (openOutputs w ++ [midiport])%list.

(** A computation whose calls to the outside all satisfy [P]. *)
Definition only {A} (P : effect -> Prop) (m : M A) : Prop :=
  forall w, exists l, trace (snd (m w)) = (trace w ++ l)%list /\ Forall P l.

(** A computation that leaves the open outputs as they are. *)
Definition keeps_outputs {A} (m : M A) : Prop :=
  forall w, openOutputs (snd (m w)) = openOutputs w.

(** The [catch] block of [sendMIDI]. *)
Definition sendMIDI_catch (callback : send_result -> M unit) (error : string)
  : M unit :=
  emit (ConsoleError [JStr "Error sending MIDI:"; JStr error]) ;;
  callback (SendError error).

(** What [sendMIDI] does once the engine runs and the port is open:
    build the message, send it, log it and report. *)
Definition sendMIDI_body (E : env) (midiObj : MidiObj.t)
  (callback : send_result -> M unit) : M unit :=
  message <- sendMIDI_message midiObj ;;
  match message with
  | None => callback InvalidMidiCommand
  | Some message =>
      emit (OutputSend (MidiObj.midiport midiObj) message) ;;
      match output_send E (MidiObj.midiport midiObj) message with
      | Some e => throw e
      | None => ret tt
      end ;;
      addToLog "TX" (MidiObj.midiport midiObj) (MidiObj.midicommand midiObj)
               (DataMidiObj midiObj) ;;
      callback (MidiSentSuccessfully midiObj message)
  end.

(** The callback that [runMIDITrigger_MIDI] gives to [sendMIDI]. *)
Definition trigger_callback (trigger : Trigger.t) (result : send_result)
  : M unit :=
  match result with
  | MidiSentSuccessfully _ _ =>
      addToLog "TRIGGER" (JStr "MIDI") (Trigger.outputport trigger)
               (DataMidiObj (triggerMidiObj trigger))
  | SendError error =>
      addToLog "APP-ERR" (JStr "MIDI Trigger") (Trigger.outputport trigger)
               (DataFields [("error", js_or (JStr error) (JStr "error"))])
  | InvalidMidiCommand =>
      addToLog "APP-ERR" (JStr "MIDI Trigger") (Trigger.outputport trigger)
               (DataFields [("error", JStr "invalid-midi-command")])
  end.

(** An optional cue argument of [BuildMSC]: a string, or absent. *)
Definition of_cue (cue : option string) : jsval :=
  match cue with
  | Some s => JStr s
  | None => JUndefined
  end.

Fixpoint codes (s : string) : list Z :=
  match s with
  | EmptyString => []
  | String c r => code c :: codes r
  end.

(** The bytes a cue argument contributes: nothing when absent or empty,
    otherwise its character codes, after a 0x00 when [separator]. *)
Definition cue_segment (separator : bool) (cue : option string) : list Z :=
  match cue with
  | None => []
  | Some s =>
      if (s =? "")%string then []
      else if separator then 0x00 :: codes s else codes s
  end.

(** A criterion that does not constrain the event. *)
Definition unconstrained (v : jsval) : Prop := v = JUndefined \/ v = JStr "*".

(** A criterion met by the field of an event: unconstrained, or an
    integer (as read by [parseInt]) equal to the field. *)
Definition criterion_met (v field : jsval) : Prop :=
  unconstrained v \/ exists n, parseInt false v = Some n /\ field = JNum n.

(** The calls of an 'http' action: console output, the published log
    entry, and requests to the trigger's url with an allowed method. *)
Definition http_call (trigger : Trigger.t) (e : effect) : Prop :=
  match e with
  | Fetch url method _ =>
      url = Trigger.url trigger /\ has allowedMethods method = true
  | ConsoleLog [_] => True
  | SendLog _ => True
  | _ => False
  end.

(** The calls of a 'midi' action: everything but an HTTP request. *)
Definition midi_call (e : effect) : Prop := is_fetch e = false.

(** The [timeoutMs] of the HTTP actions. *)
Definition timeout_of (E : env) : jsval := js_or (httpTimeout E) (JNum 5000).

(** An integer below 1e21 in absolute value: [String] prints it as its
    decimal numeral, without an exponent. *)
Definition plain (z : Z) : Prop := Z.abs z < 1000000000000000000000.

(** A MIDI data byte. *)
Definition data_byte (v : jsval) : Prop := exists n, v = JNum n /\ 0 <= n <= 127.

(* ================================================================== *)
(** ** Properties of the JavaScript primitives                         *)
(* ================================================================== *)

Lemma strict_eq_true_iff (v : jsval) (s : string) :
  is_str v s = true <-> v = JStr s.
Proof.
  unfold is_str; split.
  - destruct v; simpl; try discriminate.
    intros H; apply String.eqb_eq in H; now subst.
  - intros ->; simpl; apply String.eqb_refl.
Qed.

Lemma is_str_false_iff (v : jsval) (s : string) :
  is_str v s = false <-> v <> JStr s.
Proof.
  rewrite <- strict_eq_true_iff.
  destruct (is_str v s); split; intros; congruence.
Qed.

Lemma strict_eq_num (v : jsval) (z : Z) :
  strict_eq (JNum z) v = true <-> v = JNum z.
Proof.
  split.
  - destruct v; simpl; try discriminate.
    intros H; apply Z.eqb_eq in H; now subst.
  - intros ->; simpl; apply Z.eqb_refl.
Qed.

Lemma index_nth_error (arr : list Z) (i : nat) (z : Z) :
  nth_error arr i = Some z -> index arr i = JNum z.
Proof. unfold index; now intros ->. Qed.

Lemma in_zrange (n : nat) :
  forall (lo z : Z), lo <= z < lo + Z.of_nat n -> In z (zrange lo n).
Proof.
  induction n as [| n IH]; intros lo z Hz.
  - lia.
  - simpl; destruct (Z.eq_dec lo z) as [-> | Hne]; [now left |].
    right; apply IH; lia.
Qed.

(** Reading a decimal numeral digit by digit accumulates its value. *)
Lemma read_digits_acc (d : Decimal.uint) : forall a : positive,
  read_digits 10 (Some (Z.pos a)) (NilEmpty.string_of_uint d)
  = (Some (Z.pos (Pos.of_uint_acc d a)), "").
Proof.
  induction d; intro a; [reflexivity | ..];
    cbn [NilEmpty.string_of_uint read_digits Pos.of_uint_acc];
    match goal with
    | |- context [digit_val ?c] =>
        let v := eval vm_compute in (digit_val c) in
        change (digit_val c) with v; cbv iota
    end;
    match goal with
    | |- context [?k <? 10] => change (k <? 10) with true; cbv iota
    end;
    match goal with
    | |- read_digits 10 (Some ?x) _ = (Some (Z.pos (Pos.of_uint_acc _ ?y)), _) =>
        replace x with (Z.pos y)
          by (rewrite ?Pos2Z.inj_add, ?Pos2Z.inj_mul; ring);
        apply IHd
    end.
Qed.

Lemma read_digits_numeral (d : Decimal.uint) :
  read_digits 10 (Some 0) (NilEmpty.string_of_uint d)
  = (Some (Z.of_N (Pos.of_uint d)), "").
Proof.
  induction d; [reflexivity | exact IHd | ..];
    cbn [NilEmpty.string_of_uint read_digits Pos.of_uint];
    match goal with
    | |- context [digit_val ?c] =>
        let v := eval vm_compute in (digit_val c) in
        change (digit_val c) with v; cbv iota
    end;
    match goal with
    | |- context [?k <? 10] => change (k <? 10) with true; cbv iota
    end;
    apply read_digits_acc.
Qed.

(** A numeral starts with a digit. *)
Lemma numeral_head (d : Decimal.uint) :
  d <> Decimal.Nil ->
  exists c r k, NilEmpty.string_of_uint d = String c r
    /\ is_ws c = false /\ c <> "-"%char /\ c <> "+"%char
    /\ digit_val c = Some k /\ 0 <= k < 10.
Proof.
  destruct d; [congruence | ..]; intros _;
    eexists; eexists; eexists; (split; [reflexivity |]);
    (split; [reflexivity |]); (split; [discriminate |]);
    (split; [discriminate |]);
    (split; [vm_compute; reflexivity | vm_compute; split; congruence]).
Qed.

Lemma unsigned_string (c : ascii) (r : string) :
  c <> "-"%char -> c <> "+"%char ->
  match String c r with
  | String "-" r0 => (true, r0)
  | String "+" r0 => (false, r0)
  | _ => (false, String c r)
  end = (false, String c r).
Proof.
  intros Hm Hp.
  destruct c as [[] [] [] [] [] [] [] []]; try reflexivity; congruence.
Qed.

Lemma parseInt_string_numeral (radix10 : bool) (d : Decimal.uint) :
  d <> Decimal.Nil ->
  parseInt_string radix10 (NilEmpty.string_of_uint d)
  = Some (Z.of_N (Pos.of_uint d))
  /\ parseInt_string radix10 (String "-" (NilEmpty.string_of_uint d))
     = Some (- Z.of_N (Pos.of_uint d)).
Proof.
  intro Hd.
  assert (Hhex : has_hex_prefix (NilEmpty.string_of_uint d) = false)
    by (destruct d as [|d|d|d|d|d|d|d|d|d|d]; try reflexivity;
        destruct d; reflexivity).
  assert (Hread : read_digits 10 None (NilEmpty.string_of_uint d)
                  = read_digits 10 (Some 0) (NilEmpty.string_of_uint d))
    by (destruct d; [congruence | reflexivity ..]).
  assert (Hparse : fst (read_digits 10 None (NilEmpty.string_of_uint d))
                   = Some (Z.of_N (Pos.of_uint d)))
    by (rewrite Hread, read_digits_numeral; reflexivity).
  split.
  - unfold parseInt_string.
    destruct (numeral_head d Hd) as [c [r [k [Hs [Hws [Hm [Hp _]]]]]]].
    rewrite Hs in *; cbn [trim_start]; rewrite Hws.
    rewrite (unsigned_string c r Hm Hp).
    rewrite Hhex, andb_false_r, Hparse; reflexivity.
  - unfold parseInt_string; cbn [trim_start].
    change (is_ws "-") with false; cbv iota.
    rewrite Hhex, andb_false_r, Hparse; reflexivity.
Qed.

(** The decimal numeral of an integer reads back as that integer, with
    and without an explicit radix. *)
Lemma parseInt_string_decimal (radix10 : bool) (z : Z) :
  parseInt_string radix10 (decimal z) = Some z.
Proof.
  destruct z as [| p | p]; [destruct radix10; reflexivity | |];
    unfold decimal, Z.to_int, NilZero.string_of_int, NilZero.string_of_uint;
    pose proof (DecimalPos.Unsigned.to_uint_nonnil p) as Hd;
    pose proof (DecimalPos.Unsigned.of_to p) as Hv;
    destruct (parseInt_string_numeral radix10 _ Hd) as [Hpos Hneg];
    destruct (Pos.to_uint p) eqn:Hu; try congruence;
    first [ rewrite Hpos | rewrite Hneg ]; rewrite Hv; reflexivity.
Qed.

Lemma number_to_string_decimal (z : Z) :
  Z.abs z < 1000000000000000000000 -> number_to_string z = decimal z.
Proof.
  intros Hz; unfold number_to_string.
  destruct (Z.ltb_spec (Z.abs z) 1000000000000000000000) as [_ | Hge];
    [reflexivity | lia].
Qed.

(** Below 1e21 in absolute value [parseInt] on a number is the
    identity. *)
Lemma parseInt_number_to_string (z : Z) :
  Z.abs z < 1000000000000000000000 ->
  parseInt_string false (number_to_string z) = Some z
  /\ parseInt_string true (number_to_string z) = Some z.
Proof.
  intros Hz; rewrite (number_to_string_decimal z Hz).
  split; apply parseInt_string_decimal.
Qed.

Lemma parseInt_number (radix10 : bool) (z : Z) :
  Z.abs z < 1000000000000000000000 -> parseInt radix10 (JNum z) = Some z.
Proof.
  intros Hz; unfold parseInt; cbn [toString].
  destruct (parseInt_number_to_string z Hz) as [Hf Ht].
  destruct radix10; assumption.
Qed.

Lemma decimal_head (z : Z) :
  0 <= z ->
  exists c r k, decimal z = String c r
    /\ is_ws c = false /\ c <> "-"%char /\ c <> "+"%char
    /\ digit_val c = Some k /\ 0 <= k < 10.
Proof.
  intros Hz; unfold decimal, Z.to_int.
  destruct z as [| p | p]; [| | lia].
  - exists "0"%char, "", 0; repeat split; (discriminate || lia).
  - unfold NilZero.string_of_int, NilZero.string_of_uint.
    pose proof (DecimalPos.Unsigned.to_uint_nonnil p) as Hd.
    destruct (numeral_head _ Hd) as [c [r [k [Hs H]]]].
    exists c, r, k; split; [| exact H].
    destruct (Pos.to_uint p); [congruence | exact Hs ..].
Qed.

(** A digit followed by a point or by the exponent mark is all that
    [parseInt] reads. *)
Lemma parseInt_string_leading (radix10 : bool) (c c' : ascii) (r : string) (k : Z) :
  is_ws c = false -> c <> "-"%char -> c <> "+"%char ->
  digit_val c = Some k -> 0 <= k < 10 ->
  c' = "."%char \/ c' = "e"%char ->
  parseInt_string radix10 (String c (String c' r)) = Some k
  /\ parseInt_string radix10 (String "-" (String c (String c' r))) = Some (- k).
Proof.
  intros Hws Hm Hp Hdig Hk Hc'.
  assert (Hhex : has_hex_prefix (String c (String c' r)) = false).
  { unfold has_hex_prefix, startsWith; cbn [String.prefix].
    destruct (ascii_dec "0" c), (ascii_dec "x" c'), (ascii_dec "X" c');
      try reflexivity; destruct Hc'; congruence. }
  assert (Hread : fst (read_digits 10 None (String c (String c' r))) = Some k).
  { cbn [read_digits]; rewrite Hdig.
    replace (k <? 10) with true by (symmetry; apply Z.ltb_lt; lia).
    destruct Hc' as [-> | ->]; reflexivity. }
  split.
  - unfold parseInt_string; cbn [trim_start]; rewrite Hws.
    rewrite (unsigned_string c _ Hm Hp).
    rewrite Hhex, andb_false_r, Hread; reflexivity.
  - unfold parseInt_string; cbn [trim_start].
    change (is_ws "-") with false; cbv iota.
    rewrite Hhex, andb_false_r, Hread; reflexivity.
Qed.

(** From 1e21 on [parseInt] reads the digit before the point of the
    exponent form. *)
Lemma parseInt_string_exponent (radix10 : bool) (z : Z) :
  exists k, parseInt_string radix10 (exponent_string z) = Some k /\ -9 <= k <= 9.
Proof.
  unfold exponent_string.
  destruct (decimal_head (Z.abs z) (Z.abs_nonneg z))
    as [c [r [k [Hs [Hws [Hm [Hp [Hdig Hk]]]]]]]].
  rewrite Hs.
  set (exponent := decimal (Z.of_nat (String.length r))).
  assert (Htail : exists c' r',
             (if (strip_zeros r =? "")%string then "" else "." ++ strip_zeros r)
             ++ "e+" ++ exponent = String c' r'
             /\ (c' = "."%char \/ c' = "e"%char)).
  { destruct (strip_zeros r =? "")%string.
    - exists "e"%char, ("+" ++ exponent); split; [reflexivity | now right].
    - exists "."%char, (strip_zeros r ++ "e+" ++ exponent);
        split; [reflexivity | now left]. }
  destruct Htail as [c' [r' [-> Hc']]].
  destruct (parseInt_string_leading radix10 c c' r' k Hws Hm Hp Hdig Hk Hc')
    as [Hpos Hneg].
  destruct (z <? 0).
  - exists (- k); split; [exact Hneg | lia].
  - exists k; split; [exact Hpos | lia].
Qed.

(** A number always reads as an integer. *)
Lemma parseInt_number_defined (radix10 : bool) (z : Z) :
  exists n, parseInt radix10 (JNum z) = Some n.
Proof.
  unfold parseInt; cbn [toString]; unfold number_to_string.
  destruct (Z.abs z <? 1000000000000000000000).
  - exists z; apply parseInt_string_decimal.
  - destruct (parseInt_string_exponent radix10 z) as [k [Hk _]].
    exists k; exact Hk.
Qed.

(** Every channel nibble, by cases. *)
Lemma channel_cases (ch : Z) :
  0 <= ch <= 15 ->
  In ch [0; 1; 2; 3; 4; 5; 6; 7; 8; 9; 10; 11; 12; 13; 14; 15].
Proof.
  intros H; simpl.
  destruct (Z.eq_dec ch 0); [auto |].
  destruct (Z.eq_dec ch 1); [auto |].
  destruct (Z.eq_dec ch 2); [auto |].
  destruct (Z.eq_dec ch 3); [auto |].
  destruct (Z.eq_dec ch 4); [auto 6 |].
  destruct (Z.eq_dec ch 5); [auto 7 |].
  destruct (Z.eq_dec ch 6); [auto 8 |].
  destruct (Z.eq_dec ch 7); [auto 9 |].
  destruct (Z.eq_dec ch 8); [auto 10 |].
  destruct (Z.eq_dec ch 9); [auto 11 |].
  destruct (Z.eq_dec ch 10); [auto 12 |].
  destruct (Z.eq_dec ch 11); [auto 13 |].
  destruct (Z.eq_dec ch 12); [auto 14 |].
  destruct (Z.eq_dec ch 13); [auto 15 |].
  destruct (Z.eq_dec ch 14); [auto 16 |].
  destruct (Z.eq_dec ch 15); [auto 17 |].
  lia.
Qed.

(** A note-on status byte splits into command [0x90] and its channel. *)
Lemma noteon_status_split (ch : Z) :
  0 <= ch <= 15 ->
  js_and (JNum (0x90 + ch)) (JNum 0xf0) = 0x90
  /\ js_and (JNum (0x90 + ch)) (JNum 0x0f) = ch.
Proof.
  intros H; apply channel_cases in H.
  repeat (destruct H as [<- | H]; [split; reflexivity |]).
  destruct H.
Qed.

(* ================================================================== *)
(** ** Codec                                                           *)
(* ================================================================== *)

(** The encoder puts channel, note and velocity on the wire as given
    when the velocity is truthy. *)
Lemma sendMIDI_message_noteon (midiport : jsval) (ch note vel : Z) (w : world) :
  vel <> 0 ->
  sendMIDI_message (noteon_request midiport (JNum ch) (JNum note) (JNum vel)) w
  = (Ok (Some [JNum (0x90 + ch); JNum note; JNum vel]), w).
Proof.
  intros Hv; unfold sendMIDI_message, noteon_request, bind, lift, ret; simpl.
  unfold js_or; simpl.
  destruct (Z.eqb_spec vel 0); [contradiction | reflexivity].
Qed.

(** On the receiving side a note-on status with velocity 0 is a note-off. *)
Lemma receiveMIDI_noteon_velocity_zero (ch note : Z) :
  0 <= ch <= 15 ->
  receiveMIDI_classify [0x90 + ch; note; 0]
  = Some ("noteoff",
          MidiData.mk (JNum ch) [0x90 + ch; note; 0] (JNum note) (JNum 0)
            JUndefined JUndefined None JUndefined JUndefined JUndefined).
Proof.
  intros H; destruct (noteon_status_split ch H) as [Hc Hn].
  unfold receiveMIDI_classify.
  change (index [0x90 + ch; note; 0] 0) with (JNum (0x90 + ch)).
  rewrite Hc, Hn; reflexivity.
Qed.

Lemma receiveMIDI_noteon_positive_velocity (ch note vel : Z) :
  0 <= ch <= 15 -> 0 < vel ->
  receiveMIDI_classify [0x90 + ch; note; vel]
  = Some ("noteon",
          MidiData.mk (JNum ch) [0x90 + ch; note; vel] (JNum note) (JNum vel)
            JUndefined JUndefined None JUndefined JUndefined JUndefined).
Proof.
  intros H Hv; destruct (noteon_status_split ch H) as [Hc Hn].
  unfold receiveMIDI_classify.
  change (index [0x90 + ch; note; vel] 0) with (JNum (0x90 + ch)).
  rewrite Hc, Hn.
  change (0x90 =? 0x90) with true; cbv iota.
  assert (Hgt : js_gt (index [0x90 + ch; note; vel] 2) (JNum 0) = true).
  { unfold js_gt; simpl. apply Z.gtb_lt; lia. }
  rewrite Hgt; reflexivity.
Qed.

(** C1.  A note-on request with velocity 0, on any channel in [0,15] and
    for any note in [0,127], is encoded with status byte [0x90 + channel]
    but with velocity byte 127, because [velocity || 127] takes 0 for an
    absent velocity; the encoded message therefore decodes to type
    'noteon' with velocity 127, not to 'noteoff'. *)
Theorem noteon_velocity_zero_round_trip :
  forall (midiport : jsval) (ch note : Z) (w : world),
    0 <= ch <= 15 ->
    0 <= note <= 127 ->
    sendMIDI_message (noteon_request midiport (JNum ch) (JNum note) (JNum 0)) w
    = (Ok (Some [JNum (0x90 + ch); JNum note; JNum 127]), w)
    /\ receiveMIDI_classify [0x90 + ch; note; 127]
       = Some ("noteon",
               MidiData.mk (JNum ch) [0x90 + ch; note; 127] (JNum note) (JNum 127)
                 JUndefined JUndefined None JUndefined JUndefined JUndefined).
Proof.
  intros midiport ch note w Hch _; split.
  - reflexivity.
  - apply receiveMIDI_noteon_positive_velocity; [exact Hch | lia].
Qed.

Lemma noteon_velocity_zero_round_trip_witness :
  sendMIDI_message (noteon_request (JStr "Port") (JNum 0) (JNum 60) (JNum 0))
                   idle_world
  = (Ok (Some [JNum (0x90 + 0); JNum 60; JNum 127]), idle_world)
  /\ receiveMIDI_classify [0x90 + 0; 60; 127]
     = Some ("noteon",
             MidiData.mk (JNum 0) [0x90 + 0; 60; 127] (JNum 60) (JNum 127)
               JUndefined JUndefined None JUndefined JUndefined JUndefined).
Proof.
  apply (noteon_velocity_zero_round_trip (JStr "Port") 0 60 idle_world); lia.
Defined.

(** C4.  Encoding the request [{midicommand:'noteon', channel:0, note:60,
    velocity:127}] gives the bytes [0x90, 60, 127], and decoding these
    bytes gives an event of type 'noteon' with channel 0, note 60 and
    velocity 127. *)
Theorem noteon_full_velocity_round_trip :
  forall (midiport : jsval) (w : world),
    sendMIDI_message (noteon_request midiport (JNum 0) (JNum 60) (JNum 127)) w
    = (Ok (Some (map JNum [0x90; 60; 127])), w)
    /\ exists midiData,
         receiveMIDI_classify [0x90; 60; 127] = Some ("noteon", midiData)
         /\ MidiData.channel midiData = JNum 0
         /\ MidiData.note midiData = JNum 60
         /\ MidiData.velocity midiData = JNum 127.
Proof.
  intros midiport w; split.
  - reflexivity.
  - eexists; split; [reflexivity |]; repeat split.
Qed.

(** A four-byte message [F0 7F id 02] satisfies the byte conditions but
    is shorter than the five bytes [receiveMIDI] asks for: it stays a
    'sysex' and is not reclassified. *)
Lemma short_msc_header_stays_sysex :
  nth_error [0xf0; 0x7f; 0x01; 0x02] 0 = Some 0xf0
  /\ nth_error [0xf0; 0x7f; 0x01; 0x02] 1 = Some 0x7f
  /\ nth_error [0xf0; 0x7f; 0x01; 0x02] 3 = Some 0x02
  /\ (exists midiData,
        receiveMIDI_classify [0xf0; 0x7f; 0x01; 0x02] = Some ("sysex", midiData)
        /\ MidiData.deviceid midiData = JUndefined)
  /\ ~ (exists midiData,
          receiveMIDI_classify [0xf0; 0x7f; 0x01; 0x02] = Some ("msc", midiData)).
Proof.
  split; [reflexivity |]; split; [reflexivity |]; split; [reflexivity |]; split.
  - eexists; split; reflexivity.
  - intros [midiData H]; discriminate H.
Qed.

(** C3 (amended).  A received byte sequence of at least five bytes whose
    first byte is exactly 0xF0, with bytes[1] = 0x7F and bytes[3] = 0x02,
    is classified 'msc' (not 'sysex'); the event is the one built by
    [parseMSC]: it carries deviceid = bytes[2] and commandformat =
    bytes[4] as raw numbers, command = bytes[5] (a raw number when the
    sequence has a sixth byte, undefined otherwise) and the raw bytes. *)
Theorem sysex_reclassified_as_msc :
  forall (message : list Z),
    (5 <= List.length message)%nat ->
    nth_error message 0 = Some 0xf0 ->
    nth_error message 1 = Some 0x7f ->
    nth_error message 3 = Some 0x02 ->
    exists (id format : Z) (midiData : MidiData.t),
      nth_error message 2 = Some id
      /\ nth_error message 4 = Some format
      /\ receiveMIDI_classify message = Some ("msc", midiData)
      /\ MidiData.deviceid midiData = JNum id
      /\ MidiData.commandformat midiData = JNum format
      /\ MidiData.command midiData
         = match nth_error message 5 with
           | Some c => JNum c
           | None => JUndefined
           end
      /\ MidiData.raw midiData = message.
Proof.
  intros message Hlen H0 H1 H3.
  destruct message as [| b0 [| b1 [| b2 [| b3 [| b4 rest]]]]];
    simpl in Hlen; try lia.
  simpl in H0, H1, H3.
  injection H0 as ->; injection H1 as ->; injection H3 as ->.
  exists b2, b4, (parseMSC (0xf0 :: 0x7f :: b2 :: 0x02 :: b4 :: rest)).
  repeat split.
  unfold receiveMIDI_classify.
  change (index (0xf0 :: 0x7f :: b2 :: 0x02 :: b4 :: rest) 0) with (JNum 0xf0).
  change (index (0xf0 :: 0x7f :: b2 :: 0x02 :: b4 :: rest) 1) with (JNum 0x7f).
  change (index (0xf0 :: 0x7f :: b2 :: 0x02 :: b4 :: rest) 3) with (JNum 0x02).
  change (js_and (JNum 0xf0) (JNum 0xf0)) with 0xf0.
  change (strict_eq (JNum 0xf0) (JNum 0xf0)) with true.
  change (strict_eq (JNum 0x7f) (JNum 0x7f)) with true.
  change (strict_eq (JNum 0x02) (JNum 0x02)) with true.
  assert (Hge : (Z.of_nat (List.length (0xf0 :: 0x7f :: b2 :: 0x02 :: b4 :: rest)) >=? 5)
                = true).
  { apply Z.geb_le. simpl List.length. lia. }
  rewrite Hge; reflexivity.
Qed.

Lemma sysex_reclassified_as_msc_witness :
  exists (id format : Z) (midiData : MidiData.t),
    nth_error [0xf0; 0x7f; 0x05; 0x02; 0x01; 0x07; 0xf7] 2 = Some id
    /\ nth_error [0xf0; 0x7f; 0x05; 0x02; 0x01; 0x07; 0xf7] 4 = Some format
    /\ receiveMIDI_classify [0xf0; 0x7f; 0x05; 0x02; 0x01; 0x07; 0xf7]
       = Some ("msc", midiData)
    /\ MidiData.deviceid midiData = JNum id
    /\ MidiData.commandformat midiData = JNum format
    /\ MidiData.command midiData
       = match nth_error [0xf0; 0x7f; 0x05; 0x02; 0x01; 0x07; 0xf7] 5 with
         | Some c => JNum c
         | None => JUndefined
         end
    /\ MidiData.raw midiData = [0xf0; 0x7f; 0x05; 0x02; 0x01; 0x07; 0xf7].
Proof.
  apply (sysex_reclassified_as_msc [0xf0; 0x7f; 0x05; 0x02; 0x01; 0x07; 0xf7]).
  - simpl; lia.
  - reflexivity.
  - reflexivity.
  - reflexivity.
Defined.

(* ================================================================== *)
(** ** Trigger matching                                                *)
(* ================================================================== *)

(** For a 'noteon' event the trigger [note60_trigger] reduces to the
    comparison of the event's note with 60. *)
Lemma note60_trigger_matches (id url : jsval) (portName : string)
  (midiData : MidiData.t) :
  matchesTrigger (note60_trigger id url) portName "noteon" midiData
  = Ok (strict_eq (JNum 60) (MidiData.note midiData)).
Proof.
  unfold matchesTrigger, note60_trigger; simpl.
  destruct (MidiData.note midiData) as [ | | b | [ | q | q] | | s | s];
    try reflexivity.
  destruct (60 =? q)%positive; reflexivity.
Qed.

(** C5.  On every incoming 'noteon' event, whatever its port, channel
    and other fields, the trigger [{midicommand:'noteon', channel:'*',
    note:60, actiontype:'http', url}] is evaluated without error and
    matches exactly when the event's note is 60: it matches every event
    with note 60 on every channel and no event with note 61. *)
Theorem wildcard_channel_trigger_matches_note_60 :
  forall (id url : jsval) (portName : string) (midiData : MidiData.t),
    (exists b,
       matchesTrigger (note60_trigger id url) portName "noteon" midiData = Ok b
       /\ (b = true <-> MidiData.note midiData = JNum 60))
    /\ (forall channel,
          matchesTrigger (note60_trigger id url) portName "noteon"
            (MidiData.mk channel (MidiData.raw midiData) (JNum 60)
               (MidiData.velocity midiData) (MidiData.controller midiData)
               (MidiData.value midiData) (MidiData.message midiData)
               (MidiData.deviceid midiData) (MidiData.commandformat midiData)
               (MidiData.command midiData))
          = Ok true)
    /\ (forall channel,
          matchesTrigger (note60_trigger id url) portName "noteon"
            (MidiData.mk channel (MidiData.raw midiData) (JNum 61)
               (MidiData.velocity midiData) (MidiData.controller midiData)
               (MidiData.value midiData) (MidiData.message midiData)
               (MidiData.deviceid midiData) (MidiData.commandformat midiData)
               (MidiData.command midiData))
          = Ok false).
Proof.
  intros id url portName midiData; split; [| split].
  - exists (strict_eq (JNum 60) (MidiData.note midiData)); split.
    + apply note60_trigger_matches.
    + apply strict_eq_num.
  - intros channel; now rewrite note60_trigger_matches.
  - intros channel; now rewrite note60_trigger_matches.
Qed.

(* ================================================================== *)
(** ** MSC encoding                                                    *)
(* ================================================================== *)

Lemma parseIntegerDeviceId_range (n : Z) :
  0 <= parseIntegerDeviceId n <= 0x7f.
Proof.
  unfold parseIntegerDeviceId.
  destruct (Z.geb_spec n 0); destruct (Z.leb_spec n 111); simpl; lia.
Qed.

Lemma parseStringDeviceId_string (s : string) :
  exists b, parseStringDeviceId (JStr s) = Ok b /\ 0 <= b <= 0x7f.
Proof.
  unfold parseStringDeviceId.
  destruct (is_str (JStr s) "all"); [exists 0x7f; split; [reflexivity | lia] |].
  destruct (startsWith "g" s); [| exists 0x7f; split; [reflexivity | lia]].
  destruct (parseInt false (JStr (substring1 s))) as [group |];
    [| exists 0x7f; split; [reflexivity | lia]].
  destruct (Z.geb_spec group 1); destruct (Z.leb_spec group 15); cbn [andb];
    eexists; (split; [reflexivity | lia]).
Qed.

(** When the device id resolves, the message is built around it and
    nothing is reported. *)
Lemma BuildMSC_resolved (deviceId commandFormat command : jsval) (b : Z)
  (w : world) :
  deviceId_hex deviceId = Ok b ->
  BuildMSC deviceId commandFormat command JUndefined JUndefined JUndefined w
  = (Ok [JNum 0xf0; JNum 0x7f; JNum b; JNum 0x02;
         js_or (get_property formatMap commandFormat) (JNum 0x7f);
         js_or (get_property commandMap command) (JNum 0x01);
         JNum 0xf7], w).
Proof.
  intros H; unfold BuildMSC; rewrite H; reflexivity.
Qed.

(** When it does not, the error is caught: a warning is printed and the
    empty message is returned. *)
Lemma BuildMSC_unresolved (deviceId commandFormat command cue cueList cuePath : jsval)
  (e : string) (w : world) :
  deviceId_hex deviceId = Throw e ->
  BuildMSC deviceId commandFormat command cue cueList cuePath w
  = (Ok [], add_effect w (ConsoleWarn [JStr "Error parsing MSC deviceId:"; JStr e])).
Proof.
  intros H; unfold BuildMSC; rewrite H; reflexivity.
Qed.

(** An absent device id is not resolved to the broadcast byte: the
    resolution raises, [BuildMSC] reports it and returns no message. *)
Lemma absent_device_id_is_an_error :
  deviceId_hex JUndefined = Throw "TypeError"
  /\ deviceId_hex JUndefined <> Ok 0x7f
  /\ BuildMSC JUndefined (JStr "lighting.general") (JStr "go")
       JUndefined JUndefined JUndefined idle_world
     = (Ok [],
        add_effect idle_world
          (ConsoleWarn [JStr "Error parsing MSC deviceId:"; JStr "TypeError"])).
Proof.
  split; [reflexivity |]; split; [discriminate | reflexivity].
Qed.

(** C6 (amended).  MSC encode resolves the device id through [parseInt]
    (no radix).  A value that [parseInt] reads as an integer n, whether
    a number or a string that starts with an integer, resolves to n
    when n is in [0,111] and to 0x7F otherwise; an integer number below
    1e21 in absolute value reads as itself, so it passes through
    unchanged in [0,111] and gives 0x7F outside, while the number 1e21,
    printed as 1e+21, reads as 1 and resolves to 1.  Among the strings
    that do not read as an integer, "all" gives 0x7F, a string that
    starts with "g" and whose remainder [parseInt] reads as N in 1..15
    (so "g"+N, and also "g3abc") gives 0x70+(N-1), and every other
    string gives 0x7F.  Every integer number and every string is thus
    resolved, without error, to a byte in [0,0x7F], and the message is
    built around that byte.  A device id that is neither (absent, null,
    a boolean) is an error: it is caught, a warning is printed and the
    empty message is returned. *)
Theorem msc_device_id_resolution :
  (forall v n, parseInt false v = Some n ->
     deviceId_hex v = Ok (if (0 <=? n) && (n <=? 111) then n else 0x7f))
  /\ (forall z, 0 <= z <= 111 -> deviceId_hex (JNum z) = Ok z)
  /\ (forall z, Z.abs z < 1000000000000000000000 -> z < 0 \/ 111 < z ->
        deviceId_hex (JNum z) = Ok 0x7f)
  /\ deviceId_hex (JNum 1000000000000000000000) = Ok 1
  /\ deviceId_hex (JStr "all") = Ok 0x7f
  /\ (forall n, 1 <= n <= 15 ->
        deviceId_hex (JStr ("g" ++ number_to_string n)) = Ok (0x70 + (n - 1)))
  /\ (forall s n, parseInt false (JStr s) = None ->
        startsWith "g" s = true ->
        parseInt false (JStr (substring1 s)) = Some n ->
        1 <= n <= 15 ->
        deviceId_hex (JStr s) = Ok (0x70 + (n - 1)))
  /\ (forall s, parseInt false (JStr s) = None ->
        s <> "all" ->
        (startsWith "g" s = false
         \/ forall n, parseInt false (JStr (substring1 s)) = Some n ->
                      n < 1 \/ 15 < n) ->
        deviceId_hex (JStr s) = Ok 0x7f)
  /\ (forall v, (exists z, v = JNum z) \/ (exists s, v = JStr s) ->
        exists b,
          deviceId_hex v = Ok b /\ 0 <= b <= 0x7f
          /\ forall commandFormat command w,
               BuildMSC v commandFormat command JUndefined JUndefined JUndefined w
               = (Ok [JNum 0xf0; JNum 0x7f; JNum b; JNum 0x02;
                      js_or (get_property formatMap commandFormat) (JNum 0x7f);
                      js_or (get_property commandMap command) (JNum 0x01);
                      JNum 0xf7], w))
  /\ (forall v, v = JUndefined \/ v = JNull \/ (exists b, v = JBool b) ->
        deviceId_hex v = Throw "TypeError"
        /\ forall commandFormat command cue cueList cuePath w,
             BuildMSC v commandFormat command cue cueList cuePath w
             = (Ok [],
                add_effect w
                  (ConsoleWarn [JStr "Error parsing MSC deviceId:";
                                JStr "TypeError"]))).
Proof.
  assert (Hint : forall v n, parseInt false v = Some n ->
            deviceId_hex v = Ok (if (0 <=? n) && (n <=? 111) then n else 0x7f)).
  { intros v n H; unfold deviceId_hex, parseIntegerDeviceId; rewrite H.
    rewrite Z.geb_leb; reflexivity. }
  split; [exact Hint |].
  split; [| split; [| split; [| split; [| split; [| split; [| split; [| split]]]]]]].
  - intros z Hz.
    rewrite (Hint (JNum z) z) by (apply parseInt_number; lia).
    destruct (Z.leb_spec 0 z); destruct (Z.leb_spec z 111); simpl;
      try reflexivity; lia.
  - intros z Hbound Hz.
    rewrite (Hint (JNum z) z) by (apply parseInt_number; exact Hbound).
    destruct (Z.leb_spec 0 z); destruct (Z.leb_spec z 111); simpl;
      try reflexivity; lia.
  - vm_compute; reflexivity.
  - reflexivity.
  - intros n Hn.
    assert (Hcases : In n [1; 2; 3; 4; 5; 6; 7; 8; 9; 10; 11; 12; 13; 14; 15]).
    { assert (H0 : 0 <= n - 1 <= 15) by lia.
      apply channel_cases in H0; simpl in H0; simpl.
      repeat (destruct H0 as [H0 | H0]; [lia |]); destruct H0. }
    simpl in Hcases.
    repeat (destruct Hcases as [<- | Hcases]; [reflexivity |]).
    destruct Hcases.
  - intros s n Hnan Hg Hrest Hn; unfold deviceId_hex; rewrite Hnan.
    unfold parseStringDeviceId.
    destruct (is_str (JStr s) "all") eqn:Eall.
    + apply strict_eq_true_iff in Eall; injection Eall as ->; discriminate Hg.
    + rewrite Hg, Hrest.
      destruct (Z.geb_spec n 1); destruct (Z.leb_spec n 15); simpl;
        try reflexivity; lia.
  - intros s Hnan Hall Hgroup; unfold deviceId_hex; rewrite Hnan.
    unfold parseStringDeviceId.
    destruct (is_str (JStr s) "all") eqn:Eall.
    + reflexivity.
    + destruct (startsWith "g" s) eqn:Eg; [| reflexivity].
      destruct Hgroup as [Hg | Hg]; [discriminate |].
      destruct (parseInt false (JStr (substring1 s))) as [group |];
        [| reflexivity].
      destruct (Z.geb_spec group 1); destruct (Z.leb_spec group 15); simpl;
        try reflexivity.
      destruct (Hg group eq_refl); lia.
  - intros v Hv.
    assert (Hres : exists b, deviceId_hex v = Ok b /\ 0 <= b <= 0x7f).
    { destruct Hv as [[z ->] | [s ->]].
      - destruct (parseInt_number_defined false z) as [n Hn].
        exists (parseIntegerDeviceId n); split;
          [unfold deviceId_hex; rewrite Hn; reflexivity
          | apply parseIntegerDeviceId_range].
      - unfold deviceId_hex.
        destruct (parseInt false (JStr s)) as [n |].
        + exists (parseIntegerDeviceId n); split;
            [reflexivity | apply parseIntegerDeviceId_range].
        + apply parseStringDeviceId_string. }
    destruct Hres as [b [Hb Hrange]].
    exists b; split; [exact Hb |]; split; [exact Hrange |].
    intros commandFormat command w; now apply BuildMSC_resolved.
  - intros v Hv.
    assert (Hthrow : deviceId_hex v = Throw "TypeError").
    { destruct Hv as [-> | [-> | [b ->]]]; try reflexivity.
      destruct b; reflexivity. }
    split; [exact Hthrow |].
    intros; now apply BuildMSC_unresolved.
Qed.

Lemma msc_device_id_resolution_witness :
  deviceId_hex (JStr "42abc") = Ok 42
  /\ deviceId_hex (JNum 50) = Ok 50
  /\ deviceId_hex (JNum 200) = Ok 0x7f
  /\ deviceId_hex (JNum 1000000000000000000000) = Ok 1
  /\ deviceId_hex (JStr ("g" ++ number_to_string 3)) = Ok (0x70 + (3 - 1))
  /\ deviceId_hex (JStr "g3abc") = Ok (0x70 + (3 - 1))
  /\ deviceId_hex (JStr "gx") = Ok 0x7f.
Proof.
  destruct msc_device_id_resolution
    as [Hint [Hin [Hout [_ [_ [Hgroup [Hrest [Hother _]]]]]]]].
  split; [apply (Hint (JStr "42abc") 42); reflexivity |].
  split; [apply (Hin 50); lia |].
  split; [apply (Hout 200); lia |].
  split; [apply (Hint (JNum 1000000000000000000000) 1); reflexivity |].
  split; [apply (Hgroup 3); lia |].
  split; [apply (Hrest "g3abc" 3); [reflexivity | reflexivity | reflexivity | lia] |].
  apply (Hother "gx"); [reflexivity | discriminate |].
  right; intros n H; discriminate H.
Defined.

(** A name in neither table and not a member of [Object.prototype] gets
    the default byte: 0x7F for the format, 0x01 ('go') for the command. *)
Lemma get_property_default (table : list (string * Z)) (key : jsval) (d : Z) :
  own_property table (toString key) = None ->
  has object_prototype_members (toString key) = false ->
  js_or (get_property table key) (JNum d) = JNum d.
Proof.
  intros Hown Hproto; unfold get_property, has in *.
  rewrite Hown.
  replace (existsb (String.eqb (toString key)) object_prototype_members)
    with false.
  reflexivity.
Qed.

Lemma msc_unknown_names_default (deviceId commandFormat command : jsval)
  (b : Z) (w : world) :
  deviceId_hex deviceId = Ok b ->
  own_property formatMap (toString commandFormat) = None ->
  has object_prototype_members (toString commandFormat) = false ->
  own_property commandMap (toString command) = None ->
  has object_prototype_members (toString command) = false ->
  BuildMSC deviceId commandFormat command JUndefined JUndefined JUndefined w
  = (Ok [JNum 0xf0; JNum 0x7f; JNum b; JNum 0x02; JNum 0x7f; JNum 0x01;
         JNum 0xf7], w).
Proof.
  intros Hd Hf1 Hf2 Hc1 Hc2.
  rewrite (BuildMSC_resolved _ _ _ b w Hd).
  rewrite (get_property_default formatMap commandFormat 0x7f Hf1 Hf2).
  rewrite (get_property_default commandMap command 0x01 Hc1 Hc2).
  reflexivity.
Qed.

(** C7.  At the format name "toString" and the command name "valueOf",
    which are in neither table, the lookup on the table object finds the
    members inherited from [Object.prototype]; they are truthy, so the
    defaults 0x7F and 0x01 are not taken and the message is built with
    these members in the format and command positions. *)
Theorem msc_inherited_names_escape_the_defaults :
  forall (w : world),
    own_property formatMap "toString" = None
    /\ own_property commandMap "valueOf" = None
    /\ BuildMSC (JNum 1) (JStr "toString") (JStr "valueOf")
         JUndefined JUndefined JUndefined w
       = (Ok [JNum 0xf0; JNum 0x7f; JNum 1; JNum 0x02;
              JProto "toString"; JProto "valueOf"; JNum 0xf7], w)
    /\ sendMIDI_message
         (msc_request (JStr "Port") (JNum 1) (JStr "toString") (JStr "valueOf")) w
       = (Ok (Some [JNum 0xf0; JNum 0x7f; JNum 1; JNum 0x02;
                    JProto "toString"; JProto "valueOf"; JNum 0xf7]), w).
Proof.
  intros w; repeat split.
Qed.

(* ================================================================== *)
(** ** Activity log                                                    *)
(* ================================================================== *)

Section LastN.

Context {A : Type}.

Lemma last_n_short (n : nat) (l : list A) :
  (List.length l <= n)%nat -> last_n n l = l.
Proof.
  intros H; unfold last_n.
  replace (List.length l - n)%nat with 0%nat by lia; reflexivity.
Qed.

Lemma last_n_length (n : nat) (l : list A) :
  List.length (last_n n l) = Nat.min n (List.length l).
Proof. unfold last_n; rewrite length_skipn; lia. Qed.

Lemma last_n_app (n : nat) (l1 l2 : list A) :
  last_n n (last_n n l1 ++ l2) = last_n n (l1 ++ l2).
Proof.
  destruct (Nat.le_gt_cases (List.length l1) n) as [Hle | Hgt].
  - now rewrite (last_n_short n l1 Hle).
  - unfold last_n at 2.
    set (k := (List.length l1 - n)%nat).
    assert (Hk : (skipn k l1 ++ l2)%list = skipn k (l1 ++ l2)).
    { rewrite skipn_app.
      replace (k - List.length l1)%nat with 0%nat by lia; reflexivity. }
    rewrite Hk; unfold last_n.
    rewrite skipn_skipn, length_skipn, length_app.
    f_equal; lia.
Qed.

End LastN.

Lemma push_shift_last_n (log : list LogEntry) (logEntry : LogEntry) :
  (List.length log <= 500)%nat ->
  push_shift log logEntry = last_n 500 (log ++ [logEntry]).
Proof.
  intros H; unfold push_shift, last_n.
  rewrite length_app; simpl List.length.
  destruct (Z.gtb_spec (Z.of_nat (List.length log + 1)) 500) as [Hgt | Hle].
  - replace (List.length log + 1 - 500)%nat with 1%nat by lia.
    destruct (log ++ [logEntry])%list; reflexivity.
  - replace (List.length log + 1 - 500)%nat with 0%nat by lia; reflexivity.
Qed.

Lemma push_shift_full (log : list LogEntry) (logEntry : LogEntry) :
  List.length log = 500%nat ->
  push_shift log logEntry = (tl log ++ [logEntry])%list.
Proof.
  intros H; unfold push_shift.
  rewrite length_app; simpl List.length.
  destruct (Z.gtb_spec (Z.of_nat (List.length log + 1)) 500) as [Hgt | Hle];
    [| lia].
  destruct log; [discriminate | reflexivity].
Qed.

Lemma addToLog_spec (direction : string) (port command : jsval)
  (data : logdata) (w : world) :
  fst (addToLog direction port command data w) = Ok tt
  /\ MIDIRelaysLog (snd (addToLog direction port command data w))
     = push_shift (MIDIRelaysLog w)
         (mkLogEntry (now w) direction port command data)
  /\ now (snd (addToLog direction port command data w)) = now w.
Proof.
  unfold addToLog; simpl.
  destruct (sendLog w); repeat split.
Qed.

Lemma addToLog_all_spec (calls : list (Z * string * jsval * jsval * logdata)) :
  forall (w : world),
    (List.length (MIDIRelaysLog w) <= 500)%nat ->
    fst (addToLog_all calls w) = Ok tt
    /\ MIDIRelaysLog (snd (addToLog_all calls w))
       = last_n 500 (MIDIRelaysLog w ++ entries_of calls).
Proof.
  induction calls as [| [[[[t direction] port] command] data] rest IH];
    intros w Hw.
  - simpl; rewrite app_nil_r, last_n_short by exact Hw; split; reflexivity.
  - destruct (addToLog_spec direction port command data (set_now w t))
      as [Hok [Hlog _]].
    simpl addToLog_all; unfold bind, at_time.
    destruct (addToLog direction port command data (set_now w t))
      as [r w1] eqn:Estep.
    simpl in Hok, Hlog; subst r.
    assert (Hw1 : (List.length (MIDIRelaysLog w1) <= 500)%nat).
    { rewrite Hlog, push_shift_last_n, last_n_length by exact Hw; lia. }
    destruct (IH w1 Hw1) as [IHok IHlog].
    split; [exact IHok |].
    rewrite IHlog, Hlog, push_shift_last_n by exact Hw.
    rewrite last_n_app, <- app_assoc; reflexivity.
Qed.

(** C8.  Starting from a log of at most 500 entries (the log starts
    empty), after any sequence of [addToLog] calls the log holds at most
    500 entries and is exactly the last 500 of everything appended, in
    order; an append to a full log drops exactly its oldest entry; and
    501 appends to the empty log leave exactly 500 entries, the first
    appended one gone and the newest one last. *)
Theorem activity_log_is_a_bounded_fifo :
  forall (calls : list (Z * string * jsval * jsval * logdata)) (w : world),
    (List.length (MIDIRelaysLog w) <= 500)%nat ->
    let w' := snd (addToLog_all calls w) in
    fst (addToLog_all calls w) = Ok tt
    /\ (List.length (MIDIRelaysLog w') <= 500)%nat
    /\ MIDIRelaysLog w' = last_n 500 (MIDIRelaysLog w ++ entries_of calls)
    /\ (forall direction port command data,
          List.length (MIDIRelaysLog w) = 500%nat ->
          MIDIRelaysLog (snd (addToLog direction port command data w))
          = (tl (MIDIRelaysLog w)
             ++ [mkLogEntry (now w) direction port command data])%list)
    /\ (MIDIRelaysLog w = [] ->
        List.length calls = 501%nat ->
        List.length (MIDIRelaysLog w') = 500%nat
        /\ MIDIRelaysLog w' = entries_of (tl calls)
        /\ nth_error (MIDIRelaysLog w') 499 = nth_error (entries_of calls) 500).
Proof.
  intros calls w Hw w'.
  destruct (addToLog_all_spec calls w Hw) as [Hok Hlog].
  fold w' in Hlog.
  split; [exact Hok |].
  split; [rewrite Hlog, last_n_length; lia |].
  split; [exact Hlog |].
  split.
  - intros direction port command data Hfull.
    destruct (addToLog_spec direction port command data w) as [_ [Hstep _]].
    rewrite Hstep; now apply push_shift_full.
  - intros Hempty Hcalls.
    assert (Htl : MIDIRelaysLog w' = entries_of (tl calls)).
    { rewrite Hlog, Hempty; simpl app; unfold last_n, entries_of.
      rewrite length_map, Hcalls.
      destruct calls as [| c rest]; [discriminate | reflexivity]. }
    split; [| split].
    + rewrite Htl; unfold entries_of; rewrite length_map.
      destruct calls; simpl in *; lia.
    + exact Htl.
    + rewrite Htl; destruct calls; [discriminate | reflexivity].
Qed.

Lemma activity_log_is_a_bounded_fifo_witness :
  let w' := snd (addToLog_all (numbered_calls 501) idle_world) in
  List.length (MIDIRelaysLog w') = 500%nat
  /\ MIDIRelaysLog w' = entries_of (tl (numbered_calls 501))
  /\ nth_error (MIDIRelaysLog w') 499
     = nth_error (entries_of (numbered_calls 501)) 500.
Proof.
  assert (Hw : (List.length (MIDIRelaysLog idle_world) <= 500)%nat)
    by (simpl; lia).
  destruct (activity_log_is_a_bounded_fifo (numbered_calls 501) idle_world Hw)
    as [_ [_ [_ [_ H501]]]].
  apply H501.
  - reflexivity.
  - unfold numbered_calls; rewrite length_map, length_seq; reflexivity.
Defined.

(* ================================================================== *)
(** ** Dispatch                                                        *)
(* ================================================================== *)

Lemma filter_dispatch_app (t : list effect) (e : effect) :
  is_dispatch e = false ->
  filter is_dispatch (t ++ [e]) = filter is_dispatch t.
Proof.
  intros H; rewrite filter_app; simpl; rewrite H; apply app_nil_r.
Qed.

(** An 'http' trigger without a body does reach [fetch]. *)
Lemma http_trigger_fetches (E : env) (id url : jsval) (w : world) :
  In (Fetch url "GET" None)
     (trace (snd (executeTrigger E (note60_trigger id url)
                    (parseMSC []) w))).
Proof.
  unfold executeTrigger, note60_trigger, runMIDITrigger_HTTP, fetch_and_log,
    bind, emit; simpl.
  destruct (fetch E url "GET" None) as [[|] status body | name message cause];
    unfold bind, emit, addToLog; simpl;
    repeat match goal with
           | |- context [if ?b then _ else _] => destruct b; simpl
           end;
    rewrite ?in_app_iff; simpl; tauto.
Qed.

(** A 'midi' trigger does reach the output port. *)
Lemma midi_trigger_sends :
  In (OutputSend (JStr "Out") [JNum 0x90; JNum 60; JNum 127])
     (trace (snd (executeTrigger quiet_env
                    (plain_trigger (JStr "noteon") (JNum 0) (JNum 60)
                       JUndefined JUndefined (JStr "midi") JUndefined (JStr "Out"))
                    (parseMSC []) idle_world))).
Proof. simpl; tauto. Qed.

(** C9.  For a trigger whose actiontype is neither 'http' nor 'midi',
    [executeTrigger] completes normally (no exception); the calls it
    makes are the announcement on the console followed by the warning
    'Unknown trigger action type:', so no HTTP request and no MIDI send
    are made, and the activity log and the open ports are unchanged. *)
Theorem unknown_actiontype_is_not_dispatched :
  forall (E : env) (trigger : Trigger.t) (midiData : MidiData.t) (w : world),
    Trigger.actiontype trigger <> JStr "http" ->
    Trigger.actiontype trigger <> JStr "midi" ->
    let w' := snd (executeTrigger E trigger midiData w) in
    fst (executeTrigger E trigger midiData w) = Ok tt
    /\ trace w'
       = (trace w
          ++ [ConsoleLog [JStr "Executing trigger:"; Trigger.id trigger];
              ConsoleWarn [JStr "Unknown trigger action type:";
                           Trigger.actiontype trigger]])%list
    /\ filter is_dispatch (trace w') = filter is_dispatch (trace w)
    /\ MIDIRelaysLog w' = MIDIRelaysLog w
    /\ openOutputs w' = openOutputs w.
Proof.
  intros E trigger midiData w Hhttp Hmidi w'.
  apply is_str_false_iff in Hhttp, Hmidi.
  assert (Hrun : executeTrigger E trigger midiData w
                 = (Ok tt,
                    add_effect
                      (add_effect w
                         (ConsoleLog [JStr "Executing trigger:"; Trigger.id trigger]))
                      (ConsoleWarn [JStr "Unknown trigger action type:";
                                    Trigger.actiontype trigger]))).
  { unfold executeTrigger, bind, emit; rewrite Hhttp, Hmidi; reflexivity. }
  subst w'; rewrite Hrun; simpl.
  split; [reflexivity |].
  split; [now rewrite <- app_assoc |].
  split; [| split; reflexivity].
  rewrite !filter_dispatch_app; reflexivity.
Qed.

Lemma unknown_actiontype_is_not_dispatched_witness :
  let trigger :=
    plain_trigger (JStr "noteon") (JStr "*") (JNum 60) JUndefined JUndefined
      (JStr "script") (JStr "http://example.com/webhook") JUndefined in
  let w' := snd (executeTrigger quiet_env trigger (parseMSC []) idle_world) in
  fst (executeTrigger quiet_env trigger (parseMSC []) idle_world) = Ok tt
  /\ trace w'
     = (trace idle_world
        ++ [ConsoleLog [JStr "Executing trigger:"; Trigger.id trigger];
            ConsoleWarn [JStr "Unknown trigger action type:";
                         Trigger.actiontype trigger]])%list
  /\ filter is_dispatch (trace w') = filter is_dispatch (trace idle_world)
  /\ MIDIRelaysLog w' = MIDIRelaysLog idle_world
  /\ openOutputs w' = openOutputs idle_world.
Proof.
  apply (unknown_actiontype_is_not_dispatched quiet_env
           (plain_trigger (JStr "noteon") (JStr "*") (JNum 60) JUndefined
              JUndefined (JStr "script") (JStr "http://example.com/webhook")
              JUndefined)
           (parseMSC []) idle_world).
  - simpl; discriminate.
  - simpl; discriminate.
Defined.

(** *** The steps of [sendMIDI] *)

Lemma started_openOutputs (w : world) :
  openOutputs (started w) = openOutputs w.
Proof. unfold started; destruct (jzzEngine w); reflexivity. Qed.

Lemma started_running (w : world) : jzzEngine (started w) = true.
Proof. unfold started; destruct (jzzEngine w) eqn:Er; [exact Er | reflexivity]. Qed.

(** [initEngine] when the engine runs already, or starts. *)
Lemma initEngine_started (E : env) (w : world) :
  jzzEngine w = true \/ JZZ E = None ->
  initEngine E w = (Ok tt, started w).
Proof.
  unfold initEngine, started, bind, get, try_catch.
  destruct (jzzEngine w); [reflexivity |].
  intros [H | H]; [discriminate | rewrite H; reflexivity].
Qed.

(** [initEngine] when the engine cannot start: the failure is printed
    and raised again. *)
Lemma initEngine_fails (E : env) (w : world) (e : string) :
  jzzEngine w = false ->
  JZZ E = Some e ->
  initEngine E w
  = (Throw e,
     add_effect w
       (ConsoleError [JStr "Failed to initialize JZZ MIDI engine:"; JStr e])).
Proof.
  intros Hr He; unfold initEngine, bind, get, try_catch.
  rewrite Hr, He; reflexivity.
Qed.

Lemma get_output_opened (E : env) (midiport : jsval) (w : world) :
  existsb (strict_eq midiport) (openOutputs w) = true
  \/ openMidiOut E midiport = None ->
  get_output E midiport w = (Ok tt, opened w midiport).
Proof.
  unfold get_output, opened.
  destruct (existsb (strict_eq midiport) (openOutputs w)); [reflexivity |].
  intros [H | H]; [discriminate | rewrite H; reflexivity].
Qed.

(** [sendMIDI] step by step: the engine, the port, then the body; an
    error at any step goes to the [catch] block. *)
Lemma sendMIDI_steps (E : env) (midiObj : MidiObj.t)
  (callback : send_result -> M unit) (w : world) :
  sendMIDI E midiObj callback w
  = match initEngine E w with
    | (Ok _, w2) =>
        match get_output E (MidiObj.midiport midiObj) w2 with
        | (Ok _, w3) =>
            try_catch (sendMIDI_body E midiObj callback)
              (sendMIDI_catch callback) w3
        | (Throw e, w3) => sendMIDI_catch callback e w3
        end
    | (Throw e, w2) => sendMIDI_catch callback e w2
    end.
Proof.
  unfold sendMIDI, sendMIDI_body, sendMIDI_catch, try_catch, bind.
  destruct (initEngine E w) as [[[] | e] w2]; [| reflexivity].
  destruct (get_output E (MidiObj.midiport midiObj) w2) as [[[] | e] w3];
    reflexivity.
Qed.

(** With the engine running and the port available, [sendMIDI] is its
    body run on the world where both are recorded. *)
Lemma sendMIDI_ready (E : env) (midiObj : MidiObj.t)
  (callback : send_result -> M unit) (w : world) :
  jzzEngine w = true \/ JZZ E = None ->
  existsb (strict_eq (MidiObj.midiport midiObj)) (openOutputs w) = true
  \/ openMidiOut E (MidiObj.midiport midiObj) = None ->
  sendMIDI E midiObj callback w
  = try_catch (sendMIDI_body E midiObj callback) (sendMIDI_catch callback)
      (opened (started w) (MidiObj.midiport midiObj)).
Proof.
  intros He Hport.
  rewrite <- (started_openOutputs w) in Hport.
  rewrite sendMIDI_steps, (initEngine_started E w He).
  rewrite (get_output_opened E _ (started w) Hport).
  reflexivity.
Qed.

(** The message is built and the port accepts it: it is sent, logged
    and reported, in this order. *)
Lemma sendMIDI_sent (E : env) (midiObj : MidiObj.t) (message : list jsval)
  (callback : send_result -> M unit) (w w1 : world) :
  jzzEngine w = true \/ JZZ E = None ->
  existsb (strict_eq (MidiObj.midiport midiObj)) (openOutputs w) = true
  \/ openMidiOut E (MidiObj.midiport midiObj) = None ->
  sendMIDI_message midiObj (opened (started w) (MidiObj.midiport midiObj))
  = (Ok (Some message), w1) ->
  output_send E (MidiObj.midiport midiObj) message = None ->
  sendMIDI E midiObj callback w
  = try_catch (callback (MidiSentSuccessfully midiObj message))
      (sendMIDI_catch callback)
      (snd (addToLog "TX" (MidiObj.midiport midiObj)
              (MidiObj.midicommand midiObj) (DataMidiObj midiObj)
              (add_effect w1 (OutputSend (MidiObj.midiport midiObj) message)))).
Proof.
  intros He Hport Hmessage Haccept.
  rewrite (sendMIDI_ready E midiObj callback w He Hport).
  unfold sendMIDI_body, try_catch, bind; rewrite Hmessage, Haccept.
  unfold emit, ret.
  destruct (addToLog_spec "TX" (MidiObj.midiport midiObj)
              (MidiObj.midicommand midiObj) (DataMidiObj midiObj)
              (add_effect w1 (OutputSend (MidiObj.midiport midiObj) message)))
    as [Hok _].
  destruct (addToLog "TX" (MidiObj.midiport midiObj)
              (MidiObj.midicommand midiObj) (DataMidiObj midiObj)
              (add_effect w1 (OutputSend (MidiObj.midiport midiObj) message)))
    as [r w2].
  simpl in Hok; subst r; reflexivity.
Qed.

(** The message is built and the port refuses it: the error is caught,
    nothing is logged. *)
Lemma sendMIDI_refused (E : env) (midiObj : MidiObj.t) (message : list jsval)
  (e : string) (callback : send_result -> M unit) (w w1 : world) :
  jzzEngine w = true \/ JZZ E = None ->
  existsb (strict_eq (MidiObj.midiport midiObj)) (openOutputs w) = true
  \/ openMidiOut E (MidiObj.midiport midiObj) = None ->
  sendMIDI_message midiObj (opened (started w) (MidiObj.midiport midiObj))
  = (Ok (Some message), w1) ->
  output_send E (MidiObj.midiport midiObj) message = Some e ->
  sendMIDI E midiObj callback w
  = sendMIDI_catch callback e
      (add_effect w1 (OutputSend (MidiObj.midiport midiObj) message)).
Proof.
  intros He Hport Hmessage Hrefuse.
  rewrite (sendMIDI_ready E midiObj callback w He Hport).
  unfold sendMIDI_body, try_catch, bind at 1 2 3; rewrite Hmessage, Hrefuse.
  reflexivity.
Qed.

(** The callback of a 'midi' trigger only logs: it cannot fail. *)
Lemma trigger_callback_logs (trigger : Trigger.t) (result : send_result)
  (w : world) :
  fst (trigger_callback trigger result w) = Ok tt.
Proof.
  destruct result; unfold trigger_callback; apply addToLog_spec.
Qed.

(** The two fallback operators of the [midiObj] literal. *)
Lemma js_coalesce_absent (b : jsval) : js_coalesce JUndefined b = b.
Proof. reflexivity. Qed.

Lemma js_or_absent (b : jsval) : js_or JUndefined b = b.
Proof. reflexivity. Qed.

(** A wildcard channel criterion, copied into the request, reaches the
    encoder, which concatenates it to the status byte. *)
Lemma wildcard_channel_reaches_the_encoder (w : world) :
  sendMIDI_message
    (triggerMidiObj
       (plain_trigger (JStr "noteon") (JStr "*") (JNum 60) JUndefined JUndefined
          (JStr "midi") JUndefined (JStr "Out")))
    w
  = (Ok (Some [JStr "144*"; JNum 60; JNum 127]), w).
Proof. reflexivity. Qed.

(** C10.  For a trigger with actiontype 'midi', [executeTrigger]
    announces the trigger and calls [sendMIDI] on a request built from
    the trigger alone, so the run is the same for every matched event.
    The request goes to the trigger's outputport; each absent output
    field (outputcommand, outputchannel, outputnote, outputvelocity,
    outputcontroller, outputvalue) is taken from the trigger's own match
    criterion, so that a criterion holding the wildcard '*' is passed
    unchanged into the request.  When the engine runs, the port is
    available and the request is encoded, its bytes are sent on the
    outputport: if the port accepts them the request is logged, once as
    'TX' and once as 'TRIGGER'; if the port refuses them the error is
    printed and logged as 'APP-ERR'.  In both cases [executeTrigger]
    completes normally. *)
Theorem midi_trigger_request_comes_from_the_trigger :
  forall (E : env) (trigger : Trigger.t) (midiData : MidiData.t) (w : world),
    Trigger.actiontype trigger = JStr "midi" ->
    let midiObj := triggerMidiObj trigger in
    let outputport := Trigger.outputport trigger in
    let announced := add_effect w (announce trigger) in
    executeTrigger E trigger midiData w
    = (emit (announce trigger) ;;
       async_call (sendMIDI E midiObj (trigger_callback trigger))) w
    /\ (forall midiData',
          executeTrigger E trigger midiData' w = executeTrigger E trigger midiData w)
    /\ (forall message w1,
          jzzEngine w = true \/ JZZ E = None ->
          existsb (strict_eq outputport) (openOutputs w) = true
          \/ openMidiOut E outputport = None ->
          sendMIDI_message midiObj (opened (started announced) outputport)
          = (Ok (Some message), w1) ->
          (output_send E outputport message = None ->
           executeTrigger E trigger midiData w
           = (Ok tt,
              snd (addToLog "TRIGGER" (JStr "MIDI") outputport (DataMidiObj midiObj)
                     (snd (addToLog "TX" outputport (MidiObj.midicommand midiObj)
                             (DataMidiObj midiObj)
                             (add_effect w1 (OutputSend outputport message)))))))
          /\ (forall e,
                output_send E outputport message = Some e ->
                executeTrigger E trigger midiData w
                = (Ok tt,
                   snd (addToLog "APP-ERR" (JStr "MIDI Trigger") outputport
                          (DataFields [("error", js_or (JStr e) (JStr "error"))])
                          (add_effect
                             (add_effect w1 (OutputSend outputport message))
                             (ConsoleError [JStr "Error sending MIDI:"; JStr e]))))))
    /\ MidiObj.midiport midiObj = Trigger.outputport trigger
    /\ (Trigger.outputcommand trigger = JUndefined ->
        MidiObj.midicommand midiObj = Trigger.midicommand trigger)
    /\ (Trigger.outputchannel trigger = JUndefined ->
        MidiObj.channel midiObj = Trigger.channel trigger)
    /\ (Trigger.outputnote trigger = JUndefined ->
        MidiObj.note midiObj = Trigger.note trigger)
    /\ (Trigger.outputvelocity trigger = JUndefined ->
        MidiObj.velocity midiObj = Trigger.velocity trigger)
    /\ (Trigger.outputcontroller trigger = JUndefined ->
        MidiObj.controller midiObj = Trigger.controller trigger)
    /\ (Trigger.outputvalue trigger = JUndefined ->
        MidiObj.value midiObj = Trigger.value trigger)
    /\ (Trigger.outputchannel trigger = JUndefined ->
        Trigger.channel trigger = JStr "*" ->
        MidiObj.channel midiObj = JStr "*").
Proof.
  intros E trigger midiData w Hmidi midiObj outputport announced.
  assert (Hrun : forall d,
             executeTrigger E trigger d w
             = (emit (announce trigger) ;;
                async_call (sendMIDI E midiObj (trigger_callback trigger))) w).
  { intros d; unfold executeTrigger; rewrite Hmidi; reflexivity. }
  assert (Hlog : forall result w0,
             trigger_callback trigger result w0
             = (Ok tt, snd (trigger_callback trigger result w0))).
  { intros result w0; pose proof (trigger_callback_logs trigger result w0) as H.
    destruct (trigger_callback trigger result w0) as [r w2].
    simpl in H; subst r; reflexivity. }
  split; [apply Hrun |].
  split; [intros d; now rewrite !Hrun |].
  split.
  { intros message w1 He Hport Hmessage; split.
    - intros Haccept; rewrite Hrun; unfold bind at 1, emit, async_call.
      fold announced.
      rewrite (sendMIDI_sent E midiObj message (trigger_callback trigger)
                 announced w1 He Hport Hmessage Haccept).
      unfold try_catch; rewrite Hlog; reflexivity.
    - intros e Hrefuse; rewrite Hrun; unfold bind at 1, emit, async_call.
      fold announced.
      rewrite (sendMIDI_refused E midiObj message e (trigger_callback trigger)
                 announced w1 He Hport Hmessage Hrefuse).
      unfold sendMIDI_catch, bind, emit; rewrite Hlog; reflexivity. }
  unfold midiObj, triggerMidiObj; simpl.
  split; [reflexivity |].
  split; [intros ->; apply js_or_absent |].
  repeat (split; [intros ->; apply js_coalesce_absent |]).
  intros -> ->; reflexivity.
Qed.

Lemma midi_trigger_request_comes_from_the_trigger_witness :
  let trigger :=
    plain_trigger (JStr "noteon") (JNum 0) (JNum 60) JUndefined JUndefined
      (JStr "midi") JUndefined (JStr "Out") in
  let request := noteon_request (JStr "Out") (JNum 0) (JNum 60) JUndefined in
  triggerMidiObj trigger = request
  /\ MidiObj.channel (triggerMidiObj trigger) = Trigger.channel trigger
  /\ trace (snd (executeTrigger quiet_env trigger (parseMSC []) idle_world))
     = [announce trigger;
        ConsoleLog [JStr "JZZ MIDI engine initialized"];
        OutputSend (JStr "Out") [JNum 0x90; JNum 60; JNum 127]]
  /\ MIDIRelaysLog (snd (executeTrigger quiet_env trigger (parseMSC []) idle_world))
     = [mkLogEntry 0 "TX" (JStr "Out") (JStr "noteon") (DataMidiObj request);
        mkLogEntry 0 "TRIGGER" (JStr "MIDI") (JStr "Out") (DataMidiObj request)].
Proof.
  intros trigger request.
  assert (Hmidi : Trigger.actiontype trigger = JStr "midi") by reflexivity.
  destruct (midi_trigger_request_comes_from_the_trigger quiet_env trigger
              (parseMSC []) idle_world Hmidi)
    as [_ [_ [Hsend [_ [_ [Hchannel _]]]]]].
  split; [reflexivity |].
  split; [apply Hchannel; reflexivity |].
  destruct (Hsend [JNum 0x90; JNum 60; JNum 127]
              (opened (started (add_effect idle_world (announce trigger)))
                 (JStr "Out")))
    as [Haccepted _];
    [right; reflexivity | right; reflexivity | reflexivity |].
  rewrite (Haccepted eq_refl).
  split; reflexivity.
Defined.

(* ================================================================== *)
(** ** Validation                                                      *)
(* ================================================================== *)

Lemma strict_eq_undefined (v : jsval) :
  strict_eq v JUndefined = true <-> v = JUndefined.
Proof. destruct v; simpl; split; intros; congruence. Qed.

Lemma error_of_nil (r : value_result) : error_of r = [] <-> valid r = true.
Proof. destruct r; simpl; split; intros; congruence. Qed.

Lemma app_nil_iff {A} (l1 l2 : list A) :
  (l1 ++ l2)%list = [] <-> l1 = [] /\ l2 = [].
Proof.
  split.
  - apply app_eq_nil.
  - intros [-> ->]; reflexivity.
Qed.

Lemma finish_valid (errors : list string) : finish errors = Valid <-> errors = [].
Proof.
  unfold finish; destruct errors; simpl; split; intros; congruence.
Qed.

(** The range check of [validateMIDIValue] on a known parameter. *)
Lemma validateMIDIValue_valid (paramName : string) (lim : limits) (v : jsval) :
  own_limits MIDI_LIMITS paramName = Some lim ->
  valid (validateMIDIValue paramName v false) = true
  <-> within (min lim) (max lim) v.
Proof.
  intros Hlim; unfold validateMIDIValue, within; rewrite Hlim.
  cbn [andb].
  destruct (parseInt true v) as [num |].
  - destruct (Z.ltb_spec num (min lim)) as [Hlo | Hlo];
      destruct (Z.gtb_spec num (max lim)) as [Hhi | Hhi];
      cbn [orb valid];
      (split;
       [ intros H;
         first [ discriminate H | exists num; split; [reflexivity | lia] ]
       | intros [n [Hn Hr]]; injection Hn as <-;
         first [ reflexivity | lia ] ]).
  - cbn [valid]; split; [discriminate | intros [n [Hn _]]; discriminate].
Qed.

(** The wildcard passes only when wildcards are allowed. *)
Lemma validateMIDIValue_wildcard (paramName : string) :
  validateMIDIValue paramName (JStr "*") true = ValueOk (JStr "*")
  /\ validateMIDIValue "channel" (JStr "*") false
     = ValueError "Channel must be a number, got: *".
Proof. split; reflexivity. Qed.

(** One guarded range check of [validateTriggerObject]. *)
Lemma criterion_errors_nil (applies : bool) (paramName : string)
  (lim : limits) (v : jsval) :
  own_limits MIDI_LIMITS paramName = Some lim ->
  (if applies && (negb (strict_eq v JUndefined) && negb (is_str v "*"))
   then error_of (validateMIDIValue paramName v false) else []) = []
  <-> (applies = true -> criterion_ok (min lim) (max lim) v).
Proof.
  intros Hlim; unfold criterion_ok.
  destruct applies; simpl; [| split; [discriminate | reflexivity]].
  destruct (strict_eq v JUndefined) eqn:Eu; simpl.
  - apply strict_eq_undefined in Eu; split; auto.
  - destruct (is_str v "*") eqn:Es; simpl.
    + apply strict_eq_true_iff in Es; split; auto.
    + rewrite error_of_nil, (validateMIDIValue_valid paramName lim v Hlim).
      apply is_str_false_iff in Es.
      assert (Hu : v <> JUndefined).
      { intros Hv; apply strict_eq_undefined in Hv; congruence. }
      split; [auto |].
      intros H; destruct (H eq_refl) as [? | [? | ?]]; congruence.
Qed.

(** The three checks on the action of a trigger. *)
Lemma action_errors_nil (a url outputport : jsval) :
  ((if negb (truthy a) then ["actiontype is required"]
    else if negb (includes ["http"; "midi"] a)
         then ["Invalid actiontype: " ++ toString a ++ ". Valid types: http, midi"]
         else []) = []
   /\ (if is_str a "http" && negb (truthy url)
       then ["url is required for http action"] else []) = []
   /\ (if is_str a "midi" && negb (truthy outputport)
       then ["outputport is required for midi action"] else []) = [])
  <-> ((a = JStr "http" /\ truthy url = true)
       \/ (a = JStr "midi" /\ truthy outputport = true)).
Proof.
  unfold includes; cbn [existsb].
  destruct (is_str a "http") eqn:Eh.
  - apply strict_eq_true_iff in Eh; subst a; simpl.
    destruct (truthy url); simpl; split; intros H.
    + left; auto.
    + repeat split.
    + destruct H as [_ [H _]]; discriminate.
    + destruct H as [[_ H] | [H _]]; discriminate.
  - destruct (is_str a "midi") eqn:Em.
    + apply strict_eq_true_iff in Em; subst a; simpl.
      destruct (truthy outputport); simpl; split; intros H.
      * right; auto.
      * repeat split.
      * destruct H as [_ [_ H]]; discriminate.
      * destruct H as [[H _] | [_ H]]; discriminate.
    + apply is_str_false_iff in Eh, Em.
      cbn [orb andb negb].
      split; intros H.
      * destruct H as [H _]; destruct (negb (truthy a)); discriminate.
      * destruct H as [[H _] | [H _]]; congruence.
Qed.

(** A 'cc' trigger that gives no channel, controller or value is valid,
    although the same criteria are rejected, field by field, as a MIDI
    request. *)
Lemma trigger_fields_are_not_required :
  let t :=
    plain_trigger (JStr "cc") JUndefined JUndefined JUndefined JUndefined
      (JStr "http") (JStr "http://example.com/webhook") JUndefined in
  validateTriggerObject (Some t) = Ok Valid
  /\ validateMIDIObject (Some (criteria_request (JStr "Port") t))
     = Ok (Invalid ["channel is required for cc";
                    "controller is required for cc";
                    "value is required for cc"]).
Proof. split; reflexivity. Qed.

(** C2 (amended).  For a trigger whose midicommand is a string,
    [validateTriggerObject] requires none of the per-command fields of
    [validateMIDIObject].  The trigger is valid exactly when the
    midicommand, in lower case, is a valid command; the channel (for
    noteon, noteoff, cc, pc, pressure, pitchbend) is absent, the wildcard
    '*' or a value that [parseInt] reads in base 10 as an integer in
    [0,15] (so 7, '7' and also '7abc'); the note (for noteon, noteoff)
    is absent, '*' or a value that [parseInt] reads in base 10 as an
    integer in [0,127]; and the actiontype is 'http' with a url or
    'midi' with an outputport.  Controller, value and velocity are not
    examined.  Each failed check adds its own message to the one list
    of errors: 'midicommand is required', 'Invalid midicommand: ...',
    the range message of the channel, the range message of the note,
    'actiontype is required', 'Invalid actiontype: ... . Valid types:
    http, midi', 'url is required for http action' and 'outputport is
    required for midi action'; the list holds no other message. *)
Theorem trigger_validation_requirements :
  forall (t : Trigger.t) (c : string),
    Trigger.midicommand t = JStr c ->
    exists errors,
      validateTriggerObject (Some t) = Ok (finish errors)
      /\ (errors = [] <->
          has VALID_MIDI_COMMANDS (lower c) = true
          /\ (has channel_commands (lower c) = true ->
              criterion_ok 0 15 (Trigger.channel t))
          /\ (has note_commands (lower c) = true ->
              criterion_ok 0 127 (Trigger.note t))
          /\ ((Trigger.actiontype t = JStr "http" /\ truthy (Trigger.url t) = true)
              \/ (Trigger.actiontype t = JStr "midi"
                  /\ truthy (Trigger.outputport t) = true)))
      /\ (c = "" -> In "midicommand is required" errors)
      /\ (c <> "" ->
          has VALID_MIDI_COMMANDS (lower c) = false ->
          In ("Invalid midicommand: " ++ c) errors)
      /\ (forall e,
            has channel_commands (lower c) = true ->
            Trigger.channel t <> JUndefined ->
            Trigger.channel t <> JStr "*" ->
            validateMIDIValue "channel" (Trigger.channel t) false = ValueError e ->
            In e errors)
      /\ (forall e,
            has note_commands (lower c) = true ->
            Trigger.note t <> JUndefined ->
            Trigger.note t <> JStr "*" ->
            validateMIDIValue "note" (Trigger.note t) false = ValueError e ->
            In e errors)
      /\ (truthy (Trigger.actiontype t) = false ->
          In "actiontype is required" errors)
      /\ (truthy (Trigger.actiontype t) = true ->
          Trigger.actiontype t <> JStr "http" ->
          Trigger.actiontype t <> JStr "midi" ->
          In ("Invalid actiontype: " ++ toString (Trigger.actiontype t)
              ++ ". Valid types: http, midi") errors)
      /\ (Trigger.actiontype t = JStr "http" ->
          truthy (Trigger.url t) = false ->
          In "url is required for http action" errors)
      /\ (Trigger.actiontype t = JStr "midi" ->
          truthy (Trigger.outputport t) = false ->
          In "outputport is required for midi action" errors)
      /\ (forall e,
            In e errors ->
            e = "midicommand is required"
            \/ e = "Invalid midicommand: " ++ c
            \/ validateMIDIValue "channel" (Trigger.channel t) false = ValueError e
            \/ validateMIDIValue "note" (Trigger.note t) false = ValueError e
            \/ e = "actiontype is required"
            \/ e = "Invalid actiontype: " ++ toString (Trigger.actiontype t)
                   ++ ". Valid types: http, midi"
            \/ e = "url is required for http action"
            \/ e = "outputport is required for midi action").
Proof.
  intros t c Hc.
  assert (Hchan : own_limits MIDI_LIMITS "channel" = Some (mkLimits 0 15 "Channel"))
    by reflexivity.
  assert (Hnote : own_limits MIDI_LIMITS "note" = Some (mkLimits 0 127 "Note"))
    by reflexivity.
  unfold validateTriggerObject; rewrite Hc.
  change ["noteon"; "noteoff"; "cc"; "pc"; "pressure"; "pitchbend"]
    with channel_commands.
  change ["noteon"; "noteoff"] with note_commands.
  assert (Hcmd : exists e_command,
             (if negb (truthy (JStr c))
              then Ok ["midicommand is required"]
              else
                do lc <- toLowerCase (JStr c);
                if negb (has VALID_MIDI_COMMANDS lc)
                then Ok ["Invalid midicommand: " ++ toString (JStr c)]
                else Ok []) = Ok e_command
             /\ (e_command = [] <-> has VALID_MIDI_COMMANDS (lower c) = true)
             /\ (c = "" -> In "midicommand is required" e_command)
             /\ (c <> "" -> has VALID_MIDI_COMMANDS (lower c) = false ->
                 In ("Invalid midicommand: " ++ c) e_command)
             /\ (forall e, In e e_command ->
                   e = "midicommand is required"
                   \/ e = "Invalid midicommand: " ++ c)).
  { destruct c as [| a c'].
    - eexists; split; [reflexivity |]; split; [| split; [| split]].
      + split; discriminate.
      + intros _; left; reflexivity.
      + intros H; now destruct H.
      + intros e [<- | []]; left; reflexivity.
    - cbn [truthy negb String.eqb rbind toLowerCase toString].
      destruct (has VALID_MIDI_COMMANDS (lower (String a c'))); cbn [negb].
      + exists []; split; [reflexivity |]; split; [split; reflexivity |].
        split; [discriminate |]; split; [intros _ H; discriminate H |].
        intros e [].
      + eexists; split; [reflexivity |]; split; [split; discriminate |].
        split; [discriminate |]; split; [intros _ _; left; reflexivity |].
        intros e [<- | []]; right; reflexivity. }
  destruct Hcmd as [e_command [Hcommand [Hnil [Hreq [Hinvalid Hfrom]]]]].
  rewrite Hcommand; cbn [rbind].
  assert (Hlower : toLowerCase (js_or (JStr c) (JStr "")) = Ok (lower c)).
  { destruct c; reflexivity. }
  rewrite Hlower; cbn [rbind]; cbv zeta.
  rewrite <- andb_assoc.
  eexists; split; [reflexivity |].
  split.
  { rewrite !app_nil_iff, Hnil.
    rewrite (criterion_errors_nil _ "channel" _ (Trigger.channel t) Hchan).
    rewrite (criterion_errors_nil _ "note" _ (Trigger.note t) Hnote).
    rewrite action_errors_nil.
    reflexivity. }
  assert (Hnot_undef : forall v, v <> JUndefined -> strict_eq v JUndefined = false).
  { intros v Hv; destruct (strict_eq v JUndefined) eqn:Eu; [| reflexivity].
    apply strict_eq_undefined in Eu; contradiction. }
  assert (Herror : forall r e, In e (error_of r) -> r = ValueError e).
  { intros r e; destruct r; simpl; intros H; [destruct H |].
    destruct H as [<- | []]; reflexivity. }
  split; [| split; [| split; [| split; [| split; [| split; [| split; [| split]]]]]]].
  - intros Hempty; apply in_or_app; left; auto.
  - intros Hne Hbad; apply in_or_app; left; auto.
  - intros e Happ Hu Hs Hv.
    apply in_or_app; right; apply in_or_app; left.
    apply is_str_false_iff in Hs.
    rewrite Happ, (Hnot_undef _ Hu), Hs, Hv; left; reflexivity.
  - intros e Happ Hu Hs Hv.
    apply in_or_app; right; apply in_or_app; right; apply in_or_app; left.
    apply is_str_false_iff in Hs.
    rewrite Happ, (Hnot_undef _ Hu), Hs, Hv; left; reflexivity.
  - intros Hfalsy.
    do 3 (apply in_or_app; right); apply in_or_app; left.
    rewrite Hfalsy; left; reflexivity.
  - intros Htruthy Hhttp Hmidi.
    do 3 (apply in_or_app; right); apply in_or_app; left.
    rewrite Htruthy; cbn [negb].
    apply is_str_false_iff in Hhttp, Hmidi.
    unfold includes; cbn [existsb]; rewrite Hhttp, Hmidi.
    left; reflexivity.
  - intros Hhttp Hurl.
    do 4 (apply in_or_app; right); apply in_or_app; left.
    rewrite Hhttp, Hurl; left; reflexivity.
  - intros Hmidi Hport.
    do 5 (apply in_or_app; right).
    rewrite Hmidi, Hport; left; reflexivity.
  - intros e Hin.
    apply in_app_or in Hin; destruct Hin as [Hin | Hin].
    { destruct (Hfrom e Hin) as [-> | ->]; [left | right; left]; reflexivity. }
    apply in_app_or in Hin; destruct Hin as [Hin | Hin].
    { right; right; left.
      destruct (has channel_commands (lower c)
                && (negb (strict_eq (Trigger.channel t) JUndefined)
                    && negb (is_str (Trigger.channel t) "*")));
        [now apply Herror | destruct Hin]. }
    apply in_app_or in Hin; destruct Hin as [Hin | Hin].
    { right; right; right; left.
      destruct (has note_commands (lower c)
                && (negb (strict_eq (Trigger.note t) JUndefined)
                    && negb (is_str (Trigger.note t) "*")));
        [now apply Herror | destruct Hin]. }
    apply in_app_or in Hin; destruct Hin as [Hin | Hin].
    { do 4 right.
      destruct (negb (truthy (Trigger.actiontype t)));
        [destruct Hin as [<- | []]; left; reflexivity |].
      destruct (negb (includes ["http"; "midi"] (Trigger.actiontype t)));
        [destruct Hin as [<- | []]; right; left; reflexivity | destruct Hin]. }
    apply in_app_or in Hin; destruct Hin as [Hin | Hin].
    { do 6 right; left.
      destruct (is_str (Trigger.actiontype t) "http"
                && negb (truthy (Trigger.url t)));
        [destruct Hin as [<- | []]; reflexivity | destruct Hin]. }
    do 7 right.
    destruct (is_str (Trigger.actiontype t) "midi"
              && negb (truthy (Trigger.outputport t)));
      [destruct Hin as [<- | []]; reflexivity | destruct Hin].
Qed.

Lemma trigger_validation_requirements_witness :
  validateTriggerObject
    (Some (plain_trigger (JStr "noteon") (JStr "*") (JNum 60) JUndefined
             JUndefined (JStr "http") (JStr "http://example.com/webhook")
             JUndefined))
  = Ok Valid.
Proof.
  destruct (trigger_validation_requirements
              (plain_trigger (JStr "noteon") (JStr "*") (JNum 60) JUndefined
                 JUndefined (JStr "http") (JStr "http://example.com/webhook")
                 JUndefined)
              "noteon" eq_refl)
    as [errors [Hresult [Hvalid _]]].
  rewrite Hresult; f_equal; apply finish_valid, Hvalid.
  split; [reflexivity |].
  split; [intros _; right; left; reflexivity |].
  split; [intros _; right; right; exists 60; split; [reflexivity | lia] |].
  left; split; reflexivity.
Defined.

(* ================================================================== *)
(** ** Codec: channel-voice round trips                                *)
(* ================================================================== *)

(** A channel-voice status byte splits into its command and channel. *)
Lemma voice_status_split (cmd ch : Z) :
  In cmd [0x80; 0x90; 0xb0; 0xc0; 0xd0; 0xe0] ->
  0 <= ch <= 15 ->
  js_and (JNum (cmd + ch)) (JNum 0xf0) = cmd
  /\ js_and (JNum (cmd + ch)) (JNum 0x0f) = ch.
Proof.
  intros Hcmd Hch; apply channel_cases in Hch.
  simpl in Hcmd.
  repeat (destruct Hcmd as [<- | Hcmd];
          [repeat (destruct Hch as [<- | Hch]; [split; reflexivity |]);
           destruct Hch |]).
  destruct Hcmd.
Qed.

Lemma receiveMIDI_noteoff (ch note vel : Z) :
  0 <= ch <= 15 ->
  receiveMIDI_classify [0x80 + ch; note; vel]
  = Some ("noteoff",
          voice_data ch [0x80 + ch; note; vel] (JNum note) (JNum vel)
            JUndefined JUndefined).
Proof.
  intros H.
  destruct (voice_status_split 0x80 ch) as [Hc Hn]; [simpl; auto | exact H |].
  unfold receiveMIDI_classify.
  change (index [0x80 + ch; note; vel] 0) with (JNum (0x80 + ch)).
  rewrite Hc, Hn; reflexivity.
Qed.

Lemma receiveMIDI_cc (ch controller value : Z) :
  0 <= ch <= 15 ->
  receiveMIDI_classify [0xb0 + ch; controller; value]
  = Some ("cc",
          voice_data ch [0xb0 + ch; controller; value] JUndefined JUndefined
            (JNum controller) (JNum value)).
Proof.
  intros H.
  destruct (voice_status_split 0xb0 ch) as [Hc Hn]; [simpl; auto | exact H |].
  unfold receiveMIDI_classify.
  change (index [0xb0 + ch; controller; value] 0) with (JNum (0xb0 + ch)).
  rewrite Hc, Hn; reflexivity.
Qed.

Lemma receiveMIDI_pc (ch value : Z) :
  0 <= ch <= 15 ->
  receiveMIDI_classify [0xc0 + ch; value]
  = Some ("pc",
          voice_data ch [0xc0 + ch; value] JUndefined JUndefined JUndefined
            (JNum value)).
Proof.
  intros H.
  destruct (voice_status_split 0xc0 ch) as [Hc Hn]; [simpl; auto 6 | exact H |].
  unfold receiveMIDI_classify.
  change (index [0xc0 + ch; value] 0) with (JNum (0xc0 + ch)).
  rewrite Hc, Hn; reflexivity.
Qed.

Lemma receiveMIDI_pressure (ch value : Z) :
  0 <= ch <= 15 ->
  receiveMIDI_classify [0xd0 + ch; value]
  = Some ("pressure",
          voice_data ch [0xd0 + ch; value] JUndefined JUndefined JUndefined
            (JNum value)).
Proof.
  intros H.
  destruct (voice_status_split 0xd0 ch) as [Hc Hn]; [simpl; auto 6 | exact H |].
  unfold receiveMIDI_classify.
  change (index [0xd0 + ch; value] 0) with (JNum (0xd0 + ch)).
  rewrite Hc, Hn; reflexivity.
Qed.

(** X1.  A note-on request with velocity in 1..127 (or with no velocity,
    which is sent as 127) and a note-off request with any velocity in
    0..127 (or none, sent as 0), on a channel in 0..15, are encoded as
    three bytes that decode to an event of the same type with the same
    channel, note and velocity. *)
Theorem note_messages_round_trip :
  forall (midiport : jsval) (ch note vel : Z) (w : world),
    0 <= ch <= 15 ->
    (1 <= vel <= 127 ->
     sendMIDI_message
       (voice_request midiport "noteon" (JNum ch) (JNum note) (JNum vel)
          JUndefined JUndefined) w
     = (Ok (Some (map JNum [0x90 + ch; note; vel])), w)
     /\ receiveMIDI_classify [0x90 + ch; note; vel]
        = Some ("noteon",
                voice_data ch [0x90 + ch; note; vel] (JNum note) (JNum vel)
                  JUndefined JUndefined))
    /\ sendMIDI_message
         (voice_request midiport "noteon" (JNum ch) (JNum note) JUndefined
            JUndefined JUndefined) w
       = (Ok (Some (map JNum [0x90 + ch; note; 127])), w)
    /\ (0 <= vel <= 127 ->
        sendMIDI_message
          (voice_request midiport "noteoff" (JNum ch) (JNum note) (JNum vel)
             JUndefined JUndefined) w
        = (Ok (Some (map JNum [0x80 + ch; note; vel])), w)
        /\ receiveMIDI_classify [0x80 + ch; note; vel]
           = Some ("noteoff",
                   voice_data ch [0x80 + ch; note; vel] (JNum note) (JNum vel)
                     JUndefined JUndefined))
    /\ sendMIDI_message
         (voice_request midiport "noteoff" (JNum ch) (JNum note) JUndefined
            JUndefined JUndefined) w
       = (Ok (Some (map JNum [0x80 + ch; note; 0])), w).
Proof.
  intros midiport ch note vel w Hch.
  split; [| split; [reflexivity | split; [| reflexivity]]].
  - intros Hvel; split.
    + apply sendMIDI_message_noteon; lia.
    + apply receiveMIDI_noteon_positive_velocity; [exact Hch | lia].
  - intros Hvel; split.
    + unfold sendMIDI_message, voice_request, bind, lift, ret; simpl.
      unfold js_or; simpl.
      destruct (Z.eqb_spec vel 0) as [-> | _]; reflexivity.
    + now apply receiveMIDI_noteoff.
Qed.

Lemma note_messages_round_trip_witness :
  sendMIDI_message
    (voice_request (JStr "Port") "noteon" (JNum 9) (JNum 36) (JNum 100)
       JUndefined JUndefined) idle_world
  = (Ok (Some (map JNum [0x90 + 9; 36; 100])), idle_world)
  /\ receiveMIDI_classify [0x90 + 9; 36; 100]
     = Some ("noteon",
             voice_data 9 [0x90 + 9; 36; 100] (JNum 36) (JNum 100)
               JUndefined JUndefined).
Proof.
  assert (Hch : 0 <= 9 <= 15) by lia.
  destruct (note_messages_round_trip (JStr "Port") 9 36 100 idle_world Hch)
    as [Hon _].
  apply Hon; lia.
Defined.

(** X2.  Control-change, program-change and channel-pressure requests
    on a channel in 0..15 are encoded as [status + channel] followed by
    their parameters, and the bytes decode to an event of the same type
    with the same channel, controller and value. *)
Theorem controller_messages_round_trip :
  forall (midiport : jsval) (ch controller value : Z) (w : world),
    0 <= ch <= 15 ->
    (sendMIDI_message
       (voice_request midiport "cc" (JNum ch) JUndefined JUndefined
          (JNum controller) (JNum value)) w
     = (Ok (Some (map JNum [0xb0 + ch; controller; value])), w)
     /\ receiveMIDI_classify [0xb0 + ch; controller; value]
        = Some ("cc",
                voice_data ch [0xb0 + ch; controller; value] JUndefined
                  JUndefined (JNum controller) (JNum value)))
    /\ (sendMIDI_message
          (voice_request midiport "pc" (JNum ch) JUndefined JUndefined
             JUndefined (JNum value)) w
        = (Ok (Some (map JNum [0xc0 + ch; value])), w)
        /\ receiveMIDI_classify [0xc0 + ch; value]
           = Some ("pc",
                   voice_data ch [0xc0 + ch; value] JUndefined JUndefined
                     JUndefined (JNum value)))
    /\ (sendMIDI_message
          (voice_request midiport "pressure" (JNum ch) JUndefined JUndefined
             JUndefined (JNum value)) w
        = (Ok (Some (map JNum [0xd0 + ch; value])), w)
        /\ receiveMIDI_classify [0xd0 + ch; value]
           = Some ("pressure",
                   voice_data ch [0xd0 + ch; value] JUndefined JUndefined
                     JUndefined (JNum value))).
Proof.
  intros midiport ch controller value w Hch.
  split; [| split]; (split; [reflexivity |]).
  - now apply receiveMIDI_cc.
  - now apply receiveMIDI_pc.
  - now apply receiveMIDI_pressure.
Qed.

Lemma controller_messages_round_trip_witness :
  sendMIDI_message
    (voice_request (JStr "Port") "cc" (JNum 0) JUndefined JUndefined
       (JNum 7) (JNum 100)) idle_world
  = (Ok (Some (map JNum [0xb0 + 0; 7; 100])), idle_world)
  /\ receiveMIDI_classify [0xb0 + 0; 7; 100]
     = Some ("cc",
             voice_data 0 [0xb0 + 0; 7; 100] JUndefined JUndefined
               (JNum 7) (JNum 100)).
Proof.
  assert (Hch : 0 <= 0 <= 15) by lia.
  destruct (controller_messages_round_trip (JStr "Port") 0 7 100 idle_world Hch)
    as [Hcc _].
  exact Hcc.
Defined.

(** Splitting a 14-bit value into two 7-bit halves and joining them
    again, with the 32-bit operators. *)
Lemma pitchbend_bits (v : Z) :
  0 <= v <= 16383 ->
  let lsb := js_and (JNum v) (JNum 0x7f) in
  let msb := Z.land (js_shr (JNum v) 7) 0x7f in
  0 <= lsb <= 127 /\ 0 <= msb <= 127
  /\ Z.lor (to_int32 (JNum lsb)) (js_shl (JNum msb) 7) = v.
Proof.
  intros Hv.
  set (check := fun v =>
         let lsb := js_and (JNum v) (JNum 0x7f) in
         let msb := Z.land (js_shr (JNum v) 7) 0x7f in
         (0 <=? lsb) && (lsb <=? 127) && (0 <=? msb) && (msb <=? 127)
         && (Z.lor (to_int32 (JNum lsb)) (js_shl (JNum msb) 7) =? v)).
  set (count := Z.to_nat 16384).
  assert (Hall : forallb check (zrange 0 count) = true)
    by (vm_compute; reflexivity).
  rewrite forallb_forall in Hall.
  assert (Hin : In v (zrange 0 count))
    by (apply in_zrange; unfold count; lia).
  specialize (Hall v Hin); unfold check in Hall; cbv zeta in Hall.
  repeat (apply andb_true_iff in Hall; destruct Hall as [Hall ?]).
  cbv zeta.
  repeat match goal with
         | H : (_ <=? _) = true |- _ => apply Z.leb_le in H
         | H : (_ =? _) = true |- _ => apply Z.eqb_eq in H
         end.
  repeat split; assumption.
Qed.

(** X3.  A pitch-bend request with a value in 0..16383 on a channel in
    0..15 is encoded as [0xE0 + channel] followed by the low and the high
    seven bits of the value, both data bytes, and the three bytes decode
    to a 'pitchbend' event with the same channel and the same value. *)
Theorem pitchbend_round_trip :
  forall (midiport : jsval) (ch value : Z) (w : world),
    0 <= ch <= 15 ->
    0 <= value <= 16383 ->
    exists lsb msb,
      0 <= lsb <= 127 /\ 0 <= msb <= 127
      /\ value = lsb + 128 * msb
      /\ sendMIDI_message
           (voice_request midiport "pitchbend" (JNum ch) JUndefined JUndefined
              JUndefined (JNum value)) w
         = (Ok (Some (map JNum [0xe0 + ch; lsb; msb])), w)
      /\ receiveMIDI_classify [0xe0 + ch; lsb; msb]
         = Some ("pitchbend",
                 voice_data ch [0xe0 + ch; lsb; msb] JUndefined JUndefined
                   JUndefined (JNum value)).
Proof.
  intros midiport ch value w Hch Hv.
  destruct (pitchbend_bits value Hv) as [Hl [Hm Hjoin]].
  set (lsb := js_and (JNum value) (JNum 0x7f)) in *.
  set (msb := Z.land (js_shr (JNum value) 7) 0x7f) in *.
  exists lsb, msb.
  split; [exact Hl |]; split; [exact Hm |]; split.
  - unfold lsb, msb, js_and, js_shr, to_int32, to_number.
    assert (Hwrap : toInt32 value = value).
    { unfold toInt32; rewrite Z.mod_small; lia. }
    rewrite Hwrap.
    change (toInt32 0x7f) with (Z.ones 7).
    change (7 mod 32) with 7.
    change 0x7f with (Z.ones 7).
    rewrite !Z.land_ones, Z.shiftr_div_pow2 by lia.
    change (2 ^ 7) with 128.
    rewrite (Z.mod_small (value / 128) 128)
      by (split; [apply Z.div_pos; lia | apply Z.div_lt_upper_bound; lia]).
    pose proof (Z.div_mod value 128); lia.
  - split; [reflexivity |].
    destruct (voice_status_split 0xe0 ch) as [Hc Hn]; [simpl; auto 7 | exact Hch |].
    unfold receiveMIDI_classify.
    change (index [0xe0 + ch; lsb; msb] 0) with (JNum (0xe0 + ch)).
    rewrite Hc, Hn.
    change (index [0xe0 + ch; lsb; msb] 1) with (JNum lsb).
    change (index [0xe0 + ch; lsb; msb] 2) with (JNum msb).
    rewrite Hjoin; reflexivity.
Qed.

Lemma pitchbend_round_trip_witness :
  exists lsb msb,
    0 <= lsb <= 127 /\ 0 <= msb <= 127
    /\ 8192 = lsb + 128 * msb
    /\ sendMIDI_message
         (voice_request (JStr "Port") "pitchbend" (JNum 3) JUndefined JUndefined
            JUndefined (JNum 8192)) idle_world
       = (Ok (Some (map JNum [0xe0 + 3; lsb; msb])), idle_world)
    /\ receiveMIDI_classify [0xe0 + 3; lsb; msb]
       = Some ("pitchbend",
               voice_data 3 [0xe0 + 3; lsb; msb] JUndefined JUndefined
                 JUndefined (JNum 8192)).
Proof.
  apply (pitchbend_round_trip (JStr "Port") 3 8192 idle_world); lia.
Defined.

(** X4.  A received note-on status whose velocity byte is 0 or missing
    (a truncated message) is classified 'noteoff'; the event keeps the
    channel and whatever note and velocity bytes are present. *)
Theorem noteon_without_velocity_is_noteoff :
  forall (ch : Z) (data : list Z),
    0 <= ch <= 15 ->
    (forall v, nth_error data 1 = Some v -> v <= 0) ->
    receiveMIDI_classify ((0x90 + ch) :: data)
    = Some ("noteoff",
            voice_data ch ((0x90 + ch) :: data) (index data 0) (index data 1)
              JUndefined JUndefined).
Proof.
  intros ch data Hch Hvel.
  destruct (voice_status_split 0x90 ch) as [Hc Hn]; [simpl; auto | exact Hch |].
  unfold receiveMIDI_classify.
  change (index ((0x90 + ch) :: data) 0) with (JNum (0x90 + ch)).
  rewrite Hc, Hn.
  change (index ((0x90 + ch) :: data) 1) with (index data 0).
  change (index ((0x90 + ch) :: data) 2) with (index data 1).
  change (0x90 =? 0x90) with true; cbv iota.
  assert (Hgt : js_gt (index data 1) (JNum 0) = false).
  { unfold js_gt, index.
    destruct (nth_error data 1) as [v |] eqn:Ev; [| reflexivity].
    simpl; specialize (Hvel v eq_refl).
    destruct (Z.gtb_spec v 0); [lia | reflexivity]. }
  rewrite Hgt; reflexivity.
Qed.

Lemma noteon_without_velocity_is_noteoff_witness :
  receiveMIDI_classify ((0x90 + 2) :: [60])
  = Some ("noteoff",
          voice_data 2 ((0x90 + 2) :: [60]) (index [60] 0) (index [60] 1)
            JUndefined JUndefined).
Proof.
  apply (noteon_without_velocity_is_noteoff 2 [60]).
  - lia.
  - intros v Hv; discriminate Hv.
Defined.

(* ================================================================== *)
(** ** Codec: MIDI Show Control                                        *)
(* ================================================================== *)

Lemma own_property_nonzero (table : list (string * Z)) (key : string) (v : Z) :
  Forall (fun kv => snd kv <> 0) table ->
  own_property table key = Some v ->
  v <> 0.
Proof.
  induction table as [| [k x] rest IH]; intros Hall Hown; [discriminate |].
  inversion Hall as [| ? ? Hx Hrest]; subst.
  simpl in Hown; destruct (k =? key)%string.
  - injection Hown as <-; exact Hx.
  - now apply IH.
Qed.

Lemma formatMap_nonzero : Forall (fun kv => snd kv <> 0) formatMap.
Proof. repeat constructor; discriminate. Qed.

Lemma commandMap_nonzero : Forall (fun kv => snd kv <> 0) commandMap.
Proof. repeat constructor; discriminate. Qed.

(** A name of the table is mapped to its byte. *)
Lemma get_property_own (table : list (string * Z)) (key : string) (v d : Z) :
  Forall (fun kv => snd kv <> 0) table ->
  own_property table key = Some v ->
  js_or (get_property table (JStr key)) (JNum d) = JNum v.
Proof.
  intros Hall Hown.
  pose proof (own_property_nonzero table key v Hall Hown) as Hv.
  unfold get_property; simpl toString; rewrite Hown.
  unfold js_or; simpl.
  destruct (Z.eqb_spec v 0); [contradiction | reflexivity].
Qed.

Lemma char_codes_codes (s : string) : char_codes s = map JNum (codes s).
Proof. induction s as [| c r IH]; simpl; [| rewrite IH]; reflexivity. Qed.

(** One optional segment of [BuildMSC], for a cue that is a string or
    absent. *)
Lemma cue_step (separator : bool) (cue : option string) (msg : list Z)
  (w : world) :
  (if truthy (of_cue cue)
   then lift (do bytes <- stringToMSCData (of_cue cue);
              Ok (map JNum msg
                  ++ (if separator then [JNum 0x00] ++ bytes else bytes))%list)
   else ret (map JNum msg)) w
  = (Ok (map JNum (msg ++ cue_segment separator cue)), w).
Proof.
  destruct cue as [s |]; simpl.
  - destruct s as [| c r]; simpl.
    + now rewrite app_nil_r.
    + unfold lift; rewrite char_codes_codes.
      destruct separator; simpl; now rewrite map_app.
  - unfold ret; now rewrite app_nil_r.
Qed.

Lemma receiveMIDI_msc (id format : Z) (rest : list Z) :
  receiveMIDI_classify (0xf0 :: 0x7f :: id :: 0x02 :: format :: rest)
  = Some ("msc", parseMSC (0xf0 :: 0x7f :: id :: 0x02 :: format :: rest)).
Proof.
  unfold receiveMIDI_classify.
  change (index (0xf0 :: 0x7f :: id :: 0x02 :: format :: rest) 0) with (JNum 0xf0).
  change (index (0xf0 :: 0x7f :: id :: 0x02 :: format :: rest) 1) with (JNum 0x7f).
  change (index (0xf0 :: 0x7f :: id :: 0x02 :: format :: rest) 3) with (JNum 0x02).
  change (js_and (JNum 0xf0) (JNum 0xf0)) with 0xf0.
  change (strict_eq (JNum 0xf0) (JNum 0xf0)) with true.
  change (strict_eq (JNum 0x7f) (JNum 0x7f)) with true.
  change (strict_eq (JNum 0x02) (JNum 0x02)) with true.
  assert (Hge : (Z.of_nat (List.length (0xf0 :: 0x7f :: id :: 0x02 :: format :: rest))
                 >=? 5) = true).
  { apply Z.geb_le; simpl List.length; lia. }
  rewrite Hge; reflexivity.
Qed.

(** X5.  For a device id that resolves to the byte [id], a format name
    and a command name of the two tables, and cue, cue list and cue path
    that are strings or absent, [BuildMSC] returns
    [F0 7F id 02 format command], the character codes of the cue, the
    cue list and the cue path each after a 0x00 separator (also when the
    cue itself is absent), and [F7]; an empty string counts as absent.
    Decoding these bytes gives an 'msc' event with the same device id,
    format byte and command byte. *)
Theorem msc_round_trip :
  forall (deviceId : jsval) (formatName commandName : string)
         (id format command : Z) (cue cueList cuePath : option string)
         (w : world),
    deviceId_hex deviceId = Ok id ->
    own_property formatMap formatName = Some format ->
    own_property commandMap commandName = Some command ->
    let bytes :=
      ([0xf0; 0x7f; id; 0x02; format; command]
       ++ cue_segment false cue ++ cue_segment true cueList
       ++ cue_segment true cuePath ++ [0xf7])%list in
    BuildMSC deviceId (JStr formatName) (JStr commandName)
      (of_cue cue) (of_cue cueList) (of_cue cuePath) w
    = (Ok (map JNum bytes), w)
    /\ exists midiData,
         receiveMIDI_classify bytes = Some ("msc", midiData)
         /\ MidiData.deviceid midiData = JNum id
         /\ MidiData.commandformat midiData = JNum format
         /\ MidiData.command midiData = JNum command
         /\ MidiData.raw midiData = bytes.
Proof.
  intros deviceId formatName commandName id format command cue cueList cuePath
    w Hid Hformat Hcommand bytes.
  split.
  - unfold BuildMSC; rewrite Hid.
    rewrite (get_property_own formatMap formatName format 0x7f
               formatMap_nonzero Hformat).
    rewrite (get_property_own commandMap commandName command 0x01
               commandMap_nonzero Hcommand).
    change [JNum 0xf0; JNum 0x7f; JNum id; JNum 0x02; JNum format; JNum command]
      with (map JNum [0xf0; 0x7f; id; 0x02; format; command]).
    unfold bind at 1.
    rewrite (cue_step false cue [0xf0; 0x7f; id; 0x02; format; command] w).
    unfold bind at 1.
    rewrite (cue_step true cueList).
    unfold bind at 1.
    rewrite (cue_step true cuePath).
    unfold ret, bytes.
    change [JNum 0xf7] with (map JNum [0xf7]).
    rewrite <- map_app, <- !app_assoc; reflexivity.
  - exists (parseMSC bytes); split; [apply receiveMIDI_msc |].
    repeat split.
Qed.

Lemma msc_round_trip_witness :
  let bytes :=
    ([0xf0; 0x7f; 0x72; 0x02; 0x01; 0x01]
     ++ cue_segment false (Some "12") ++ cue_segment true (Some "3")
     ++ cue_segment true None ++ [0xf7])%list in
  BuildMSC (JStr "g3") (JStr "lighting.general") (JStr "go")
    (of_cue (Some "12")) (of_cue (Some "3")) (of_cue None) idle_world
  = (Ok (map JNum bytes), idle_world)
  /\ exists midiData,
       receiveMIDI_classify bytes = Some ("msc", midiData)
       /\ MidiData.deviceid midiData = JNum 0x72
       /\ MidiData.commandformat midiData = JNum 0x01
       /\ MidiData.command midiData = JNum 0x01
       /\ MidiData.raw midiData = bytes.
Proof.
  apply (msc_round_trip (JStr "g3") "lighting.general" "go" 0x72 0x01 0x01
           (Some "12") (Some "3") None idle_world); reflexivity.
Defined.

(** X6.  A cue, cue list or cue path that is truthy but not a string (a
    number such as 5, or true) makes [BuildMSC] raise a TypeError, since
    [stringToMSCData] splits its argument as a string: no message is
    returned. *)
Theorem msc_non_string_cue_raises :
  forall (deviceId commandFormat command bad : jsval) (id : Z)
         (cue cueList : option string) (w : world),
    deviceId_hex deviceId = Ok id ->
    truthy bad = true ->
    (forall s, bad <> JStr s) ->
    (forall cueList cuePath,
       BuildMSC deviceId commandFormat command bad cueList cuePath w
       = (Throw "TypeError", w))
    /\ (forall cuePath,
          BuildMSC deviceId commandFormat command (of_cue cue) bad cuePath w
          = (Throw "TypeError", w))
    /\ BuildMSC deviceId commandFormat command (of_cue cue) (of_cue cueList) bad w
       = (Throw "TypeError", w).
Proof.
  intros deviceId commandFormat command bad id cue cueList w Hid Htruthy Hbad.
  assert (Hraise : stringToMSCData bad = Throw "TypeError").
  { destruct bad; try reflexivity. now destruct (Hbad s). }
  assert (Hstep : forall (separator : bool) (o : option string) (msg : list jsval),
             exists msg',
               (if truthy (of_cue o)
                then lift (do bytes <- stringToMSCData (of_cue o);
                           Ok (msg ++ (if separator then [JNum 0x00] ++ bytes
                                       else bytes))%list)
                else ret msg) w = (Ok msg', w)).
  { intros separator o msg; destruct o as [s |]; simpl.
    - destruct s; simpl; eexists; reflexivity.
    - eexists; reflexivity. }
  split; [| split].
  - intros cl cp; unfold BuildMSC; rewrite Hid.
    unfold bind at 1; rewrite Htruthy, Hraise; reflexivity.
  - intros cp; unfold BuildMSC; rewrite Hid.
    unfold bind at 1.
    destruct (Hstep false cue
                [JNum 0xf0; JNum 0x7f; JNum id; JNum 0x02;
                 js_or (get_property formatMap commandFormat) (JNum 0x7f);
                 js_or (get_property commandMap command) (JNum 0x01)])
      as [msg1 H1].
    rewrite H1.
    unfold bind at 1; rewrite Htruthy, Hraise; reflexivity.
  - unfold BuildMSC; rewrite Hid.
    unfold bind at 1.
    destruct (Hstep false cue
                [JNum 0xf0; JNum 0x7f; JNum id; JNum 0x02;
                 js_or (get_property formatMap commandFormat) (JNum 0x7f);
                 js_or (get_property commandMap command) (JNum 0x01)])
      as [msg1 H1].
    rewrite H1.
    unfold bind at 1.
    destruct (Hstep true cueList msg1) as [msg2 H2].
    rewrite H2.
    unfold bind at 1; rewrite Htruthy, Hraise; reflexivity.
Qed.

Lemma msc_non_string_cue_raises_witness :
  BuildMSC (JNum 1) (JStr "lighting.general") (JStr "go") (JNum 5)
    JUndefined JUndefined idle_world
  = (Throw "TypeError", idle_world).
Proof.
  assert (Hid : deviceId_hex (JNum 1) = Ok 1) by reflexivity.
  assert (Htruthy : truthy (JNum 5) = true) by reflexivity.
  assert (Hbad : forall s, JNum 5 <> JStr s) by (intros s; discriminate).
  destruct (msc_non_string_cue_raises (JNum 1) (JStr "lighting.general")
              (JStr "go") (JNum 5) 1 None None idle_world Hid Htruthy Hbad)
    as [Hcue _].
  apply Hcue.
Defined.

(* ================================================================== *)
(** ** Sending                                                         *)
(* ================================================================== *)

(** A command outside the eight known ones takes the [default] branch. *)
Lemma sendMIDI_message_default (midiObj : MidiObj.t) (c : string) (w : world) :
  MidiObj.midicommand midiObj = JStr c ->
  has VALID_MIDI_COMMANDS (lower c) = false ->
  sendMIDI_message midiObj w = (Ok None, w).
Proof.
  intros Hc Hvalid; unfold sendMIDI_message; rewrite Hc.
  unfold has, VALID_MIDI_COMMANDS in Hvalid; cbn [existsb] in Hvalid.
  repeat (apply orb_false_elim in Hvalid;
          let H := fresh "H" in destruct Hvalid as [H Hvalid]).
  unfold bind, lift; cbn [toLowerCase].
  repeat match goal with
         | H : (lower c =? _)%string = false |- _ => rewrite H; clear H
         end.
  reflexivity.
Qed.

(** X7.  Every failure of [sendMIDI] reaches the callback as an error,
    after the [console.error] 'Error sending MIDI:', with nothing
    logged: a MIDI engine that cannot start (which [initEngine] has
    reported first with its own [console.error], so two are printed),
    an output port that cannot be opened, a [midicommand] that is not a
    string (in which case the port has been opened first), and a
    message that the output port refuses when [send] is called. *)
Theorem sendMIDI_reports_failures :
  forall (E : env) (midiObj : MidiObj.t) (callback : send_result -> M unit)
         (w : world),
    let midiport := MidiObj.midiport midiObj in
    (forall e,
       jzzEngine w = false ->
       JZZ E = Some e ->
       sendMIDI E midiObj callback w
       = sendMIDI_catch callback e
           (add_effect w
              (ConsoleError [JStr "Failed to initialize JZZ MIDI engine:";
                             JStr e])))
    /\ (forall e,
          jzzEngine w = true \/ JZZ E = None ->
          existsb (strict_eq midiport) (openOutputs w) = false ->
          openMidiOut E midiport = Some e ->
          sendMIDI E midiObj callback w = sendMIDI_catch callback e (started w))
    /\ (jzzEngine w = true \/ JZZ E = None ->
        existsb (strict_eq midiport) (openOutputs w) = true
        \/ openMidiOut E midiport = None ->
        (forall s, MidiObj.midicommand midiObj <> JStr s) ->
        sendMIDI E midiObj callback w
        = sendMIDI_catch callback "TypeError" (opened (started w) midiport))
    /\ (forall message e w1,
          jzzEngine w = true \/ JZZ E = None ->
          existsb (strict_eq midiport) (openOutputs w) = true
          \/ openMidiOut E midiport = None ->
          sendMIDI_message midiObj (opened (started w) midiport)
          = (Ok (Some message), w1) ->
          output_send E midiport message = Some e ->
          sendMIDI E midiObj callback w
          = sendMIDI_catch callback e
              (add_effect w1 (OutputSend midiport message))).
Proof.
  intros E midiObj callback w midiport; split; [| split; [| split]].
  - intros e Hr He.
    rewrite sendMIDI_steps, (initEngine_fails E w e Hr He); reflexivity.
  - intros e He Hclosed Hopen.
    rewrite sendMIDI_steps, (initEngine_started E w He); unfold get_output.
    fold midiport; rewrite started_openOutputs, Hclosed, Hopen; reflexivity.
  - intros He Hport Hcommand.
    rewrite (sendMIDI_ready E midiObj callback w He Hport).
    unfold sendMIDI_body, sendMIDI_message, try_catch, bind, lift.
    destruct (MidiObj.midicommand midiObj) eqn:Ec; try reflexivity.
    now destruct (Hcommand s).
  - intros message e w1 He Hport Hmessage Hrefuse.
    exact (sendMIDI_refused E midiObj message e callback w w1
             He Hport Hmessage Hrefuse).
Qed.

Lemma sendMIDI_reports_failures_witness :
  sendMIDI
    (mkEnv (Some "no MIDI driver") (fun _ => None) (fun _ _ => None) JUndefined
       (fun _ => None) (fun _ _ _ => Response true 200 ""))
    (noteon_request (JStr "Out") (JNum 0) (JNum 60) (JNum 127))
    (fun _ => ret tt) idle_world
  = (Ok tt,
     add_effect
       (add_effect idle_world
          (ConsoleError [JStr "Failed to initialize JZZ MIDI engine:";
                         JStr "no MIDI driver"]))
       (ConsoleError [JStr "Error sending MIDI:"; JStr "no MIDI driver"]))
  /\ sendMIDI
       (mkEnv None (fun _ => Some "port not found") (fun _ _ => None) JUndefined
          (fun _ => None) (fun _ _ _ => Response true 200 ""))
       (noteon_request (JStr "Nowhere") (JNum 0) (JNum 60) (JNum 127))
       (fun _ => ret tt) idle_world
     = sendMIDI_catch (fun _ => ret tt) "port not found" (started idle_world)
  /\ sendMIDI
       (mkEnv None (fun _ => None) (fun _ _ => Some "Bad MIDI value") JUndefined
          (fun _ => None) (fun _ _ _ => Response true 200 ""))
       (noteon_request (JStr "Out") (JStr "*") (JNum 60) (JNum 127))
       (fun _ => ret tt) idle_world
     = sendMIDI_catch (fun _ => ret tt) "Bad MIDI value"
         (add_effect (opened (started idle_world) (JStr "Out"))
            (OutputSend (JStr "Out") [JStr "144*"; JNum 60; JNum 127])).
Proof.
  split; [| split].
  - destruct (sendMIDI_reports_failures
                (mkEnv (Some "no MIDI driver") (fun _ => None) (fun _ _ => None)
                   JUndefined (fun _ => None) (fun _ _ _ => Response true 200 ""))
                (noteon_request (JStr "Out") (JNum 0) (JNum 60) (JNum 127))
                (fun _ => ret tt) idle_world)
      as [Hengine _].
    rewrite (Hengine "no MIDI driver"); reflexivity.
  - destruct (sendMIDI_reports_failures
                (mkEnv None (fun _ => Some "port not found") (fun _ _ => None)
                   JUndefined (fun _ => None) (fun _ _ _ => Response true 200 ""))
                (noteon_request (JStr "Nowhere") (JNum 0) (JNum 60) (JNum 127))
                (fun _ => ret tt) idle_world)
      as [_ [Hport _]].
    apply Hport; [right; reflexivity | reflexivity | reflexivity].
  - destruct (sendMIDI_reports_failures
                (mkEnv None (fun _ => None) (fun _ _ => Some "Bad MIDI value")
                   JUndefined (fun _ => None) (fun _ _ _ => Response true 200 ""))
                (noteon_request (JStr "Out") (JStr "*") (JNum 60) (JNum 127))
                (fun _ => ret tt) idle_world)
      as [_ [_ [_ Hrefused]]].
    apply Hrefused;
      [right; reflexivity | right; reflexivity | reflexivity | reflexivity].
Defined.

(** X8.  With the engine running (or started by this call, which is
    then announced on the console) and the output port available, a
    [midicommand] that is a string but, in lower case, none of the eight
    known commands makes [sendMIDI] call back with
    'invalid-midi-command': nothing is sent and nothing is logged, but
    the output port has been opened and stays open. *)
Theorem sendMIDI_invalid_command :
  forall (E : env) (midiObj : MidiObj.t) (c : string)
         (callback : send_result -> M unit) (w : world),
    jzzEngine w = true \/ JZZ E = None ->
    existsb (strict_eq (MidiObj.midiport midiObj)) (openOutputs w) = true
    \/ openMidiOut E (MidiObj.midiport midiObj) = None ->
    MidiObj.midicommand midiObj = JStr c ->
    has VALID_MIDI_COMMANDS (lower c) = false ->
    sendMIDI E midiObj callback w
    = try_catch (callback InvalidMidiCommand) (sendMIDI_catch callback)
        (opened (started w) (MidiObj.midiport midiObj)).
Proof.
  intros E midiObj c callback w He Hport Hc Hvalid.
  rewrite (sendMIDI_ready E midiObj callback w He Hport).
  unfold sendMIDI_body, try_catch, bind.
  rewrite (sendMIDI_message_default midiObj c _ Hc Hvalid).
  reflexivity.
Qed.

Lemma sendMIDI_invalid_command_witness :
  sendMIDI quiet_env
    (voice_request (JStr "Out") "polypressure" (JNum 0) (JNum 60) (JNum 1)
       JUndefined JUndefined)
    (fun _ => ret tt) idle_world
  = try_catch (ret tt) (sendMIDI_catch (fun _ => ret tt))
      (opened (started idle_world) (JStr "Out")).
Proof.
  apply (sendMIDI_invalid_command quiet_env
           (voice_request (JStr "Out") "polypressure" (JNum 0) (JNum 60) (JNum 1)
              JUndefined JUndefined)
           "polypressure" (fun _ => ret tt) idle_world).
  - right; reflexivity.
  - right; reflexivity.
  - reflexivity.
  - reflexivity.
Defined.

(** X9.  With the engine running (or started by this call) and the
    output port available, a request whose message is built without
    error and accepted by the port is sent exactly once on its port,
    then logged as one 'TX' entry carrying the port, the command and
    the request, and only then is the callback told of the success,
    with the request and the bytes. *)
Theorem sendMIDI_success :
  forall (E : env) (midiObj : MidiObj.t) (message : list jsval)
         (callback : send_result -> M unit) (w w1 : world),
    jzzEngine w = true \/ JZZ E = None ->
    existsb (strict_eq (MidiObj.midiport midiObj)) (openOutputs w) = true
    \/ openMidiOut E (MidiObj.midiport midiObj) = None ->
    sendMIDI_message midiObj (opened (started w) (MidiObj.midiport midiObj))
    = (Ok (Some message), w1) ->
    output_send E (MidiObj.midiport midiObj) message = None ->
    sendMIDI E midiObj callback w
    = try_catch (callback (MidiSentSuccessfully midiObj message))
        (sendMIDI_catch callback)
        (snd (addToLog "TX" (MidiObj.midiport midiObj)
                (MidiObj.midicommand midiObj) (DataMidiObj midiObj)
                (add_effect w1 (OutputSend (MidiObj.midiport midiObj) message)))).
Proof.
  intros E midiObj message callback w w1 He Hport Hmessage Haccept.
  exact (sendMIDI_sent E midiObj message callback w w1
           He Hport Hmessage Haccept).
Qed.

Lemma sendMIDI_success_witness :
  sendMIDI quiet_env
    (noteon_request (JStr "Out") (JNum 0) (JNum 60) (JNum 127))
    (fun _ => ret tt) idle_world
  = try_catch
      (ret tt) (sendMIDI_catch (fun _ => ret tt))
      (snd (addToLog "TX" (JStr "Out") (JStr "noteon")
              (DataMidiObj (noteon_request (JStr "Out") (JNum 0) (JNum 60) (JNum 127)))
              (add_effect (opened (started idle_world) (JStr "Out"))
                 (OutputSend (JStr "Out") [JNum 0x90; JNum 60; JNum 127])))).
Proof.
  apply (sendMIDI_success quiet_env
           (noteon_request (JStr "Out") (JNum 0) (JNum 60) (JNum 127))
           [JNum 0x90; JNum 60; JNum 127] (fun _ => ret tt) idle_world).
  - right; reflexivity.
  - right; reflexivity.
  - reflexivity.
  - reflexivity.
Defined.

(** *** What leaves the open outputs alone *)

Lemma keeps_ret {A} (a : A) : keeps_outputs (ret a).
Proof. intros w; reflexivity. Qed.

Lemma keeps_throw {A} (e : string) : keeps_outputs (@throw A e).
Proof. intros w; reflexivity. Qed.

Lemma keeps_lift {A} (r : result A) : keeps_outputs (lift r).
Proof. intros w; reflexivity. Qed.

Lemma keeps_emit (e : effect) : keeps_outputs (emit e).
Proof. intros w; reflexivity. Qed.

Lemma keeps_bind {A B} (m : M A) (k : A -> M B) :
  keeps_outputs m -> (forall a, keeps_outputs (k a)) -> keeps_outputs (bind m k).
Proof.
  intros Hm Hk w; unfold bind.
  pose proof (Hm w) as H1.
  destruct (m w) as [[a | e] w1]; simpl in H1; [| exact H1].
  rewrite (Hk a w1); exact H1.
Qed.

Lemma keeps_try_catch {A} (m : M A) (handler : string -> M A) :
  keeps_outputs m -> (forall e, keeps_outputs (handler e)) ->
  keeps_outputs (try_catch m handler).
Proof.
  intros Hm Hh w; unfold try_catch.
  pose proof (Hm w) as H1.
  destruct (m w) as [[a | e] w1]; simpl in H1; [exact H1 |].
  rewrite (Hh e w1); exact H1.
Qed.

Lemma keeps_if {A} (b : bool) (m1 m2 : M A) :
  keeps_outputs m1 -> keeps_outputs m2 -> keeps_outputs (if b then m1 else m2).
Proof. destruct b; auto. Qed.

Lemma keeps_addToLog (direction : string) (port command : jsval)
  (data : logdata) :
  keeps_outputs (addToLog direction port command data).
Proof. intros w; unfold addToLog; simpl; destruct (sendLog w); reflexivity. Qed.

Lemma keeps_BuildMSC (deviceId commandFormat command cue cueList cuePath : jsval) :
  keeps_outputs (BuildMSC deviceId commandFormat command cue cueList cuePath).
Proof.
  unfold BuildMSC; destruct (deviceId_hex deviceId).
  - repeat (apply keeps_bind;
            [apply keeps_if; [apply keeps_lift | apply keeps_ret] |];
            intros ?).
    apply keeps_ret.
  - apply keeps_bind; [apply keeps_emit | intros _; apply keeps_ret].
Qed.

Lemma keeps_sendMIDI_message (midiObj : MidiObj.t) :
  keeps_outputs (sendMIDI_message midiObj).
Proof.
  unfold sendMIDI_message.
  apply keeps_bind; [apply keeps_lift | intros cmd].
  repeat (apply keeps_if; [apply keeps_ret |]).
  apply keeps_if.
  - destruct (MidiObj.message midiObj); first [apply keeps_ret | apply keeps_throw].
  - apply keeps_if; [| apply keeps_ret].
    apply keeps_bind; [apply keeps_BuildMSC | intros ?; apply keeps_ret].
Qed.

Lemma keeps_sendMIDI_body (E : env) (midiObj : MidiObj.t)
  (callback : send_result -> M unit) :
  (forall r, keeps_outputs (callback r)) ->
  keeps_outputs
    (try_catch (sendMIDI_body E midiObj callback) (sendMIDI_catch callback)).
Proof.
  intros Hcb; apply keeps_try_catch.
  - unfold sendMIDI_body.
    apply keeps_bind; [apply keeps_sendMIDI_message | intros [message |]].
    + apply keeps_bind; [apply keeps_emit | intros _].
      apply keeps_bind;
        [destruct (output_send E (MidiObj.midiport midiObj) message);
         [apply keeps_throw | apply keeps_ret] | intros _].
      apply keeps_bind; [apply keeps_addToLog | intros _; apply Hcb].
    + apply Hcb.
  - intros e; unfold sendMIDI_catch.
    apply keeps_bind; [apply keeps_emit | intros _; apply Hcb].
Qed.

Lemma opened_cached (w : world) (p : string) :
  existsb (strict_eq (JStr p)) (openOutputs (opened w (JStr p))) = true.
Proof.
  unfold opened.
  destruct (existsb (strict_eq (JStr p)) (openOutputs w)) eqn:Ein;
    [exact Ein |].
  simpl; rewrite existsb_app; simpl.
  rewrite String.eqb_refl; apply orb_true_iff; right; reflexivity.
Qed.

Lemma get_output_cached (E : env) (midiport : jsval) (w : world) :
  existsb (strict_eq midiport) (openOutputs w) = true ->
  get_output E midiport w = (Ok tt, w).
Proof. intros H; unfold get_output; rewrite H; reflexivity. Qed.

(** X10.  Output ports are opened once and cached.  When [get_output]
    succeeds on a port named by a string, the port is among the open
    outputs afterwards, and asking for it again returns it without
    calling the driver, whatever the driver would answer.  So after a
    [sendMIDI] that got its port (and whose callback leaves the ports
    alone) the port is open, whether or not the message was then sent;
    a port that was open before is not opened again; and a later send
    to that port does not depend on the driver's open call. *)
Theorem open_output_is_cached :
  forall (E : env) (midiObj : MidiObj.t) (p : string)
         (callback : send_result -> M unit) (w : world),
    MidiObj.midiport midiObj = JStr p ->
    (forall w0 w',
       get_output E (JStr p) w0 = (Ok tt, w') ->
       existsb (strict_eq (JStr p)) (openOutputs w') = true
       /\ forall E', get_output E' (JStr p) w' = (Ok tt, w'))
    /\ (jzzEngine w = true \/ JZZ E = None ->
        existsb (strict_eq (JStr p)) (openOutputs w) = true
        \/ openMidiOut E (JStr p) = None ->
        (forall r, keeps_outputs (callback r)) ->
        let w1 := snd (sendMIDI E midiObj callback w) in
        existsb (strict_eq (JStr p)) (openOutputs w1) = true
        /\ (existsb (strict_eq (JStr p)) (openOutputs w) = true ->
            openOutputs w1 = openOutputs w)
        /\ (forall E', get_output E' (JStr p) w1 = (Ok tt, w1))
        /\ forall (E2 E3 : env) (midiObj' : MidiObj.t)
                  (callback' : send_result -> M unit),
             MidiObj.midiport midiObj' = JStr p ->
             JZZ E2 = JZZ E3 ->
             (forall port message,
                output_send E2 port message = output_send E3 port message) ->
             sendMIDI E2 midiObj' callback' w1
             = sendMIDI E3 midiObj' callback' w1).
Proof.
  intros E midiObj p callback w Hp; split.
  - intros w0 w' Hget.
    assert (Hcached : existsb (strict_eq (JStr p)) (openOutputs w') = true).
    { unfold get_output in Hget.
      destruct (existsb (strict_eq (JStr p)) (openOutputs w0)) eqn:Ein.
      - injection Hget as <-; exact Ein.
      - destruct (openMidiOut E (JStr p)); [discriminate Hget |].
        injection Hget as <-.
        pose proof (opened_cached w0 p) as H; unfold opened in H.
        rewrite Ein in H; exact H. }
    split; [exact Hcached |].
    intros E'; apply get_output_cached; exact Hcached.
  - intros He Hport Hcb w1.
    assert (Hout : openOutputs w1 = openOutputs (opened (started w) (JStr p))).
    { unfold w1.
      rewrite (sendMIDI_ready E midiObj callback w He)
        by (rewrite Hp; exact Hport).
      rewrite Hp.
      apply (keeps_sendMIDI_body E midiObj callback Hcb). }
    assert (Hcached : existsb (strict_eq (JStr p)) (openOutputs w1) = true)
      by (rewrite Hout; apply opened_cached).
    split; [exact Hcached |].
    split.
    { intros Hbefore; rewrite Hout; unfold opened.
      rewrite started_openOutputs, Hbefore; apply started_openOutputs. }
    split; [intros E'; apply get_output_cached; exact Hcached |].
    intros E2 E3 midiObj' callback' Hp' Hjzz Hsend.
    assert (Hinit : initEngine E2 w1 = initEngine E3 w1)
      by (unfold initEngine; rewrite Hjzz; reflexivity).
    assert (Hkeep : forall r w2, initEngine E3 w1 = (r, w2) ->
                                 openOutputs w2 = openOutputs w1).
    { intros r w2; unfold initEngine, bind, get, try_catch.
      destruct (jzzEngine w1); [intros H; injection H as _ <-; reflexivity |].
      destruct (JZZ E3); intros H; injection H as _ <-; reflexivity. }
    rewrite !sendMIDI_steps, Hinit, Hp'.
    destruct (initEngine E3 w1) as [[[] | e] w2] eqn:Einit; [| reflexivity].
    assert (Hcached2 : existsb (strict_eq (JStr p)) (openOutputs w2) = true)
      by (rewrite (Hkeep _ _ eq_refl); exact Hcached).
    rewrite (get_output_cached E2 _ w2 Hcached2).
    rewrite (get_output_cached E3 _ w2 Hcached2).
    unfold sendMIDI_body, try_catch, bind.
    destruct (sendMIDI_message midiObj' w2) as [[[message |] | e] w3];
      try reflexivity.
    rewrite Hsend; reflexivity.
Qed.

Lemma open_output_is_cached_witness :
  let request := noteon_request (JStr "Out") (JNum 0) (JNum 60) (JNum 127) in
  let busy :=
    mkEnv None (fun _ => Some "busy") (fun _ _ => None) JUndefined
      (fun _ => None) (fun _ _ _ => Response true 200 "") in
  let w1 := snd (sendMIDI quiet_env request (fun _ => ret tt) idle_world) in
  openOutputs w1 = [JStr "Out"]
  /\ existsb (strict_eq (JStr "Out")) (openOutputs w1) = true
  /\ get_output busy (JStr "Out") w1 = (Ok tt, w1)
  /\ sendMIDI busy request (fun _ => ret tt) w1
     = sendMIDI quiet_env request (fun _ => ret tt) w1.
Proof.
  intros request busy w1.
  destruct (open_output_is_cached quiet_env request "Out" (fun _ => ret tt)
              idle_world eq_refl)
    as [_ Hsend].
  destruct Hsend as [Hcached [_ [Hget Hlater]]];
    [right; reflexivity | right; reflexivity
     | intros r w0; reflexivity |].
  split; [reflexivity |].
  split; [exact Hcached |].
  split; [apply Hget |].
  apply (Hlater busy quiet_env request (fun _ => ret tt));
    [reflexivity | reflexivity | intros port message; reflexivity].
Defined.

(* ================================================================== *)
(** ** Receiving                                                       *)
(* ================================================================== *)

(** The two nibbles of a status byte. *)
Lemma status_nibbles (s : Z) :
  0 <= s <= 255 ->
  js_and (JNum s) (JNum 0xf0) = 16 * (s / 16)
  /\ js_and (JNum s) (JNum 0x0f) = s mod 16.
Proof.
  intros Hs.
  set (check := fun s =>
         (js_and (JNum s) (JNum 0xf0) =? 16 * (s / 16))
         && (js_and (JNum s) (JNum 0x0f) =? s mod 16)).
  assert (Hall : forallb check (zrange 0 256) = true)
    by (vm_compute; reflexivity).
  rewrite forallb_forall in Hall.
  assert (Hin : In s (zrange 0 256)) by (apply in_zrange; lia).
  specialize (Hall s Hin); unfold check in Hall.
  apply andb_true_iff in Hall; destruct Hall as [H1 H2].
  apply Z.eqb_eq in H1, H2; split; assumption.
Qed.

(** X11.  [receiveMIDI] ignores an empty message and every message
    whose status byte is below 0x80, in 0xA0..0xAF (polyphonic
    aftertouch) or in 0xF1..0xFF (system messages other than the start
    of a sysex): nothing is logged, nothing is published and no trigger
    is evaluated; the engine state is left as it was. *)
Theorem receiveMIDI_ignores_unhandled_status :
  forall (E : env) (portName : string) (s : Z) (rest : list Z) (w : world),
    receiveMIDI E portName [] w = (Ok tt, w)
    /\ (0 <= s <= 255 ->
        s < 0x80 \/ 0xa0 <= s <= 0xaf \/ 0xf1 <= s ->
        receiveMIDI E portName (s :: rest) w = (Ok tt, w)).
Proof.
  intros E portName s rest w; split; [reflexivity |].
  intros Hs Hclass.
  destruct (status_nibbles s Hs) as [Hc Hn].
  unfold receiveMIDI, receiveMIDI_classify.
  change (index (s :: rest) 0) with (JNum s).
  rewrite Hc, Hn.
  pose proof (Z.div_mod s 16 ltac:(lia)) as Hdiv.
  pose proof (Z.mod_pos_bound s 16 ltac:(lia)) as Hmod.
  destruct (Z.eqb_spec (16 * (s / 16)) 0x90); [exfalso; lia |].
  destruct (Z.eqb_spec (16 * (s / 16)) 0x80); [exfalso; lia |].
  destruct (Z.eqb_spec (16 * (s / 16)) 0xb0); [exfalso; lia |].
  destruct (Z.eqb_spec (16 * (s / 16)) 0xc0); [exfalso; lia |].
  destruct (Z.eqb_spec (16 * (s / 16)) 0xd0); [exfalso; lia |].
  destruct (Z.eqb_spec (16 * (s / 16)) 0xe0); [exfalso; lia |].
  destruct (Z.eqb_spec (16 * (s / 16)) 0xf0) as [Hf0 | Hf0]; [| reflexivity].
  assert (Hstart : strict_eq (JNum s) (JNum 0xf0) = false).
  { simpl; apply Z.eqb_neq; lia. }
  rewrite Hstart; reflexivity.
Qed.

Lemma receiveMIDI_ignores_unhandled_status_witness :
  receiveMIDI quiet_env "Port" (0xa3 :: [60; 100]) idle_world = (Ok tt, idle_world).
Proof.
  destruct (receiveMIDI_ignores_unhandled_status quiet_env "Port" 0xa3 [60; 100]
              idle_world) as [_ H].
  apply H; lia.
Defined.

(* ================================================================== *)
(** ** Trigger matching                                                *)
(* ================================================================== *)

Lemma if_false_ok_true (b : bool) (r : result bool) :
  (if b then Ok false else r) = Ok true <-> b = false /\ r = Ok true.
Proof.
  destruct b; split.
  - discriminate.
  - intros [H _]; discriminate.
  - auto.
  - intros [_ H]; exact H.
Qed.

Lemma parsed_equals_field (v field : jsval) :
  strict_eq (of_number (parseInt false v)) field = true
  <-> exists n, parseInt false v = Some n /\ field = JNum n.
Proof.
  destruct (parseInt false v) as [n |]; simpl of_number.
  - rewrite strict_eq_num; split.
    + intros ->; exists n; auto.
    + intros [m [Hm ->]]; congruence.
  - split; [discriminate | intros [n [Hn _]]; discriminate].
Qed.

(** One criterion check of [matchesTrigger], under its guard. *)
Lemma guarded_check_false (g : bool) (v field : jsval) :
  g && negb (strict_eq v JUndefined)
  && (negb (is_str v "*")
      && negb (strict_eq (of_number (parseInt false v)) field)) = false
  <-> (g = true -> criterion_met v field).
Proof.
  unfold criterion_met, unconstrained.
  destruct g; simpl; [| split; [discriminate | reflexivity]].
  destruct (strict_eq v JUndefined) eqn:Eu; simpl.
  - apply strict_eq_undefined in Eu; split; auto.
  - destruct (is_str v "*") eqn:Es; simpl.
    + apply strict_eq_true_iff in Es; split; auto.
    + apply is_str_false_iff in Es.
      assert (Hu : v <> JUndefined).
      { intros Hv; apply strict_eq_undefined in Hv; congruence. }
      rewrite negb_false_iff, parsed_equals_field.
      split; [auto |].
      intros H; destruct (H eq_refl) as [[? | ?] | ?]; congruence.
Qed.

Lemma check_false (v field : jsval) :
  negb (strict_eq v JUndefined) && negb (is_str v "*")
  && negb (strict_eq (of_number (parseInt false v)) field) = false
  <-> criterion_met v field.
Proof.
  rewrite <- andb_assoc.
  pose proof (guarded_check_false true v field) as H; simpl in H.
  rewrite H; split; auto.
Qed.

Lemma port_check_false (p : jsval) (portName : string) :
  truthy p && negb (is_str p "*") && negb (strict_eq p (JStr portName)) = false
  <-> truthy p = false \/ p = JStr "*" \/ p = JStr portName.
Proof.
  destruct (truthy p); simpl; [| split; auto].
  destruct (is_str p "*") eqn:Es; simpl.
  - apply strict_eq_true_iff in Es; split; auto.
  - apply is_str_false_iff in Es.
    fold (is_str p portName); rewrite negb_false_iff, strict_eq_true_iff.
    split; [auto |].
    intros [H | [H | H]]; [discriminate | contradiction | exact H].
Qed.

(** X12.  [matchesTrigger] answers true exactly when the trigger's
    midicommand is a string that, in lower case, is the event type; its
    midiport is empty, '*' or the event's port; and each of its
    criteria is absent, '*' or an integer equal to the event's field:
    channel, velocity and value for every event type, note only for
    'noteon' and 'noteoff' events, controller only for 'cc' events. *)
Theorem matchesTrigger_true_iff :
  forall (t : Trigger.t) (portName midiType : string) (d : MidiData.t),
    matchesTrigger t portName midiType d = Ok true
    <-> (exists c, Trigger.midicommand t = JStr c /\ lower c = midiType)
        /\ (truthy (Trigger.midiport t) = false
            \/ Trigger.midiport t = JStr "*"
            \/ Trigger.midiport t = JStr portName)
        /\ criterion_met (Trigger.channel t) (MidiData.channel d)
        /\ (midiType = "noteon" \/ midiType = "noteoff" ->
            criterion_met (Trigger.note t) (MidiData.note d))
        /\ criterion_met (Trigger.velocity t) (MidiData.velocity d)
        /\ (midiType = "cc" ->
            criterion_met (Trigger.controller t) (MidiData.controller d))
        /\ criterion_met (Trigger.value t) (MidiData.value d).
Proof.
  intros t portName midiType d; unfold matchesTrigger.
  destruct (Trigger.midicommand t) as [| | b | z | | c | p] eqn:Ecommand;
    cbn [toLowerCase rbind];
    try (split; [discriminate | intros [[c [Hc _]] _]; discriminate]).
  rewrite !if_false_ok_true.
  rewrite port_check_false, !check_false, !guarded_check_false.
  rewrite negb_false_iff, String.eqb_eq, orb_true_iff, !String.eqb_eq.
  split.
  - intros [Hc [Hp [Hch [Hn [Hv [Hctl [Hval _]]]]]]].
    repeat split; try assumption.
    exists c; auto.
  - intros [[c' [Hc' Hty]] [Hp [Hch [Hn [Hv [Hctl Hval]]]]]].
    injection Hc' as <-.
    repeat split; assumption.
Qed.

(** X13.  A trigger that constrains channel, velocity or value (a
    criterion that is neither absent nor '*') never matches an event
    that lacks that field: a channel criterion never matches an 'msc'
    event, a velocity criterion never matches a 'cc', 'pc', 'pressure'
    or 'pitchbend' event, a value criterion never matches a note event. *)
Theorem criterion_on_absent_field_never_matches :
  forall (t : Trigger.t) (portName midiType : string) (d : MidiData.t),
    (~ unconstrained (Trigger.channel t) /\ MidiData.channel d = JUndefined)
    \/ (~ unconstrained (Trigger.velocity t) /\ MidiData.velocity d = JUndefined)
    \/ (~ unconstrained (Trigger.value t) /\ MidiData.value d = JUndefined) ->
    matchesTrigger t portName midiType d <> Ok true.
Proof.
  intros t portName midiType d Habsent Hmatch.
  unfold matchesTrigger in Hmatch.
  destruct (Trigger.midicommand t); cbn [toLowerCase rbind] in Hmatch;
    try discriminate.
  rewrite !if_false_ok_true in Hmatch.
  destruct Hmatch as [_ [_ [Hch [_ [Hv [_ [Hval _]]]]]]].
  apply check_false in Hch, Hv, Hval.
  assert (Hno : forall v field, criterion_met v field -> ~ unconstrained v ->
                                field <> JUndefined).
  { intros v field [Hu | [n [_ ->]]] Hcon; [contradiction | discriminate]. }
  destruct Habsent as [[Hc Hf] | [[Hc Hf] | [Hc Hf]]].
  - exact (Hno _ _ Hch Hc Hf).
  - exact (Hno _ _ Hv Hc Hf).
  - exact (Hno _ _ Hval Hc Hf).
Qed.

Lemma criterion_on_absent_field_never_matches_witness :
  matchesTrigger
    (plain_trigger (JStr "msc") (JNum 0) JUndefined JUndefined JUndefined
       (JStr "http") (JStr "http://example.com/webhook") JUndefined)
    "Port" "msc" (parseMSC [0xf0; 0x7f; 0x01; 0x02; 0x01; 0x01; 0xf7])
  <> Ok true.
Proof.
  apply criterion_on_absent_field_never_matches.
  left; split; [| reflexivity].
  intros [H | H]; discriminate H.
Defined.

(* ================================================================== *)
(** ** What a computation may call                                     *)
(* ================================================================== *)

Section Only.

Variable P : effect -> Prop.





Lemma only_emit (e : effect) : P e -> only P (emit e).
Proof. intros He w; exists [e]; split; [reflexivity | now constructor]. Qed.

Lemma only_bind {A B} (m : M A) (k : A -> M B) :
  only P m -> (forall a, only P (k a)) -> only P (bind m k).
Proof.
  intros Hm Hk w; unfold bind.
  destruct (Hm w) as [l1 [H1 F1]].
  destruct (m w) as [[a | e] w1]; simpl in H1.
  - destruct (Hk a w1) as [l2 [H2 F2]].
    exists (l1 ++ l2)%list; split.
    + rewrite H2, H1; apply eq_sym, app_assoc.
    + apply Forall_app; auto.
  - exists l1; auto.
Qed.



Lemma only_addToLog (direction : string) (port command : jsval) (data : logdata) :
  (forall entry, P (SendLog entry)) ->
  only P (addToLog direction port command data).
Proof.
  intros Hp w; unfold addToLog; simpl.
  destruct (sendLog w).
  - eexists [_]; split; [reflexivity | constructor; auto].
  - exists []; split; [now rewrite app_nil_r | constructor].
Qed.


Lemma only_if {A} (b : bool) (m1 m2 : M A) :
  only P m1 -> only P m2 -> only P (if b then m1 else m2).
Proof. destruct b; auto. Qed.

Hypothesis P_warn : forall args, P (ConsoleWarn args).



Hypothesis P_error : forall args, P (ConsoleError args).
Hypothesis P_send : forall port message, P (OutputSend port message).
Hypothesis P_log : forall entry, P (SendLog entry).
Hypothesis P_started : P (ConsoleLog [JStr "JZZ MIDI engine initialized"]).



Hypothesis P_rejection : forall e, P (UnhandledRejection e).


End Only.

Lemma only_fetch_and_log (E : env) (trigger : Trigger.t) (method : string)
  (timeoutMs : jsval) (body : option jsval) :
  has allowedMethods method = true ->
  only (http_call trigger) (fetch_and_log E trigger method timeoutMs body).
Proof.
  intros Hmethod; unfold fetch_and_log.
  apply only_bind; [apply only_emit; simpl; auto | intros _].
  destruct (fetch E (Trigger.url trigger) method body)
    as [[|] status responseBody | name message cause_code];
    repeat (apply only_bind; [apply only_emit; exact I | intros _]);
    apply only_addToLog; intros entry; exact I.
Qed.

(** The method chosen by [runMIDITrigger_HTTP] is an allowed one. *)
Lemma chosen_method_allowed (explicitMethod fallback : string) :
  has allowedMethods fallback = true ->
  let method := if (explicitMethod =? "")%string then fallback else explicitMethod in
  has allowedMethods
    (if negb (has allowedMethods method) then fallback else method) = true.
Proof.
  intros Hf method.
  destruct (has allowedMethods method) eqn:Hm; simpl; assumption.
Qed.

(* ================================================================== *)
(** ** HTTP action                                                     *)
(* ================================================================== *)


Lemma only_runMIDITrigger_HTTP (E : env) (trigger : Trigger.t) :
  only (http_call trigger) (runMIDITrigger_HTTP E trigger).
Proof.
  unfold runMIDITrigger_HTTP.
  set (fallback := if truthy (Trigger.jsondata trigger) then "POST" else "GET").
  set (explicitMethod :=
         upper (trim (toString (js_or (Trigger.method trigger) (JStr ""))))).
  assert (Hfallback : has allowedMethods fallback = true).
  { unfold fallback; destruct (truthy (Trigger.jsondata trigger)); reflexivity. }
  pose proof (chosen_method_allowed explicitMethod fallback Hfallback) as Hmethod.
  cbv zeta in Hmethod.
  apply only_if.
  - destruct (JSON_parse E (Trigger.jsondata trigger)).
    + apply only_bind; [apply only_emit; exact I | intros _].
      apply only_addToLog; intros entry; exact I.
    + now apply only_fetch_and_log.
  - apply only_if; now apply only_fetch_and_log.
Qed.

(** X14.  Whatever the trigger and the outcome, the calls an 'http'
    action makes are console logs, the publication of its log entry, and
    HTTP requests to the trigger's own url with a method that is one of
    GET, POST, PUT, PATCH and DELETE; it never sends MIDI. *)
Theorem http_trigger_calls :
  forall (E : env) (trigger : Trigger.t) (w : world),
    exists calls,
      trace (snd (runMIDITrigger_HTTP E trigger w)) = (trace w ++ calls)%list
      /\ Forall (http_call trigger) calls
      /\ filter is_output_send calls = [].
Proof.
  intros E trigger w.
  destruct (only_runMIDITrigger_HTTP E trigger w) as [calls [Htrace Hcalls]].
  exists calls; split; [exact Htrace |]; split; [exact Hcalls |].
  clear Htrace; induction Hcalls as [| e l He _ IH]; [reflexivity |].
  simpl; rewrite IH.
  destruct e; simpl in He; try contradiction; reflexivity.
Qed.

(** The request, its outcome and the log entry it leaves. *)
Lemma fetch_and_log_entry (E : env) (trigger : Trigger.t) (method : string)
  (timeoutMs : jsval) (body : option jsval) (w : world) :
  fst (fetch_and_log E trigger method timeoutMs body w) = Ok tt
  /\ exists entry,
       MIDIRelaysLog (snd (fetch_and_log E trigger method timeoutMs body w))
       = push_shift (MIDIRelaysLog w) entry
       /\ port entry = JStr ("HTTP " ++ method)
       /\ command entry = Trigger.url trigger
       /\ ((direction entry = "TRIGGER"
            /\ exists status text,
                 fetch E (Trigger.url trigger) method body
                 = Response true status text)
           \/ (direction entry = "APP-ERR"
               /\ forall status text,
                    fetch E (Trigger.url trigger) method body
                    <> Response true status text)).
Proof.
  unfold fetch_and_log, bind, emit.
  destruct (fetch E (Trigger.url trigger) method body)
    as [[|] status responseBody | name message cause_code];
    match goal with
    | |- context [addToLog ?d ?p ?c ?x ?w0] =>
        destruct (addToLog_spec d p c x w0) as [Hok [Hlog _]];
        split; [exact Hok |];
        eexists; split; [exact Hlog |]
    end;
    (split; [reflexivity |]); (split; [reflexivity |]).
  - left; split; [reflexivity | eauto].
  - right; split; [reflexivity | intros; discriminate].
  - right; split; [reflexivity | intros; discriminate].
Qed.

(** X15.  An 'http' action never raises, and every run appends exactly
    one entry to the activity log, for the trigger's url and tagged
    'HTTP ' followed by an allowed method: a 'TRIGGER' entry only when
    the request was answered with an ok status, an 'APP-ERR' entry in
    every other case (invalid JSON, error status, timeout, refused
    connection, any other failure). *)
Theorem http_trigger_logs_once :
  forall (E : env) (trigger : Trigger.t) (w : world),
    fst (runMIDITrigger_HTTP E trigger w) = Ok tt
    /\ exists entry method,
         has allowedMethods method = true
         /\ MIDIRelaysLog (snd (runMIDITrigger_HTTP E trigger w))
            = push_shift (MIDIRelaysLog w) entry
         /\ port entry = JStr ("HTTP " ++ method)
         /\ command entry = Trigger.url trigger
         /\ ((direction entry = "TRIGGER"
              /\ exists body status text,
                   fetch E (Trigger.url trigger) method body
                   = Response true status text)
             \/ direction entry = "APP-ERR").
Proof.
  intros E trigger w; unfold runMIDITrigger_HTTP.
  set (fallback := if truthy (Trigger.jsondata trigger) then "POST" else "GET").
  set (explicitMethod :=
         upper (trim (toString (js_or (Trigger.method trigger) (JStr ""))))).
  assert (Hfallback : has allowedMethods fallback = true).
  { unfold fallback; destruct (truthy (Trigger.jsondata trigger)); reflexivity. }
  pose proof (chosen_method_allowed explicitMethod fallback Hfallback) as Hmethod.
  cbv zeta in Hmethod.
  set (method := if negb (has allowedMethods
                            (if (explicitMethod =? "")%string
                             then fallback else explicitMethod))
                 then fallback
                 else if (explicitMethod =? "")%string
                      then fallback else explicitMethod) in *.
  assert (Hfetch : forall body,
             fst (fetch_and_log E trigger method
                    (js_or (httpTimeout E) (JNum 5000)) body w) = Ok tt
             /\ exists entry method0,
                  has allowedMethods method0 = true
                  /\ MIDIRelaysLog
                       (snd (fetch_and_log E trigger method
                               (js_or (httpTimeout E) (JNum 5000)) body w))
                     = push_shift (MIDIRelaysLog w) entry
                  /\ port entry = JStr ("HTTP " ++ method0)
                  /\ command entry = Trigger.url trigger
                  /\ ((direction entry = "TRIGGER"
                       /\ exists body0 status text,
                            fetch E (Trigger.url trigger) method0 body0
                            = Response true status text)
                      \/ direction entry = "APP-ERR")).
  { intros body.
    destruct (fetch_and_log_entry E trigger method
                (js_or (httpTimeout E) (JNum 5000)) body w)
      as [Hok [entry [Hlog [Hport [Hcommand Hdir]]]]].
    split; [exact Hok |].
    exists entry, method; repeat (split; [assumption |]).
    destruct Hdir as [[Hd [status [text Hf]]] | [Hd _]]; [left | right; exact Hd].
    split; [exact Hd | eauto]. }
  destruct (truthy (Trigger.jsondata trigger)).
  - destruct (JSON_parse E (Trigger.jsondata trigger)) as [error |];
      [| apply Hfetch].
    unfold bind, emit.
    match goal with
    | |- context [addToLog ?d ?p ?c ?x ?w0] =>
        destruct (addToLog_spec d p c x w0) as [Hok [Hlog _]]
    end.
    split; [exact Hok |].
    eexists; exists method; split; [exact Hmethod |].
    split; [exact Hlog |].
    split; [reflexivity |]; split; [reflexivity | right; reflexivity].
  - destruct (has ["POST"; "PUT"; "PATCH"] method); apply Hfetch.
Qed.

(** X16.  When the trigger declares a JSON body that does not parse, no
    HTTP request is made: the run prints the error and appends one
    'APP-ERR' entry whose error is 'Invalid JSON: ' followed by the
    parser's message. *)
Theorem http_trigger_invalid_json_sends_nothing :
  forall (E : env) (trigger : Trigger.t) (error : string) (w : world),
    truthy (Trigger.jsondata trigger) = true ->
    JSON_parse E (Trigger.jsondata trigger) = Some error ->
    let w' := snd (runMIDITrigger_HTTP E trigger w) in
    filter is_fetch (trace w') = filter is_fetch (trace w)
    /\ exists entry,
         MIDIRelaysLog w' = push_shift (MIDIRelaysLog w) entry
         /\ direction entry = "APP-ERR"
         /\ command entry = Trigger.url trigger
         /\ data entry = DataFields [("error", JStr ("Invalid JSON: " ++ error))].
Proof.
  intros E trigger error w Htruthy Hparse w'.
  subst w'; unfold runMIDITrigger_HTTP; rewrite Htruthy, Hparse.
  unfold bind, emit.
  match goal with
  | |- context [addToLog ?d ?p ?c ?x ?w0] =>
      destruct (addToLog_spec d p c x w0) as [_ [Hlog _]];
      pose proof (only_addToLog (fun e => is_fetch e = false) d p c x
                    (fun _ => eq_refl) w0) as [l [Htrace Hl]]
  end.
  split.
  - rewrite Htrace; simpl trace.
    rewrite !filter_app; simpl.
    replace (filter is_fetch l) with (@nil effect); [now rewrite !app_nil_r |].
    clear Htrace; induction Hl as [| e l He _ IH]; [reflexivity |].
    simpl; rewrite He; exact IH.
  - eexists; split; [exact Hlog |]; repeat split.
Qed.

Lemma http_trigger_invalid_json_sends_nothing_witness :
  let E := mkEnv None (fun _ => None) (fun _ _ => None) JUndefined
             (fun _ => Some "Unexpected token") (fun _ _ _ => Response true 200 "") in
  let trigger :=
    Trigger.mk (JStr "trigger-1") (JStr "noteon") JUndefined JUndefined
      JUndefined JUndefined JUndefined JUndefined (JStr "http")
      (JStr "http://example.com/webhook") JUndefined (JStr "{oops")
      JUndefined JUndefined JUndefined JUndefined JUndefined JUndefined
      JUndefined in
  filter is_fetch (trace (snd (runMIDITrigger_HTTP E trigger idle_world)))
  = filter is_fetch (trace idle_world).
Proof.
  intros E trigger.
  assert (Htruthy : truthy (Trigger.jsondata trigger) = true) by reflexivity.
  assert (Hparse : JSON_parse E (Trigger.jsondata trigger)
                   = Some "Unexpected token") by reflexivity.
  destruct (http_trigger_invalid_json_sends_nothing E trigger
              "Unexpected token" idle_world Htruthy Hparse) as [H _].
  exact H.
Defined.

Lemma explicit_method_string (s : string) :
  toString (js_or (JStr s) (JStr "")) = s.
Proof. destruct s; reflexivity. Qed.

(** X17.  Method and body of the request of an 'http' action whose JSON
    body, if any, parses.  An explicit method that, trimmed and in upper
    case, is one of GET, POST, PUT, PATCH, DELETE is used as such; a
    missing method or any other string falls back to POST when the
    trigger has a JSON body and to GET when it has none.  The body is
    the trigger's JSON when present, '{}' for a POST, PUT or PATCH
    without one, and absent otherwise. *)
Theorem http_trigger_method_and_body :
  forall (E : env) (trigger : Trigger.t) (w : world),
    (truthy (Trigger.jsondata trigger) = true ->
     JSON_parse E (Trigger.jsondata trigger) = None) ->
    let fallback := if truthy (Trigger.jsondata trigger) then "POST" else "GET" in
    let body_for := fun method =>
      if truthy (Trigger.jsondata trigger) then Some (Trigger.jsondata trigger)
      else if has ["POST"; "PUT"; "PATCH"] method then Some (JStr "{}")
      else None in
    (forall s,
       Trigger.method trigger = JStr s ->
       has allowedMethods (upper (trim s)) = true ->
       runMIDITrigger_HTTP E trigger w
       = fetch_and_log E trigger (upper (trim s)) (timeout_of E)
           (body_for (upper (trim s))) w)
    /\ (Trigger.method trigger = JUndefined
        \/ Trigger.method trigger = JNull
        \/ (exists s, Trigger.method trigger = JStr s
                      /\ has allowedMethods (upper (trim s)) = false) ->
        runMIDITrigger_HTTP E trigger w
        = fetch_and_log E trigger fallback (timeout_of E) (body_for fallback) w).
Proof.
  intros E trigger w Hjson fallback body_for.
  assert (Hfallback : has allowedMethods fallback = true).
  { unfold fallback; destruct (truthy (Trigger.jsondata trigger)); reflexivity. }
  assert (Hrun : forall method,
             (if truthy (Trigger.jsondata trigger)
              then
                match JSON_parse E (Trigger.jsondata trigger) with
                | Some error =>
                    emit (ConsoleLog [JStr error]) ;;
                    addToLog "APP-ERR" (JStr ("HTTP " ++ method))
                      (Trigger.url trigger)
                      (DataFields [("error", JStr ("Invalid JSON: " ++ error))])
                | None =>
                    fetch_and_log E trigger method
                      (js_or (httpTimeout E) (JNum 5000))
                      (Some (Trigger.jsondata trigger))
                end
              else if has ["POST"; "PUT"; "PATCH"] method
                   then fetch_and_log E trigger method
                          (js_or (httpTimeout E) (JNum 5000)) (Some (JStr "{}"))
                   else fetch_and_log E trigger method
                          (js_or (httpTimeout E) (JNum 5000)) None) w
             = fetch_and_log E trigger method (timeout_of E) (body_for method) w).
  { intros method; unfold body_for, timeout_of.
    destruct (truthy (Trigger.jsondata trigger)).
    - rewrite (Hjson eq_refl); reflexivity.
    - destruct (has ["POST"; "PUT"; "PATCH"] method); reflexivity. }
  split.
  - intros s Hs Hallowed.
    unfold runMIDITrigger_HTTP; rewrite Hs, explicit_method_string.
    fold fallback.
    assert (Hne : (upper (trim s) =? "")%string = false).
    { destruct (upper (trim s)); [discriminate Hallowed | reflexivity]. }
    rewrite Hne, Hallowed; cbn [negb].
    apply Hrun.
  - intros Hmethod.
    unfold runMIDITrigger_HTTP; fold fallback.
    assert (Hchosen :
              (if negb (has allowedMethods
                          (if (upper (trim (toString
                                 (js_or (Trigger.method trigger) (JStr ""))))
                               =? "")%string
                           then fallback
                           else upper (trim (toString
                                  (js_or (Trigger.method trigger) (JStr ""))))))
               then fallback
               else if (upper (trim (toString
                          (js_or (Trigger.method trigger) (JStr ""))))
                        =? "")%string
                    then fallback
                    else upper (trim (toString
                           (js_or (Trigger.method trigger) (JStr "")))))
              = fallback).
    { destruct Hmethod as [-> | [-> | [s [-> Hs]]]].
      - change (upper (trim (toString (js_or JUndefined (JStr ""))))) with "".
        cbn [String.eqb]; rewrite Hfallback; reflexivity.
      - change (upper (trim (toString (js_or JNull (JStr ""))))) with "".
        cbn [String.eqb]; rewrite Hfallback; reflexivity.
      - rewrite explicit_method_string.
        destruct (upper (trim s) =? "")%string.
        + rewrite Hfallback; reflexivity.
        + rewrite Hs; reflexivity. }
    rewrite Hchosen; apply Hrun.
Qed.

Lemma http_trigger_method_and_body_witness :
  let trigger :=
    Trigger.mk (JStr "trigger-1") (JStr "noteon") JUndefined JUndefined
      JUndefined JUndefined JUndefined JUndefined (JStr "http")
      (JStr "http://example.com/webhook") (JStr " put ") JUndefined
      JUndefined JUndefined JUndefined JUndefined JUndefined JUndefined
      JUndefined in
  runMIDITrigger_HTTP quiet_env trigger idle_world
  = fetch_and_log quiet_env trigger "PUT" (timeout_of quiet_env)
      (Some (JStr "{}")) idle_world.
Proof.
  intros trigger.
  assert (Hjson : truthy (Trigger.jsondata trigger) = true ->
                  JSON_parse quiet_env (Trigger.jsondata trigger) = None)
    by (intros _; reflexivity).
  destruct (http_trigger_method_and_body quiet_env trigger idle_world Hjson)
    as [Hexplicit _].
  apply (Hexplicit " put "); reflexivity.
Defined.

(* ================================================================== *)
(** ** Trigger dispatch                                                *)
(* ================================================================== *)

Lemma matchesTrigger_total (t : Trigger.t) (c portName midiType : string)
  (d : MidiData.t) :
  Trigger.midicommand t = JStr c ->
  exists b, matchesTrigger t portName midiType d = Ok b.
Proof.
  intros Hc; unfold matchesTrigger; rewrite Hc; cbn [toLowerCase rbind].
  repeat match goal with
         | |- context [if ?b then Ok false else _] =>
             destruct b; [exists false; reflexivity |]
         end.
  exists true; reflexivity.
Qed.

Lemma matchesTrigger_raises (t : Trigger.t) (portName midiType : string)
  (d : MidiData.t) :
  (forall s, Trigger.midicommand t <> JStr s) ->
  matchesTrigger t portName midiType d = Throw "TypeError".
Proof.
  intros H; unfold matchesTrigger.
  destruct (Trigger.midicommand t); try reflexivity.
  now destruct (H s).
Qed.







(** X19.  A stored trigger whose midicommand is not a string (absent,
    null, a number) makes [matchesTrigger] raise a TypeError; the loop
    of [processMIDITriggers] stops there: the triggers stored after it
    are never evaluated, whatever they are. *)
Theorem malformed_trigger_stops_dispatch :
  forall (E : env) (before rest : list Trigger.t) (bad : Trigger.t)
         (portName midiType : string) (midiData : MidiData.t) (w : world),
    (forall t, In t before -> exists c, Trigger.midicommand t = JStr c) ->
    (forall s, Trigger.midicommand bad <> JStr s) ->
    processMIDITriggers_loop E (before ++ bad :: rest) portName midiType midiData w
    = (Throw "TypeError",
       snd (processMIDITriggers_loop E before portName midiType midiData w)).
Proof.
  intros E before rest bad portName midiType midiData.
  induction before as [| t before IH]; intros w Hstrings Hbad.
  - simpl; unfold bind, lift.
    rewrite (matchesTrigger_raises bad portName midiType midiData Hbad).
    reflexivity.
  - destruct (Hstrings t (or_introl eq_refl)) as [c Hc].
    destruct (matchesTrigger_total t c portName midiType midiData Hc) as [b Hb].
    assert (Hbefore : forall t0, In t0 before ->
                                 exists c0, Trigger.midicommand t0 = JStr c0)
      by (intros t0 Ht0; apply Hstrings; now right).
    simpl; unfold bind, lift; rewrite Hb.
    destruct b.
    + unfold async_call.
      destruct (executeTrigger E t midiData w) as [[[] | err] w1];
        apply IH; assumption.
    + unfold ret; apply IH; assumption.
Qed.

Lemma malformed_trigger_stops_dispatch_witness :
  let bad :=
    plain_trigger JUndefined JUndefined JUndefined JUndefined JUndefined
      (JStr "http") (JStr "http://example.com/webhook") JUndefined in
  let d := voice_data 0 [0x90; 60; 127] (JNum 60) (JNum 127) JUndefined JUndefined in
  processMIDITriggers_loop quiet_env
    ([] ++ bad :: [note60_trigger (JStr "trigger-b") (JStr "http://b.example/")])
    "Port" "noteon" d idle_world
  = (Throw "TypeError",
     snd (processMIDITriggers_loop quiet_env [] "Port" "noteon" d idle_world)).
Proof.
  intros bad d.
  apply (malformed_trigger_stops_dispatch quiet_env []
           [note60_trigger (JStr "trigger-b") (JStr "http://b.example/")] bad
           "Port" "noteon" d idle_world).
  - intros t [].
  - intros s; discriminate.
Defined.

(* ================================================================== *)
(** ** Validation of requests                                          *)
(* ================================================================== *)

(** X20.  For each of the seven parameters of MIDI_LIMITS,
    [validateMIDIValue] accepts exactly the wildcard '*' when wildcards
    are allowed, returned as '*', and the values that [parseInt] reads,
    in base 10, as an integer within the limits of the parameter,
    returned as that integer (so the string '7' is returned as 7). *)
Theorem validateMIDIValue_accepts :
  forall (paramName : string) (lim : limits) (v : jsval) (allowWildcard : bool)
         (r : jsval),
    own_limits MIDI_LIMITS paramName = Some lim ->
    validateMIDIValue paramName v allowWildcard = ValueOk r
    <-> (allowWildcard = true /\ v = JStr "*" /\ r = JStr "*")
        \/ (exists n, parseInt true v = Some n
                      /\ min lim <= n <= max lim /\ r = JNum n).
Proof.
  intros paramName lim v allowWildcard r Hlim.
  unfold validateMIDIValue.
  destruct (allowWildcard && is_str v "*") eqn:Ewild.
  - apply andb_true_iff in Ewild; destruct Ewild as [-> Hv].
    apply strict_eq_true_iff in Hv; subst v.
    split.
    + intros H; injection H as <-; left; auto.
    + intros [[_ [_ ->]] | [n [Hn _]]]; [reflexivity | discriminate Hn].
  - rewrite Hlim.
    assert (Hnot : ~ (allowWildcard = true /\ v = JStr "*" /\ r = JStr "*")).
    { intros [-> [-> _]]; discriminate Ewild. }
    destruct (parseInt true v) as [num |].
    + destruct (Z.ltb_spec num (min lim)) as [Hlo | Hlo];
        destruct (Z.gtb_spec num (max lim)) as [Hhi | Hhi]; cbn [orb];
        (split;
         [ intros H;
           first [ discriminate H
                 | injection H as <-; right; exists num;
                   split; [reflexivity | split; [lia | reflexivity]] ]
         | intros [H | [n [Hn [Hr ->]]]];
           [ contradiction
           | injection Hn as <-; first [ reflexivity | lia ] ] ]).
    + split; [discriminate |].
      intros [H | [n [Hn _]]]; [contradiction | discriminate Hn].
Qed.

Lemma validateMIDIValue_accepts_witness :
  validateMIDIValue "channel" (JStr "7") false = ValueOk (JNum 7)
  <-> (false = true /\ JStr "7" = JStr "*" /\ JNum 7 = JStr "*")
      \/ (exists n, parseInt true (JStr "7") = Some n
                    /\ min (mkLimits 0 15 "Channel") <= n
                       <= max (mkLimits 0 15 "Channel")
                    /\ JNum 7 = JNum n).
Proof.
  apply (validateMIDIValue_accepts "channel" (mkLimits 0 15 "Channel")
           (JStr "7") false (JNum 7)).
  reflexivity.
Defined.

Lemma blank_not_within (lo hi : Z) (v : jsval) :
  blank v = true -> ~ within lo hi v.
Proof.
  intros Hb [n [Hn _]].
  destruct v as [| | b | z | | s | p]; try discriminate.
  unfold blank in Hb; simpl in Hb.
  destruct s; [discriminate Hn | discriminate Hb].
Qed.

Lemma required_field_nil (field paramName command : string) (lim : limits)
  (v : jsval) :
  own_limits MIDI_LIMITS paramName = Some lim ->
  required_field field paramName command v = []
  <-> within (min lim) (max lim) v.
Proof.
  intros Hlim; unfold required_field.
  destruct (blank v) eqn:Eb.
  - split; [discriminate |].
    intros H; now apply (blank_not_within _ _ v Eb) in H.
  - rewrite <- (validateMIDIValue_valid paramName lim v Hlim).
    destruct (validateMIDIValue paramName v false); simpl;
      split; intros; congruence.
Qed.

Lemma guarded_nil {A} (g : bool) (l : list A) (Q : Prop) :
  (l = [] <-> Q) ->
  (if g then l else []) = [] <-> (g = true -> Q).
Proof.
  intros H; destruct g.
  - rewrite H; split; auto.
  - split; [discriminate | reflexivity].
Qed.

Lemma velocity_errors_nil (g : bool) (v : jsval) :
  (if g && negb (strict_eq v JUndefined)
   then error_of (validateMIDIValue "velocity" v false) else []) = []
  <-> (g = true -> v = JUndefined \/ within 0 127 v).
Proof.
  destruct g; simpl; [| split; [discriminate | reflexivity]].
  destruct (strict_eq v JUndefined) eqn:Eu; simpl.
  - apply strict_eq_undefined in Eu; split; auto.
  - rewrite error_of_nil,
      (validateMIDIValue_valid "velocity" (mkLimits 0 127 "Velocity") v eq_refl).
    simpl.
    assert (Hu : v <> JUndefined).
    { intros Hv; apply strict_eq_undefined in Hv; congruence. }
    split; [auto |].
    intros H; destruct (H eq_refl); [contradiction | assumption].
Qed.

(** The validity of a request whose midicommand is a string. *)
Lemma validateMIDIObject_string (o : MidiObj.t) (c : string) :
  MidiObj.midicommand o = JStr c ->
  validateMIDIObject (Some o) = Ok Valid
  <-> has VALID_MIDI_COMMANDS (lower c) = true
      /\ truthy (MidiObj.midiport o) = true
      /\ (has channel_commands (lower c) = true ->
          within 0 15 (MidiObj.channel o))
      /\ (has note_commands (lower c) = true ->
          within 0 127 (MidiObj.note o))
      /\ (has note_commands (lower c) = true ->
          MidiObj.velocity o = JUndefined \/ within 0 127 (MidiObj.velocity o))
      /\ (lower c = "cc" -> within 0 127 (MidiObj.controller o))
      /\ (has ["cc"; "pc"; "pressure"] (lower c) = true ->
          within 0 127 (MidiObj.value o))
      /\ (lower c = "pitchbend" -> within 0 16383 (MidiObj.value o)).
Proof.
  intros Hc; unfold validateMIDIObject; rewrite Hc.
  change ["noteon"; "noteoff"; "cc"; "pc"; "pressure"; "pitchbend"]
    with channel_commands.
  change ["noteon"; "noteoff"] with note_commands.
  assert (Hcmd : exists e_command,
             (if negb (truthy (JStr c))
              then Ok ["midicommand is required"]
              else
                do lc <- toLowerCase (JStr c);
                if negb (has VALID_MIDI_COMMANDS lc)
                then Ok ["Invalid midicommand: " ++ toString (JStr c)
                         ++ ". Valid commands: " ++ join ", " VALID_MIDI_COMMANDS]
                else Ok []) = Ok e_command
             /\ (e_command = [] <-> has VALID_MIDI_COMMANDS (lower c) = true)).
  { destruct c as [| a c'].
    - eexists; split; [reflexivity |]; split; discriminate.
    - cbn [truthy negb String.eqb rbind toLowerCase].
      destruct (has VALID_MIDI_COMMANDS (lower (String a c'))); cbn [negb];
        eexists; (split; [reflexivity |]); split; intros; congruence. }
  destruct Hcmd as [e_command [Hcommand Hnil]].
  rewrite Hcommand; cbn [rbind].
  assert (Hlower : toLowerCase (js_or (JStr c) (JStr "")) = Ok (lower c)).
  { destruct c; reflexivity. }
  rewrite Hlower; cbn [rbind]; cbv zeta.
  assert (Hok : forall r : validation, Ok r = Ok Valid <-> r = Valid).
  { intros r; split; [intros H; now injection H | intros ->; reflexivity]. }
  rewrite Hok, finish_valid, !app_nil_iff, Hnil.
  rewrite (guarded_nil _ _ _
             (required_field_nil "channel" "channel" (lower c)
                (mkLimits 0 15 "Channel") _ eq_refl)).
  rewrite (guarded_nil _ _ _
             (required_field_nil "note" "note" (lower c)
                (mkLimits 0 127 "Note") _ eq_refl)).
  rewrite velocity_errors_nil.
  rewrite (guarded_nil _ _ _
             (required_field_nil "controller" "controller" "cc"
                (mkLimits 0 127 "Controller") _ eq_refl)).
  rewrite (guarded_nil _ _ _
             (required_field_nil "value" "value" (lower c)
                (mkLimits 0 127 "Value") _ eq_refl)).
  rewrite (guarded_nil _ _ _
             (required_field_nil "value" "pitchbend" "pitchbend"
                (mkLimits 0 16383 "Pitch Bend") _ eq_refl)).
  rewrite !String.eqb_eq.
  cbn [min max].
  assert (Hport : (if negb (truthy (MidiObj.midiport o))
                   then ["midiport is required"] else []) = []
                  <-> truthy (MidiObj.midiport o) = true).
  { destruct (truthy (MidiObj.midiport o)); simpl; split; intros; congruence. }
  rewrite Hport.
  tauto.
Qed.


(** Closes the goals on an encoded message: the bytes, the range of
    the status byte, the number of data bytes and their range. *)
Ltac well_formed :=
  split; [reflexivity |]; split; [lia |]; split; [simpl; lia |];
  repeat (apply Forall_cons; [lia |]); apply Forall_nil.

(** X22.  A channel-voice request whose fields are integers below 1e21
    in absolute value (the numbers that [parseInt] reads back as
    themselves) and that [validateMIDIObject] accepts is encoded by
    [sendMIDI] into well-formed MIDI: a status byte in 0x80..0xEF
    followed by one or two data bytes in 0..127.  (From 1e21 on the
    validator reads only the leading digit of a number, and accepts
    requests that are not encoded this way.) *)
Theorem valid_request_is_encoded_well_formed :
  forall (midiport : jsval) (cmd : string) (ch note ctl val : Z)
         (velocity : jsval) (w : world),
    has channel_commands (lower cmd) = true ->
    plain ch -> plain note -> plain ctl -> plain val ->
    velocity = JUndefined \/ (exists vel, velocity = JNum vel /\ plain vel) ->
    validateMIDIObject
      (Some (voice_request midiport cmd (JNum ch) (JNum note) velocity
               (JNum ctl) (JNum val)))
    = Ok Valid ->
    exists status data,
      sendMIDI_message
        (voice_request midiport cmd (JNum ch) (JNum note) velocity
           (JNum ctl) (JNum val)) w
      = (Ok (Some (map JNum (status :: data))), w)
      /\ 0x80 <= status <= 0xef
      /\ (1 <= List.length data <= 2)%nat
      /\ Forall (fun b => 0 <= b <= 127) data.
Proof.
  intros midiport cmd ch note ctl val velocity w Hcmd Pch Pnote Pctl Pval
    Hvel Hvalid.
  apply (validateMIDIObject_string
           (voice_request midiport cmd (JNum ch) (JNum note) velocity
              (JNum ctl) (JNum val)) cmd eq_refl) in Hvalid.
  destruct Hvalid as [_ [_ [Hch [Hnote [Hv [Hctl [Hval Hpb]]]]]]].
  simpl MidiObj.channel in *; simpl MidiObj.note in *;
    simpl MidiObj.velocity in *; simpl MidiObj.controller in *;
    simpl MidiObj.value in *.
  assert (Hnum : forall lo hi z,
             plain z -> within lo hi (JNum z) -> lo <= z <= hi).
  { intros lo hi z Hz [n [Hn Hr]].
    rewrite (parseInt_number true z Hz) in Hn; injection Hn as <-; exact Hr. }
  apply (Hnum _ _ _ Pch) in Hch; [| exact Hcmd].
  unfold sendMIDI_message, voice_request, bind, lift, ret;
    cbn [MidiObj.midicommand MidiObj.channel MidiObj.note MidiObj.velocity
         MidiObj.controller MidiObj.value toLowerCase].
  unfold has, channel_commands in Hcmd; cbn [existsb] in Hcmd.
  repeat (apply orb_true_iff in Hcmd; destruct Hcmd as [Hcmd | Hcmd]);
    try discriminate Hcmd;
    apply String.eqb_eq in Hcmd; rewrite Hcmd in *; cbn [String.eqb Ascii.eqb Bool.eqb].
  - (* noteon *)
    specialize (Hnote eq_refl); apply (Hnum _ _ _ Pnote) in Hnote.
    destruct Hvel as [-> | [vel [-> Pvel]]].
    + exists (0x90 + ch), [note; 127]; well_formed.
    + destruct (Hv eq_refl) as [Hu | Hr]; [discriminate Hu |].
      apply (Hnum _ _ _ Pvel) in Hr.
      exists (0x90 + ch), [note; if vel =? 0 then 127 else vel].
      unfold js_or; simpl truthy.
      destruct (Z.eqb_spec vel 0); well_formed.
  - (* noteoff *)
    specialize (Hnote eq_refl); apply (Hnum _ _ _ Pnote) in Hnote.
    destruct Hvel as [-> | [vel [-> Pvel]]].
    + exists (0x80 + ch), [note; 0]; well_formed.
    + destruct (Hv eq_refl) as [Hu | Hr]; [discriminate Hu |].
      apply (Hnum _ _ _ Pvel) in Hr.
      exists (0x80 + ch), [note; vel].
      unfold js_or; simpl truthy.
      destruct (Z.eqb_spec vel 0) as [-> | _]; well_formed.
  - (* cc *)
    specialize (Hctl eq_refl); apply (Hnum _ _ _ Pctl) in Hctl.
    specialize (Hval eq_refl); apply (Hnum _ _ _ Pval) in Hval.
    exists (0xb0 + ch), [ctl; val]; well_formed.
  - (* pc *)
    specialize (Hval eq_refl); apply (Hnum _ _ _ Pval) in Hval.
    exists (0xc0 + ch), [val]; well_formed.
  - (* pressure *)
    specialize (Hval eq_refl); apply (Hnum _ _ _ Pval) in Hval.
    exists (0xd0 + ch), [val]; well_formed.
  - (* pitchbend *)
    specialize (Hpb eq_refl); apply (Hnum _ _ _ Pval) in Hpb.
    destruct (pitchbend_bits val Hpb) as [Hl [Hm _]].
    exists (0xe0 + ch),
      [js_and (JNum val) (JNum 0x7f); Z.land (js_shr (JNum val) 7) 0x7f].
    split; [reflexivity |]; split; [lia |]; split; [simpl; lia |].
    repeat (apply Forall_cons; [assumption |]); apply Forall_nil.
Qed.

(** From 1e21 on the hypothesis on the size of the fields is needed: the
    validator reads channel 1e21 as 1 and accepts the request, and the
    encoder adds the number itself to the status byte. *)
Lemma large_channel_is_accepted :
  let big := 1000000000000000000000 in
  let request :=
    voice_request (JStr "Port") "noteon" (JNum big) (JNum 60) JUndefined
      JUndefined JUndefined in
  parseInt true (JNum big) = Some 1
  /\ validateMIDIObject (Some request) = Ok Valid
  /\ sendMIDI_message request idle_world
     = (Ok (Some [JNum (0x90 + big); JNum 60; JNum 127]), idle_world).
Proof. split; [| split]; vm_compute; reflexivity. Qed.

Lemma valid_request_is_encoded_well_formed_witness :
  exists status data,
    sendMIDI_message
      (voice_request (JStr "Port") "CC" (JNum 0) (JNum 0) JUndefined
         (JNum 7) (JNum 100)) idle_world
    = (Ok (Some (map JNum (status :: data))), idle_world)
    /\ 0x80 <= status <= 0xef
    /\ (1 <= List.length data <= 2)%nat
    /\ Forall (fun b => 0 <= b <= 127) data.
Proof.
  apply (valid_request_is_encoded_well_formed (JStr "Port") "CC" 0 0 7 100
           JUndefined idle_world).
  - reflexivity.
  - unfold plain; simpl; lia.
  - unfold plain; simpl; lia.
  - unfold plain; simpl; lia.
  - unfold plain; simpl; lia.
  - left; reflexivity.
  - reflexivity.
Defined.

(* ================================================================== *)
(** ** Trigger CRUD                                                    *)
(* ================================================================== *)

Lemma filter_same_length {A} (f : A -> bool) (l : list A) :
  List.length (filter f l) = List.length l -> filter f l = l.
Proof.
  induction l as [| x l IH]; [reflexivity |].
  simpl; destruct (f x); simpl; intros H.
  - f_equal; apply IH; lia.
  - pose proof (filter_length_le f l); lia.
Qed.

Lemma filter_shorter_iff {A} (f : A -> bool) (l : list A) :
  List.length (filter f l) <> List.length l
  <-> exists x, In x l /\ f x = false.
Proof.
  split.
  - induction l as [| a l IH]; simpl; intros H; [contradiction |].
    destruct (f a) eqn:Ea.
    + simpl in H.
      destruct IH as [x [Hin Hx]]; [lia |].
      exists x; auto.
    + exists a; auto.
  - intros [x [Hin Hx]] Hlen.
    apply filter_same_length in Hlen.
    rewrite <- Hlen in Hin; apply filter_In in Hin.
    destruct Hin; congruence.
Qed.

(** X23.  [deleteTrigger] removes every stored trigger whose id is the
    given one and keeps the others in order.  It answers true exactly
    when some trigger had that id, in which case the store and the
    active set both hold the remaining triggers; otherwise it answers
    false and changes neither. *)
Theorem deleteTrigger_removes :
  forall (triggerId : jsval) (cfg : config) (w : world),
    let '(found, cfg', w') := deleteTrigger triggerId cfg w in
    get_triggers cfg'
    = filter (fun t => negb (strict_eq (Trigger.id t) triggerId)) (get_triggers cfg)
    /\ (forall t, In t (get_triggers cfg') ->
                  strict_eq (Trigger.id t) triggerId = false)
    /\ (found = true
        <-> exists t, In t (get_triggers cfg)
                      /\ strict_eq (Trigger.id t) triggerId = true)
    /\ (found = true ->
        MIDI_TRIGGERS w' = get_triggers cfg'
        /\ disabledInputs cfg' = disabledInputs cfg)
    /\ (found = false -> cfg' = cfg /\ w' = w).
Proof.
  intros triggerId cfg w; unfold deleteTrigger.
  set (keep := fun t => negb (strict_eq (Trigger.id t) triggerId)).
  assert (Hkept : forall t, In t (filter keep (get_triggers cfg)) ->
                            strict_eq (Trigger.id t) triggerId = false).
  { intros t Ht; apply filter_In in Ht; destruct Ht as [_ Ht].
    unfold keep in Ht; now apply negb_true_iff in Ht. }
  assert (Hsome : List.length (filter keep (get_triggers cfg))
                  <> List.length (get_triggers cfg)
                  <-> exists t, In t (get_triggers cfg)
                                /\ strict_eq (Trigger.id t) triggerId = true).
  { rewrite filter_shorter_iff; unfold keep.
    split; intros [t [Hin Ht]]; exists t; (split; [exact Hin |]).
    - now apply negb_false_iff in Ht.
    - now apply negb_false_iff. }
  destruct (Nat.eqb_spec (List.length (filter keep (get_triggers cfg)))
              (List.length (get_triggers cfg))) as [Heq | Hne]; cbn [negb].
  - rewrite (filter_same_length keep _ Heq).
    split; [reflexivity |].
    split; [intros t Ht; apply Hkept; now rewrite (filter_same_length keep _ Heq) |].
    split; [| split; [discriminate | auto]].
    split; [discriminate |].
    intros H; apply Hsome in H; contradiction.
  - split; [reflexivity |].
    split; [exact Hkept |].
    split; [split; [intros _; now apply Hsome | reflexivity] |].
    split; [intros _; split; reflexivity | discriminate].
Qed.

Lemma replace_first_spec (p : Trigger.t -> bool) (triggerObj : Trigger.t)
  (l : list Trigger.t) :
  match replace_first p triggerObj l with
  | Some l' =>
      exists before old after,
        l = (before ++ old :: after)%list
        /\ l' = (before ++ triggerObj :: after)%list
        /\ p old = true
        /\ forall t, In t before -> p t = false
  | None => forall t, In t l -> p t = false
  end.
Proof.
  induction l as [| t rest IH]; simpl; [intros t [] |].
  destruct (p t) eqn:Et.
  - exists [], t, rest; repeat split; auto; intros t0 [].
  - destruct (replace_first p triggerObj rest) as [rest' |].
    + destruct IH as [before [old [after [H1 [H2 [H3 H4]]]]]].
      exists (t :: before), old, after; subst; repeat split; auto.
      intros t0 [<- | H0]; auto.
    + intros t0 [<- | H0]; auto.
Qed.

(** X24.  [updateTrigger] replaces the first stored trigger that has
    the id of the given one, in place: the triggers before and after it
    are untouched and the order is kept.  It then answers true and the
    active set is the stored list.  When no stored trigger has that id
    it answers false and changes nothing. *)
Theorem updateTrigger_replaces_first :
  forall (triggerObj : Trigger.t) (cfg : config) (w : world),
    let '(found, cfg', w') := updateTrigger triggerObj cfg w in
    (found = true ->
     exists before old after,
       get_triggers cfg = (before ++ old :: after)%list
       /\ get_triggers cfg' = (before ++ triggerObj :: after)%list
       /\ strict_eq (Trigger.id old) (Trigger.id triggerObj) = true
       /\ (forall t, In t before ->
                     strict_eq (Trigger.id t) (Trigger.id triggerObj) = false)
       /\ MIDI_TRIGGERS w' = get_triggers cfg'
       /\ disabledInputs cfg' = disabledInputs cfg)
    /\ (found = false ->
        cfg' = cfg /\ w' = w
        /\ forall t, In t (get_triggers cfg) ->
                     strict_eq (Trigger.id t) (Trigger.id triggerObj) = false).
Proof.
  intros triggerObj cfg w; unfold updateTrigger.
  pose proof (replace_first_spec
                (fun t => strict_eq (Trigger.id t) (Trigger.id triggerObj))
                triggerObj (get_triggers cfg)) as Hspec.
  destruct (replace_first
              (fun t => strict_eq (Trigger.id t) (Trigger.id triggerObj))
              triggerObj (get_triggers cfg)) as [l' |].
  - split; [intros _ | discriminate].
    destruct Hspec as [before [old [after [H1 [H2 [H3 H4]]]]]].
    exists before, old, after; repeat split; auto.
  - split; [discriminate | intros _; repeat split; exact Hspec].
Qed.

(** X25.  [addTrigger] stores the trigger, unchanged but for its id,
    at the end of the list; the id is generated, 'trigger-' followed by
    eight characters, and replaces any id the caller gave; the active
    set becomes the stored list.  If no stored trigger already had that
    id, deleting the returned id brings the list back to what it was. *)
Theorem addTrigger_then_deleteTrigger :
  forall (random16 : nat -> Z) (triggerObj : Trigger.t) (cfg : config)
         (w : world),
    let '(added, cfg1, w1) := addTrigger random16 triggerObj cfg w in
    Trigger.id added = JStr ("trigger-" ++ uuidv4 random16)
    /\ String.length (uuidv4 random16) = 8%nat
    /\ set_id added (Trigger.id triggerObj) = triggerObj
    /\ get_triggers cfg1 = (get_triggers cfg ++ [added])%list
    /\ MIDI_TRIGGERS w1 = get_triggers cfg1
    /\ ((forall t, In t (get_triggers cfg) ->
                   strict_eq (Trigger.id t) (Trigger.id added) = false) ->
        let '(found, cfg2, w2) := deleteTrigger (Trigger.id added) cfg1 w1 in
        found = true
        /\ get_triggers cfg2 = get_triggers cfg
        /\ MIDI_TRIGGERS w2 = get_triggers cfg).
Proof.
  intros random16 triggerObj cfg w; unfold addTrigger.
  set (added := set_id triggerObj (JStr ("trigger-" ++ uuidv4 random16))).
  split; [reflexivity |].
  split.
  { unfold uuidv4; simpl.
    repeat match goal with
           | |- context [hex_digit ?x] =>
               let H := fresh "H" in
               assert (H : exists a, hex_digit x = String a EmptyString)
                 by (unfold hex_digit;
                     destruct x as [| p | p]; try (eexists; reflexivity);
                     do 4 (try destruct p as [p | p |]); eexists; reflexivity);
               destruct H as [? ->]
           end.
    reflexivity. }
  split; [destruct triggerObj; reflexivity |].
  split; [reflexivity |].
  split; [reflexivity |].
  intros Hfresh.
  unfold deleteTrigger.
  cbn [get_triggers set_triggers triggers].
  set (keep := fun t => negb (strict_eq (Trigger.id t) (Trigger.id added))).
  assert (Hfilter : filter keep (get_triggers cfg ++ [added])%list = get_triggers cfg).
  { rewrite filter_app.
    assert (Hall : filter keep (get_triggers cfg) = get_triggers cfg).
    { induction (get_triggers cfg) as [| t l IH]; [reflexivity |].
      simpl; unfold keep at 1.
      rewrite (Hfresh t (or_introl eq_refl)); simpl.
      f_equal; apply IH; intros t0 H0; apply Hfresh; now right. }
    rewrite Hall; simpl; unfold keep.
    replace (strict_eq (Trigger.id added) (Trigger.id added)) with true
      by (symmetry; apply String.eqb_refl).
    apply app_nil_r. }
  rewrite Hfilter, length_app; simpl List.length.
  destruct (Nat.eqb_spec (List.length (get_triggers cfg))
              (List.length (get_triggers cfg) + 1)); [lia |].
  repeat split.
Qed.

Lemma addTrigger_then_deleteTrigger_witness :
  let '(added, cfg1, w1) :=
    addTrigger (fun k => Z.of_nat k) (note60_trigger JUndefined (JStr "http://a/"))
      (mkConfig None None) idle_world in
  let '(found, cfg2, w2) := deleteTrigger (Trigger.id added) cfg1 w1 in
  found = true /\ get_triggers cfg2 = [] /\ MIDI_TRIGGERS w2 = [].
Proof.
  pose proof (addTrigger_then_deleteTrigger (fun k => Z.of_nat k)
                (note60_trigger JUndefined (JStr "http://a/"))
                (mkConfig None None) idle_world) as H.
  destruct (addTrigger (fun k => Z.of_nat k)
              (note60_trigger JUndefined (JStr "http://a/"))
              (mkConfig None None) idle_world) as [[added cfg1] w1].
  destruct H as [_ [_ [_ [_ [_ H]]]]].
  apply H; intros t [].
Defined.

Lemma deleteTrigger_removes_witness :
  let '(found, cfg', w') :=
    deleteTrigger (JStr "trigger-a")
      (mkConfig (Some [note60_trigger (JStr "trigger-a") (JStr "http://a/");
                       note60_trigger (JStr "trigger-b") (JStr "http://b/")])
                None)
      idle_world in
  found = true
  /\ get_triggers cfg' = [note60_trigger (JStr "trigger-b") (JStr "http://b/")]
  /\ MIDI_TRIGGERS w' = get_triggers cfg'.
Proof.
  pose proof (deleteTrigger_removes (JStr "trigger-a")
                (mkConfig (Some [note60_trigger (JStr "trigger-a") (JStr "http://a/");
                                 note60_trigger (JStr "trigger-b") (JStr "http://b/")])
                          None)
                idle_world) as H.
  destruct (deleteTrigger (JStr "trigger-a")
              (mkConfig (Some [note60_trigger (JStr "trigger-a") (JStr "http://a/");
                               note60_trigger (JStr "trigger-b") (JStr "http://b/")])
                        None)
              idle_world) as [[found cfg'] w'].
  destruct H as [Hlist [_ [Hfound [Hsync _]]]].
  assert (Ht : found = true).
  { apply Hfound; eexists; split; [left; reflexivity | reflexivity]. }
  split; [exact Ht |]; split; [exact Hlist | apply Hsync, Ht].
Defined.

Lemma updateTrigger_replaces_first_witness :
  let '(found, cfg', w') :=
    updateTrigger (note60_trigger (JStr "trigger-z") (JStr "http://z/"))
      (mkConfig (Some [note60_trigger (JStr "trigger-a") (JStr "http://a/")]) None)
      idle_world in
  found = false ->
  cfg' = mkConfig (Some [note60_trigger (JStr "trigger-a") (JStr "http://a/")]) None
  /\ w' = idle_world.
Proof.
  pose proof (updateTrigger_replaces_first
                (note60_trigger (JStr "trigger-z") (JStr "http://z/"))
                (mkConfig (Some [note60_trigger (JStr "trigger-a") (JStr "http://a/")])
                          None)
                idle_world) as H.
  destruct (updateTrigger (note60_trigger (JStr "trigger-z") (JStr "http://z/"))
              (mkConfig (Some [note60_trigger (JStr "trigger-a") (JStr "http://a/")])
                        None)
              idle_world) as [[found cfg'] w'].
  destruct H as [_ H].
  intros Hf; destruct (H Hf) as [Hc [Hw _]]; split; assumption.
Defined.

(* ================================================================== *)
(** ** Trigger test                                                    *)
(* ================================================================== *)

Lemma substring_length_le (n : nat) :
  forall (s : string), (String.length (String.substring 0 n s) <= n)%nat.
Proof.
  induction n as [| n IH]; intros s; destruct s as [| c r]; simpl; try lia.
  specialize (IH r); lia.
Qed.

Lemma substring_prefix (n : nat) :
  forall (s : string), String.prefix (String.substring 0 n s) s = true.
Proof.
  induction n as [| n IH]; intros s; destruct s as [| c r]; simpl;
    try reflexivity.
  destruct (ascii_dec c c) as [_ | Hne]; [apply IH | now destruct Hne].
Qed.

(** X26.  [testTrigger] never raises and only reads: the activity log,
    the active triggers and the open ports are left as they were.  For
    an unknown id it answers 'Trigger not found', and for a trigger
    whose action is not 'http' that the test is not supported, without
    calling anything.  For an 'http' trigger it makes exactly one
    request, to the trigger's url, and a response is returned with at
    most the first 500 characters of its body. *)
Theorem testTrigger_only_reads :
  forall (E : env) (triggerId : jsval) (cfg : config) (w : world),
    let w' := snd (testTrigger E triggerId cfg w) in
    MIDIRelaysLog w' = MIDIRelaysLog w
    /\ MIDI_TRIGGERS w' = MIDI_TRIGGERS w
    /\ openOutputs w' = openOutputs w
    /\ match find (fun t => strict_eq (Trigger.id t) triggerId) (get_triggers cfg) with
       | None =>
           testTrigger E triggerId cfg w = (Ok (TestFailed "Trigger not found"), w)
       | Some trigger =>
           if is_str (Trigger.actiontype trigger) "http" then
             exists outcome method body,
               fst (testTrigger E triggerId cfg w) = Ok outcome
               /\ trace w' = (trace w ++ [Fetch (Trigger.url trigger) method body])%list
               /\ forall ok status text,
                    outcome = TestResponse ok status text ->
                    (String.length text <= 500)%nat
                    /\ exists full,
                         fetch E (Trigger.url trigger) method body
                         = Response ok status full
                         /\ String.prefix text full = true
           else
             testTrigger E triggerId cfg w
             = (Ok (TestFailed "Test not supported for this action type"), w)
       end.
Proof.
  intros E triggerId cfg w w'; subst w'; unfold testTrigger.
  destruct (find (fun t => strict_eq (Trigger.id t) triggerId) (get_triggers cfg))
    as [trigger |]; [| repeat split].
  destruct (is_str (Trigger.actiontype trigger) "http"); [| repeat split].
  unfold bind, emit.
  match goal with
  | |- context [fetch E ?u ?m ?b] =>
      destruct (fetch E u m b) as [ok status full | name message cause] eqn:Ef
  end.
  - repeat split.
    eexists; eexists; eexists; split; [reflexivity |]; split; [reflexivity |].
    intros ok0 status0 text H; injection H as <- <- <-.
    split; [apply substring_length_le |].
    exists full; split; [exact Ef | apply substring_prefix].
  - destruct (name =? "AbortError")%string; repeat split;
      (eexists; eexists; eexists; split; [reflexivity |];
       split; [reflexivity | intros ? ? ? H; discriminate H]).
Qed.

(** X27.  The test of a trigger does not go through the checks of the
    live action: for an 'http' trigger whose JSON body does not parse,
    [testTrigger] sends the request, with that body, while
    [runMIDITrigger_HTTP] sends nothing. *)
Theorem testTrigger_skips_json_check :
  forall (E : env) (triggerId : jsval) (cfg : config) (trigger : Trigger.t)
         (error : string) (w : world),
    find (fun t => strict_eq (Trigger.id t) triggerId) (get_triggers cfg)
    = Some trigger ->
    Trigger.actiontype trigger = JStr "http" ->
    truthy (Trigger.jsondata trigger) = true ->
    JSON_parse E (Trigger.jsondata trigger) = Some error ->
    (exists method,
       filter is_fetch (trace (snd (testTrigger E triggerId cfg w)))
       = (filter is_fetch (trace w)
          ++ [Fetch (Trigger.url trigger) method (Some (Trigger.jsondata trigger))])%list)
    /\ filter is_fetch (trace (snd (runMIDITrigger_HTTP E trigger w)))
       = filter is_fetch (trace w).
Proof.
  intros E triggerId cfg trigger error w Hfind Hhttp Htruthy Hparse; split.
  - unfold testTrigger; rewrite Hfind, Hhttp, Htruthy.
    cbn [is_str strict_eq String.eqb Ascii.eqb Bool.eqb].
    eexists; unfold bind, emit.
    match goal with
    | |- context [fetch E ?u ?m ?b] =>
        destruct (fetch E u m b) as [ok status full | name message cause]
    end.
    + simpl; rewrite filter_app; reflexivity.
    + destruct (name =? "AbortError")%string; simpl; rewrite filter_app;
        reflexivity.
  - unfold runMIDITrigger_HTTP; rewrite Htruthy, Hparse.
    unfold bind, emit.
    match goal with
    | |- context [addToLog ?d ?p ?c ?x ?w0] =>
        pose proof (only_addToLog (fun e => is_fetch e = false) d p c x
                      (fun _ => eq_refl) w0) as [l [Htrace Hl]]
    end.
    rewrite Htrace; simpl trace.
    rewrite !filter_app; simpl.
    replace (filter is_fetch l) with (@nil effect); [now rewrite !app_nil_r |].
    clear Htrace; induction Hl as [| e l He _ IH]; [reflexivity |].
    simpl; rewrite He; exact IH.
Qed.

Lemma testTrigger_skips_json_check_witness :
  let E := mkEnv None (fun _ => None) (fun _ _ => None) JUndefined
             (fun _ => Some "Unexpected token") (fun _ _ _ => Response true 200 "") in
  let trigger :=
    Trigger.mk (JStr "trigger-1") (JStr "noteon") JUndefined JUndefined
      JUndefined JUndefined JUndefined JUndefined (JStr "http")
      (JStr "http://example.com/webhook") JUndefined (JStr "{oops")
      JUndefined JUndefined JUndefined JUndefined JUndefined JUndefined
      JUndefined in
  exists method,
    filter is_fetch
      (trace (snd (testTrigger E (JStr "trigger-1")
                     (mkConfig (Some [trigger]) None) idle_world)))
    = (filter is_fetch (trace idle_world)
       ++ [Fetch (Trigger.url trigger) method (Some (Trigger.jsondata trigger))])%list.
Proof.
  intros E trigger.
  destruct (testTrigger_skips_json_check E (JStr "trigger-1")
              (mkConfig (Some [trigger]) None) trigger "Unexpected token"
              idle_world)
    as [H _]; try reflexivity.
  exact H.
Defined.

(* ================================================================== *)
(** ** Input enable/disable                                            *)
(* ================================================================== *)

Lemma has_In (l : list string) (s : string) : has l s = true <-> In s l.
Proof.
  unfold has; rewrite existsb_exists; split.
  - intros [x [Hin Hx]]; apply String.eqb_eq in Hx; now subst.
  - intros Hin; exists s; split; [exact Hin | apply String.eqb_refl].
Qed.

Lemma remove_first_In (inputId x : string) (l : list string) :
  NoDup l ->
  In x (remove_first inputId l) <-> In x l /\ x <> inputId.
Proof.
  induction l as [| a l IH]; intros Hnd; simpl; [tauto |].
  inversion Hnd as [| ? ? Ha Hl]; subst.
  destruct (String.eqb_spec a inputId) as [-> | Hne].
  - split.
    + intros Hin; split; [now right |]; intros ->; contradiction.
    + intros [[-> | Hin] Hx]; [contradiction | exact Hin].
  - simpl; rewrite (IH Hl); split.
    + intros [-> | [Hin Hx]]; auto.
    + intros [[-> | Hin] Hx]; auto.
Qed.

Lemma remove_first_NoDup (inputId : string) (l : list string) :
  NoDup l -> NoDup (remove_first inputId l).
Proof.
  induction l as [| a l IH]; intros Hnd; simpl; [constructor |].
  inversion Hnd as [| ? ? Ha Hl]; subst.
  destruct (a =? inputId)%string; [exact Hl |].
  constructor; [| now apply IH].
  intros Hin; apply (remove_first_In inputId a l Hl) in Hin; tauto.
Qed.

Lemma remove_first_last (inputId : string) (l : list string) :
  ~ In inputId l -> remove_first inputId (l ++ [inputId]) = l.
Proof.
  induction l as [| a l IH]; intros Hin; simpl.
  - now rewrite String.eqb_refl.
  - destruct (String.eqb_spec a inputId) as [-> | Hne].
    + destruct Hin; now left.
    + f_equal; apply IH; intros H; apply Hin; now right.
Qed.

(** X28.  On a list of disabled inputs without duplicates (the list
    starts empty and [toggleInputDisabled] keeps it so), toggling an
    input flips whether it is disabled and leaves every other input as
    it was; the port is asked to close when the input becomes disabled
    and to open when it becomes enabled; the stored triggers are not
    touched; and toggling an enabled input twice restores the list. *)
Theorem toggleInputDisabled_flips :
  forall (inputId : string) (cfg : config),
    NoDup (get_disabledInputs cfg) ->
    let '(cfg', call) := toggleInputDisabled inputId cfg in
    isInputDisabled inputId cfg' = negb (isInputDisabled inputId cfg)
    /\ (forall other, other <> inputId ->
                      isInputDisabled other cfg' = isInputDisabled other cfg)
    /\ NoDup (get_disabledInputs cfg')
    /\ call = (if isInputDisabled inputId cfg
               then CallOpenPort inputId else CallClosePort inputId)
    /\ triggers cfg' = triggers cfg
    /\ (isInputDisabled inputId cfg = false ->
        get_disabledInputs (fst (toggleInputDisabled inputId cfg'))
        = get_disabledInputs cfg).
Proof.
  intros inputId cfg Hnd; unfold toggleInputDisabled, isInputDisabled.
  destruct (has (get_disabledInputs cfg) inputId) eqn:Ehas; cbn [negb].
  - cbn [get_disabledInputs set_disabledInputs disabledInputs triggers].
    split; [| split; [| split; [| split; [| split]]]].
    + apply not_true_is_false; rewrite has_In, (remove_first_In _ _ _ Hnd); tauto.
    + intros other Hother; apply eq_true_iff_eq.
      rewrite !has_In, (remove_first_In _ _ _ Hnd); tauto.
    + now apply remove_first_NoDup.
    + reflexivity.
    + reflexivity.
    + discriminate.
  - assert (Hnot : ~ In inputId (get_disabledInputs cfg)).
    { rewrite <- has_In, Ehas; discriminate. }
    cbn [get_disabledInputs set_disabledInputs disabledInputs triggers].
    split; [| split; [| split; [| split; [| split]]]].
    + apply has_In, in_or_app; right; now left.
    + intros other Hother; apply eq_true_iff_eq.
      rewrite !has_In, in_app_iff; simpl; split; [| tauto].
      intros [H | [H | []]]; [exact H | now destruct Hother].
    + apply NoDup_app; [exact Hnd | repeat constructor; intros [] |].
      intros x Hx [<- | []]; contradiction.
    + reflexivity.
    + reflexivity.
    + intros _.
      assert (Hnow : has (get_disabledInputs cfg ++ [inputId])%list inputId = true)
        by (apply has_In, in_or_app; right; now left).
      rewrite Hnow; cbn [negb fst get_disabledInputs set_disabledInputs disabledInputs].
      now apply remove_first_last.
Qed.

Lemma toggleInputDisabled_flips_witness :
  let '(cfg', call) := toggleInputDisabled "Keys" (mkConfig None (Some ["Pads"])) in
  isInputDisabled "Keys" cfg' = negb (isInputDisabled "Keys" (mkConfig None (Some ["Pads"])))
  /\ call = CallClosePort "Keys"
  /\ get_disabledInputs (fst (toggleInputDisabled "Keys" cfg')) = ["Pads"].
Proof.
  assert (Hnd : NoDup (get_disabledInputs (mkConfig None (Some ["Pads"]))))
    by (simpl; repeat constructor; intros []).
  pose proof (toggleInputDisabled_flips "Keys" (mkConfig None (Some ["Pads"])) Hnd)
    as H.
  destruct (toggleInputDisabled "Keys" (mkConfig None (Some ["Pads"])))
    as [cfg' call].
  destruct H as [Hflip [_ [_ [Hcall [_ Htwice]]]]].
  split; [exact Hflip |]; split; [exact Hcall | apply Htwice; reflexivity].
Defined.

(* ================================================================== *)
(** ** The receive path                                                *)
(* ================================================================== *)

(** X29.  Every recognised message (any type but 'unknown' and the
    empty type of the other system messages) is first appended to the
    activity log as one 'RX' entry with its port, type and data, then
    published to the log stream and to the connected clients when these
    are installed, and only then handed to the triggers; this happens
    whether or not any trigger matches. *)
Theorem receiveMIDI_logs_and_publishes :
  forall (E : env) (portName : string) (message : list Z) (midiType : string)
         (midiData : MidiData.t) (w : world),
    receiveMIDI_classify message = Some (midiType, midiData) ->
    midiType <> "" ->
    midiType <> "unknown" ->
    let entry :=
      mkLogEntry (now w) "RX" (JStr portName) (JStr midiType)
        (DataMidiData midiData) in
    exists w1,
      receiveMIDI E portName message w
      = processMIDITriggers E portName midiType midiData w1
      /\ MIDIRelaysLog w1 = push_shift (MIDIRelaysLog w) entry
      /\ trace w1
         = (trace w
            ++ (if sendLog w then [SendLog entry] else [])
            ++ (if sendMIDIBack w
                then [SendMIDIBack portName midiType midiData] else []))%list
      /\ MIDI_TRIGGERS w1 = MIDI_TRIGGERS w.
Proof.
  intros E portName message midiType midiData w Hclass Hempty Hunknown entry.
  unfold receiveMIDI; rewrite Hclass.
  apply String.eqb_neq in Hempty, Hunknown.
  rewrite Hempty, Hunknown; cbn [negb andb].
  unfold bind, get, addToLog, emit, ret; cbn [sendLog set_log].
  fold entry.
  destruct (sendLog w); cbn [sendMIDIBack add_effect set_log];
    destruct (sendMIDIBack w);
    eexists; (split; [reflexivity |]);
    cbn [MIDIRelaysLog trace MIDI_TRIGGERS add_effect set_log];
    repeat split; rewrite <- ?app_assoc, ?app_nil_r; reflexivity.
Qed.

Lemma receiveMIDI_logs_and_publishes_witness :
  exists w1,
    receiveMIDI quiet_env "Port" [0x90; 60; 127] idle_world
    = processMIDITriggers quiet_env "Port" "noteon"
        (voice_data 0 [0x90; 60; 127] (JNum 60) (JNum 127) JUndefined JUndefined)
        w1
    /\ MIDIRelaysLog w1
       = push_shift (MIDIRelaysLog idle_world)
           (mkLogEntry (now idle_world) "RX" (JStr "Port") (JStr "noteon")
              (DataMidiData
                 (voice_data 0 [0x90; 60; 127] (JNum 60) (JNum 127)
                    JUndefined JUndefined)))
    /\ trace w1
       = (trace idle_world
          ++ (if sendLog idle_world
              then [SendLog
                      (mkLogEntry (now idle_world) "RX" (JStr "Port")
                         (JStr "noteon")
                         (DataMidiData
                            (voice_data 0 [0x90; 60; 127] (JNum 60) (JNum 127)
                               JUndefined JUndefined)))]
              else [])
          ++ (if sendMIDIBack idle_world
              then [SendMIDIBack "Port" "noteon"
                      (voice_data 0 [0x90; 60; 127] (JNum 60) (JNum 127)
                         JUndefined JUndefined)]
              else []))%list
    /\ MIDI_TRIGGERS w1 = MIDI_TRIGGERS idle_world.
Proof.
  apply (receiveMIDI_logs_and_publishes quiet_env "Port" [0x90; 60; 127] "noteon"
           (voice_data 0 [0x90; 60; 127] (JNum 60) (JNum 127) JUndefined JUndefined)
           idle_world).
  - reflexivity.
  - discriminate.
  - discriminate.
Defined.
